(** * FreeClaw sandbox substrate: jail arguments, ZFS clone store, exec paths

    A shallow embedding of the FreeBSD isolation code of the repository:

    - [Jail]        src/freebsd/jail.ts (jail.conf stanza and fstab text);
    - [SandboxJail] the jail sandbox with its configuration type
                    src/agents/sandbox/types.jail.ts ([buildJailCreateArgs],
                    [shellEscape], [jailExec]);
    - [Zfs]         src/freebsd/zfs.ts (dataset, snapshot and clone helpers);
    - [Capsicum]    the Capsicum module of the exec tool
                    ([isCapsicumAvailable], [generateCapHelper],
                    [buildCapsicumLauncher], [capsicumExec]).

    Strings are [string] (sequences of 8-bit characters); JavaScript's
    whitespace is restricted to its ASCII members.  External tools are an
    arbitrary, stateful host: every lemma about effectful code holds for
    every host. *)

From Stdlib Require Import String Ascii List ZArith Bool Lia.
From Stdlib Require Import DecimalString.
Import ListNotations.
Open Scope string_scope.

(* ------------------------------------------------------------------ *)
(** ** JavaScript string primitives *)

Module Js.

Definition dq : string := String "034"%char "".
Definition tab : string := String "009"%char "".
Definition nl : string := String "010"%char "".
Definition bslash : string := String "092"%char "".

(** Truthiness of a string: non-empty. *)
Definition truthy (s : string) : bool :=
  match s with "" => false | _ => true end.

(** [a || b] on strings. *)
Definition or_else (a b : string) : string := if truthy a then a else b.

(** [x ?? d]. *)
Definition nullish {A : Type} (x : option A) (d : A) : A :=
  match x with Some v => v | None => d end.

(** Truthiness of an optional boolean field. *)
Definition flag (b : option bool) : bool := nullish b false.

(** Truthiness of an optional string field. *)
Definition truthy_opt (s : option string) : bool :=
  match s with Some v => truthy v | None => false end.

Definition is_ws (c : ascii) : bool :=
  let n := nat_of_ascii c in
  (n =? 32)%nat || ((9 <=? n)%nat && (n <=? 13)%nat).

Fixpoint trimStart (s : string) : string :=
  match s with
  | "" => ""
  | String c r => if is_ws c then trimStart r else s
  end.

Fixpoint trimEnd (s : string) : string :=
  match s with
  | "" => ""
  | String c r =>
      match trimEnd r with
      | "" => if is_ws c then "" else String c ""
      | r' => String c r'
      end
  end.

Definition trim (s : string) : string := trimEnd (trimStart s).

(** [arr.join(sep)]. *)
Definition join (sep : string) (l : list string) : string := String.concat sep l.

(** [s.split(c)] for a one-character separator. *)
Fixpoint split_go (sep : ascii) (cur : string) (s : string) : list string :=
  match s with
  | "" => [cur]
  | String c r =>
      if Ascii.eqb c sep then cur :: split_go sep "" r
      else split_go sep (cur ++ String c "") r
  end.

Definition split (sep : ascii) (s : string) : list string := split_go sep "" s.

(** [arr.includes(x)]. *)
Definition includes (x : string) (l : list string) : bool :=
  existsb (String.eqb x) l.

(** [s.lastIndexOf(c)], [-1] when [c] does not occur. *)
Fixpoint lastIndexOf_go (c : ascii) (s : string) (i : Z) (found : Z) : Z :=
  match s with
  | "" => found
  | String d r => lastIndexOf_go c r (i + 1) (if Ascii.eqb d c then i else found)
  end.

Definition lastIndexOf (s : string) (c : ascii) : Z := lastIndexOf_go c s 0 (-1).

(** [s.substring(0, e)]: a negative end is clamped to 0. *)
Definition substring0 (s : string) (e : Z) : string :=
  String.substring 0 (Z.to_nat e) s.

(** [String(n)] for an integer. *)
Definition of_Z (n : Z) : string := NilZero.string_of_int (Z.to_int n).

(** [s.replace(/c/g, by)] for a one-character pattern. *)
Fixpoint replaceAll (c : ascii) (by_ : string) (s : string) : string :=
  match s with
  | "" => ""
  | String d r =>
      (if Ascii.eqb d c then by_ else String d "") ++ replaceAll c by_ r
  end.

Fixpoint all_chars (p : ascii -> bool) (s : string) : bool :=
  match s with
  | "" => true
  | String c r => p c && all_chars p r
  end.

End Js.

(* ------------------------------------------------------------------ *)
(** ** src/freebsd/jail.ts *)

Module Jail.
Import Js.

Record Mount := mkMount {
  src : string;
  dst : string;
  readonly : option bool
}.

Record JailConfig := mkJailConfig {
  name : string;
  rootDir : string;
  hostname : string;
  ip4Addr : option string;
  interface : option string;
  gatewayPort : Z;
  allowRawSockets : option bool;
  mounts : option (list Mount)
}.

(** [lines.push(x)]. *)
Definition push (lines : list string) (x : string) : list string := lines ++ [x].

(** The array [lines] of [generateJailConf] just before [join]. *)
Definition generateJailConf_lines (cfg : JailConfig) : list string :=
  let lines :=
    [ name cfg ++ " {";
      "    host.hostname = " ++ dq ++ hostname cfg ++ dq ++ ";";
      "    path = " ++ dq ++ rootDir cfg ++ dq ++ ";";
      "";
      "    # Lifecycle";
      "    exec.start = " ++ dq ++ "/bin/sh /etc/rc" ++ dq ++ ";";
      "    exec.stop = " ++ dq ++ "/bin/sh /etc/rc.shutdown jail" ++ dq ++ ";";
      "    exec.clean;";
      "    mount.devfs;";
      "" ] in
  let lines :=
    if truthy_opt (ip4Addr cfg) then
      let iface := nullish (interface cfg) "lo1" in
      let lines := push lines "    # Network" in
      let lines := push lines
        ("    ip4.addr = " ++ iface ++ "|" ++ nullish (ip4Addr cfg) "" ++ ";") in
      push lines ""
    else lines in
  let lines := push lines "    # Security policy" in
  let lines := push lines "    enforce_statfs = 2;" in
  let lines := push lines "    children.max = 0;" in
  let lines := push lines
    ("    allow.raw_sockets = " ++ (if flag (allowRawSockets cfg) then "1" else "0") ++ ";") in
  let lines := push lines "    allow.chflags = 0;" in
  let lines := push lines "    allow.sysvipc = 0;" in
  let lines := push lines "" in
  let lines := push lines "    # FreeClaw gateway" in
  let lines := push lines
    ("    exec.prestart = " ++ dq ++ "ifconfig lo1 alias "
       ++ nullish (ip4Addr cfg) "127.0.1.1"
       ++ " netmask 255.255.255.255 || true" ++ dq ++ ";") in
  let lines := push lines
    ("    exec.poststop = " ++ dq ++ "ifconfig lo1 -alias "
       ++ nullish (ip4Addr cfg) "127.0.1.1" ++ " || true" ++ dq ++ ";") in
  let lines :=
    match mounts cfg with
    | Some (_ :: _) =>
        (* the loop body runs once: it ends in [break] *)
        let lines := push lines "" in
        let lines := push lines "    # Mount points" in
        push lines
          ("    mount.fstab = " ++ dq ++ rootDir cfg ++ "/etc/fstab.freeclaw" ++ dq ++ ";")
    | _ => lines
    end in
  push lines "}".

Definition generateJailConf (cfg : JailConfig) : string :=
  join nl (generateJailConf_lines cfg).

(** One iteration of the loop of [generateJailFstab]. *)
Definition fstab_step (cfg : JailConfig) (lines : list string) (mount : Mount)
  : list string :=
  let opts := if flag (readonly mount) then "ro" else "rw" in
  push lines
    (src mount ++ tab ++ rootDir cfg ++ dst mount ++ tab ++ "nullfs" ++ tab
       ++ opts ++ tab ++ "0" ++ tab ++ "0").

(** The array [lines] of [generateJailFstab] just before [join]. *)
Definition generateJailFstab_lines (cfg : JailConfig) : list string :=
  let lines := ["# FreeClaw jail mount points"] in
  match mounts cfg with
  | Some ms => fold_left (fstab_step cfg) ms lines
  | None => lines
  end.

Definition generateJailFstab (cfg : JailConfig) : string :=
  join nl (generateJailFstab_lines cfg) ++ nl.

(** [resolveDefaultJailConfig], with [path.join] of node:path a parameter. *)
Record DefaultOpts := mkDefaultOpts {
  o_name : option string;
  o_ip4Addr : option string;
  o_gatewayPort : option Z;
  o_rootDir : option string
}.

Definition DEFAULT_JAIL_ROOT : string := "/usr/local/jails".

Definition resolveDefaultJailConfig
    (path_join : string -> string -> string) (opts : option DefaultOpts)
  : JailConfig :=
  let get {A} (f : DefaultOpts -> option A) : option A :=
    match opts with Some o => f o | None => None end in
  let name := nullish (get o_name) "freeclaw0" in
  {| name := name;
     rootDir := nullish (get o_rootDir) (path_join DEFAULT_JAIL_ROOT name);
     hostname := name ++ ".local";
     ip4Addr := Some (nullish (get o_ip4Addr) "127.0.1.1");
     interface := Some "lo1";
     gatewayPort := nullish (get o_gatewayPort) 18789%Z;
     allowRawSockets := Some false;
     mounts := None |}.

(** A configuration with one read-only and one plain mount. *)
Definition two_mounts : JailConfig :=
  mkJailConfig "freeclaw0" "/usr/local/jails/freeclaw0" "freeclaw0.local"
    None None 18789 None
    (Some [mkMount "/data" "/mnt/data" (Some true); mkMount "/srv" "/srv" None]).

End Jail.

(* ------------------------------------------------------------------ *)
(** ** Effects: the host, thrown values, and the monad of async functions *)

Module Eff.

(** The fields the code reads from a caught error object. *)
Record ErrObj := mkErr {
  e_message : option string;
  e_stderr : option string;
  e_stdout : option string;
  e_code : option Z            (* [Some c] when [typeof e.code === "number"] *)
}.

(** A thrown value: an object, or anything else. *)
Inductive thrown := Obj (e : ErrObj) | Prim.

(** [new Error(msg)]. *)
Definition Error (msg : string) : thrown :=
  Obj (mkErr (Some msg) None None None).

(** What a promisified [execFile] resolves to. *)
Record ExecOutput := mkOutput { stdout : string; stderr : string }.

(** One [execFile] call: binary, arguments and the [timeout] option. *)
Record Cmd := mkCmd { bin : string; args : list string; timeout : Z }.

Inductive LogLevel := Info | Warn.

Inductive HostCall :=
| CallExecFile (c : Cmd)
| CallExecSync (cmdline : string) (timeoutMs : Z)
| CallExistsSync (path : string)
| CallMkdirSync (path : string)
| CallWriteFile (path content : string)
| CallChmod (path : string) (mode : Z)
| CallUnlink (path : string)
| CallReadFile (path : string)
| CallLog (level : LogLevel) (msg : string).

(** A call together with whether it returned normally. *)
Definition Event : Type := HostCall * bool.

(** The operating system as node exposes it to the code: each call answers
    and moves the host to a new state.  [inr e] is a rejection or a throw. *)
Record Host (W : Type) := mkHost {
  h_execFile : W -> Cmd -> (ExecOutput + ErrObj) * W;
  h_execSync : W -> string -> Z -> (string + ErrObj) * W;
  h_existsSync : W -> string -> bool;
  h_mkdirSync : W -> string -> (unit + ErrObj) * W;
  h_writeFile : W -> string -> string -> (unit + ErrObj) * W;
  h_chmod : W -> string -> Z -> (unit + ErrObj) * W;
  h_unlink : W -> string -> (unit + ErrObj) * W
}.
Arguments h_execFile {W}.
Arguments h_execSync {W}.
Arguments h_existsSync {W}.
Arguments h_mkdirSync {W}.
Arguments h_writeFile {W}.
Arguments h_chmod {W}.
Arguments h_unlink {W}.

(** Module-level variables [V] next to the host state [W]. *)
Record St (V W : Type) := mkSt { vars : V; world : W }.
Arguments mkSt {V W}.
Arguments vars {V W}.
Arguments world {V W}.

Inductive res (A : Type) := Val (a : A) | Throw (e : thrown).
Arguments Val {A}.
Arguments Throw {A}.

(** A computation: final value or thrown value, final state, calls made. *)
Definition M (S A : Type) : Type := S -> res A * S * list Event.

Definition ret {S A} (a : A) : M S A := fun s => (Val a, s, []).

Definition throw {S A} (e : thrown) : M S A := fun s => (Throw e, s, []).

Definition bind {S A B} (m : M S A) (k : A -> M S B) : M S B :=
  fun s =>
    match m s with
    | (Val a, s1, t1) =>
        match k a s1 with (r, s2, t2) => (r, s2, (t1 ++ t2)%list) end
    | (Throw e, s1, t1) => (Throw e, s1, t1)
    end.

(** [try { m } catch (e) { h e }]. *)
Definition try_catch {S A} (m : M S A) (h : thrown -> M S A) : M S A :=
  fun s =>
    match m s with
    | (Val a, s1, t1) => (Val a, s1, t1)
    | (Throw e, s1, t1) =>
        match h e s1 with (r, s2, t2) => (r, s2, (t1 ++ t2)%list) end
    end.

Definition get_vars {V W} : M (St V W) V := fun s => (Val (vars s), s, []).

Definition set_vars {V W} (v : V) : M (St V W) unit :=
  fun s => (Val tt, mkSt v (world s), []).

(** Lift a host call that may fail. *)
Definition host_call {V W A} (call : HostCall)
    (f : W -> (A + ErrObj) * W) : M (St V W) A :=
  fun s =>
    match f (world s) with
    | (inl a, w) => (Val a, mkSt (vars s) w, [(call, true)])
    | (inr e, w) => (Throw (Obj e), mkSt (vars s) w, [(call, false)])
    end.

Definition execFileAsync {V W} (H : Host W) (c : Cmd) : M (St V W) ExecOutput :=
  host_call (CallExecFile c) (fun w => h_execFile H w c).

(** Whether the host answers a command normally, and the state it is in
    afterwards. *)
Definition answers {W} (H : Host W) (w : W) (c : Cmd) : bool :=
  match fst (h_execFile H w c) with inl _ => true | inr _ => false end.

Definition next {W} (H : Host W) (w : W) (c : Cmd) : W := snd (h_execFile H w c).

(** The event of running a command. *)
Definition ran (c : Cmd) (succeeded : bool) : Event := (CallExecFile c, succeeded).

Definition log {V W} (level : LogLevel) (msg : string) : M (St V W) unit :=
  fun s => (Val tt, s, [(CallLog level msg, true)]).

(** The commands run through [execFile] among the events, in order. *)
Fixpoint commands (t : list Event) : list Cmd :=
  match t with
  | [] => []
  | (CallExecFile c, _) :: r => c :: commands r
  | _ :: r => commands r
  end.

End Eff.

Declare Scope eff_scope.
Delimit Scope eff_scope with eff.
Notation "x <- m ;; k" := (Eff.bind m (fun x => k))
  (at level 100, m at next level, right associativity) : eff_scope.
Notation "m ;;; k" := (Eff.bind m (fun _ => k))
  (at level 100, right associativity) : eff_scope.

(* ------------------------------------------------------------------ *)
(** ** The jail sandbox: [jail -c] arguments and [jailExec] *)

Module SandboxJail.
Import Js Eff.

Inductive Network := inherit | vnet | none.

Record NullfsMount := mkNullfsMount {
  m_src : string;
  m_dst : string;
  m_readOnly : option bool
}.

(** src/agents/sandbox/types.jail.ts *)
Record SandboxJailConfig := mkSandboxJailConfig {
  baseDataset : string;
  baseSnapshot : string;
  cloneParent : string;
  jailPrefix : string;
  workdir : string;
  readOnlyRoot : bool;
  tmpfs : list string;
  network : Network;
  uid : option Z;
  devfsRuleset : option Z;
  env : option (list (string * string));
  setupCommand : option string;
  maxProc : option Z;
  memoryuse : option Z;
  vmemoryuse : option Z;
  pcpu : option Z;
  openfiles : option Z;
  coredumpsize : option Z;
  extraRctlRules : option (list string);
  nullfsMounts : option (list NullfsMount);
  jailParams : option (list string);
  dns : option (list string);
  extraHosts : option (list string)
}.

(** [args.push(a, b, ...)]. *)
Definition push_args (args : list string) (xs : list string) : list string := args ++ xs.

(** Body of the loop over [cfg.jailParams ?? []]. *)
Definition param_step (args : list string) (param : string) : list string :=
  if truthy (trim param) then push_args args [trim param] else args.

Definition buildJailCreateArgs (jailName jailRoot : string) (cfg : SandboxJailConfig)
  : list string :=
  let args :=
    [ "-c";
      "name=" ++ jailName;
      "path=" ++ jailRoot;
      "persist";
      "host.hostname=" ++ jailName ] in
  let args :=
    match network cfg with
    | none => push_args args ["ip4=disable"; "ip6=disable"]
    | vnet => push_args args ["vnet"]
    | inherit => args
    end in
  let args :=
    if readOnlyRoot cfg
    then push_args args ["allow.mount=0"; "enforce_statfs=2"]
    else push_args args ["allow.mount=1"; "enforce_statfs=1"] in
  let args := push_args args ["children.max=0"; "securelevel=3"] in
  fold_left param_step (nullish (jailParams cfg) []) args.

(** The character class of [shellEscape]'s test. *)
Definition safe_char (c : ascii) : bool :=
  let n := nat_of_ascii c in
  ((97 <=? n) && (n <=? 122))%nat    (* a-z *)
  || ((65 <=? n) && (n <=? 90))%nat  (* A-Z *)
  || ((48 <=? n) && (n <=? 57))%nat  (* 0-9 *)
  || existsb (Ascii.eqb c)
       ["_"; "."; "/"; ":"; "="; "@"; "%"; "^"; "+"; ","; "-"]%char.

Definition shellEscape (s : string) : string :=
  if truthy s && all_chars safe_char s then s
  else "'" ++ replaceAll "'"%char ("'" ++ bslash ++ "''") s ++ "'".

Record ExecResult := mkExecResult {
  r_stdout : string;
  r_stderr : string;
  r_code : Z
}.

(** The [opts] of [jailExec]; [opt_env] is [Object.entries] of the record. *)
Record JailExecOpts := mkJailExecOpts {
  opt_allowFailure : option bool;
  opt_env : option (list (string * string));
  opt_uid : option Z;
  opt_workdir : option string;
  opt_timeoutMs : option Z
}.

(** [opts?.f]. *)
Definition opt {A} (opts : option JailExecOpts) (f : JailExecOpts -> option A)
  : option A :=
  match opts with Some o => f o | None => None end.

(** The argument vector [jailExec] hands to [jexec]. *)
Definition jailExec_args (jailName : string) (command : list string)
    (opts : option JailExecOpts) : list string :=
  let args := [] in
  let args :=
    match opt opts opt_uid with
    | Some u => push_args args ["-U"; of_Z u]
    | None => args
    end in
  let args := push_args args [jailName] in
  let needsWrapper :=
    match opt opts opt_env with Some (_ :: _) => true | _ => false end
    || truthy_opt (opt opts opt_workdir) in
  if needsWrapper then
    let envPairs :=
      map (fun kv => fst kv ++ "=" ++ snd kv) (nullish (opt opts opt_env) []) in
    let cdPrefix :=
      match opt opts opt_workdir with
      | Some w => if truthy w then "cd " ++ shellEscape w ++ " &&" else ""
      | None => ""
      end in
    let inner := join " " (map shellEscape command) in
    push_args args (["/usr/bin/env"] ++ envPairs ++ ["sh"; "-c"; (cdPrefix ++ " " ++ inner)%string])%list
  else push_args args command.

(** [typeof e.code === "number" ? e.code : 1] on the caught value. *)
Definition caught_code (e : thrown) : Z :=
  match e with Obj o => nullish (e_code o) 1%Z | Prim => 1%Z end.

Definition caught_stdout (e : thrown) : option string :=
  match e with Obj o => e_stdout o | Prim => None end.

Definition caught_stderr (e : thrown) : option string :=
  match e with Obj o => e_stderr o | Prim => None end.

Definition jexec_cmd (jailName : string) (command : list string)
    (opts : option JailExecOpts) : Cmd :=
  mkCmd "jexec" (jailExec_args jailName command opts)
        (nullish (opt opts opt_timeoutMs) 300000%Z).

Section WithHost.
Context {W : Type} (H : Host W).

Definition jailExec (jailName : string) (command : list string)
    (opts : option JailExecOpts) : M (St unit W) ExecResult :=
  try_catch
    (out <- execFileAsync H (jexec_cmd jailName command opts) ;;
     ret (mkExecResult (stdout out) (stderr out) 0%Z))%eff
    (fun e =>
       let code := caught_code e in
       if flag (opt opts opt_allowFailure) then
         ret (mkExecResult (nullish (caught_stdout e) "")
                           (nullish (caught_stderr e) "") code)
       else
         let msg :=
           or_else (trim (nullish (caught_stderr e) ""))
             ("jexec " ++ jailName ++ " " ++ join " " command
                ++ " failed (exit " ++ of_Z code ++ ")") in
         throw (Error msg)).

End WithHost.

(** A configuration with a read-only root and no network. *)
Definition strict_cfg : SandboxJailConfig :=
  mkSandboxJailConfig "zroot/jails/base" "clean" "zroot/jails/sandboxes" "oc-"
    "/workspace" true ["/tmp"] none None None None None
    (Some 64%Z) None None None None None None None
    (Some ["allow.raw_sockets"; "  "]) None None.

End SandboxJail.

(* ------------------------------------------------------------------ *)
(** ** src/freebsd/zfs.ts *)

Module Zfs.
Import Js Eff.

Inductive ZfsResult (T : Type) :=
| ZfsOk (value : T)
| ZfsErr (error : string) (code : option Z).
Arguments ZfsOk {T}.
Arguments ZfsErr {T}.

Definition is_ok {T} (r : ZfsResult T) : bool :=
  match r with ZfsOk _ => true | ZfsErr _ _ => false end.

(** [ZFS_DEFAULTS]. *)
Definition poolName : string := "".
Definition parentDataset : string := "freeclaw".
Definition workspacesDir : string := "workspaces".
Definition sandboxesDir : string := "sandboxes".
Definition baseJailDataset : string := "freeclaw/base-jail".
Definition defaultQuota : string := "".
Definition compression : string := "lz4".
Definition timeoutMs : Z := 30000.

Definition BASE_SNAPSHOT_LABEL : string := "freeclaw-base".

Definition fail {T} (error : thrown) (fallback : string) : ZfsResult T :=
  match error with
  | Obj err =>
      let msg :=
        or_else
          (or_else (match e_stderr err with Some s => trim s | None => "" end)
                   (nullish (e_message err) ""))
          fallback in
      ZfsErr msg (e_code err)
  | Prim => ZfsErr fallback None
  end.

Definition ok {T} (value : T) : ZfsResult T := ZfsOk value.

(** The command lines the module runs. *)
Definition zfs_cmd (args : list string) : Cmd := mkCmd "/sbin/zfs" args timeoutMs.
Definition zpool_cmd (args : list string) : Cmd := mkCmd "/sbin/zpool" args timeoutMs.

Definition list_cmd (dataset : string) : Cmd :=
  zfs_cmd ["list"; "-H"; "-o"; "name"; dataset].
Definition list_snapshot_cmd (snapshot : string) : Cmd :=
  zfs_cmd ["list"; "-H"; "-t"; "snapshot"; snapshot].
Definition create_cmd (dataset : string) : Cmd :=
  zfs_cmd ["create"; "-p"; dataset].
Definition clone_cmd (snapshot dataset : string) : Cmd :=
  zfs_cmd ["clone"; snapshot; dataset].
Definition destroy_r_cmd (dataset : string) : Cmd :=
  zfs_cmd ["destroy"; "-r"; dataset].
Definition destroy_cmd (snapshot : string) : Cmd :=
  zfs_cmd ["destroy"; snapshot].
Definition snapshot_cmd (snapshot : string) : Cmd :=
  zfs_cmd ["snapshot"; snapshot].

(** A command that only reads: [zfs list], [zfs get], [zpool list]. *)
Definition is_query (c : Cmd) : bool :=
  match args c with
  | a :: _ => String.eqb a "list" || String.eqb a "get"
  | [] => false
  end.

(** The commands of a run that may change the pool, in order. *)
Definition mutations (t : list Event) : list Cmd :=
  filter (fun c => negb (is_query c)) (commands t).

Definition sandboxDatasetName (pool sessionKey : string) : string :=
  pool ++ "/" ++ parentDataset ++ "/" ++ sandboxesDir ++ "/" ++ sessionKey.

Definition workspaceDatasetName (pool agentId : string) : string :=
  pool ++ "/" ++ parentDataset ++ "/" ++ workspacesDir ++ "/" ++ agentId.

Definition baseSnapshotName (pool : string) : string :=
  pool ++ "/" ++ baseJailDataset ++ "@" ++ BASE_SNAPSHOT_LABEL.

(** [cloneDataset.substring(0, cloneDataset.lastIndexOf("/"))]. *)
Definition parentOf (dataset : string) : string :=
  substring0 dataset (lastIndexOf dataset "/"%char).

Section WithHost.
Context {W : Type} (H : Host W).

(** The module variable [resolvedPoolCache] and the host. *)
Definition State : Type := St (option string) W.

Definition zfs (args : list string) : M State ExecOutput :=
  execFileAsync H (zfs_cmd args).

Definition zpool (args : list string) : M State ExecOutput :=
  execFileAsync H (zpool_cmd args).

Definition resolveZfsPool : M State (ZfsResult string) :=
  (resolvedPoolCache <- get_vars ;;
   if truthy_opt resolvedPoolCache then
     ret (ok (nullish resolvedPoolCache ""))
   else if truthy poolName then
     (set_vars (Some poolName) ;;; ret (ok poolName))
   else
     try_catch
       (out <- zpool ["list"; "-H"; "-o"; "name"] ;;
        let pools :=
          filter truthy (map trim (split "010"%char (trim (stdout out)))) in
        match pools with
        | [] => ret (ZfsErr "No ZFS pools found" None)
        | first :: _ =>
            let pool := if includes "zroot" pools then "zroot" else first in
            (set_vars (Some pool) ;;; ret (ok pool))
        end)
       (fun err => ret (fail err "Failed to list ZFS pools")))%eff.

Definition resolveWorkspaceDatasetName (agentId : string)
  : M State (ZfsResult string) :=
  (poolResult <- resolveZfsPool ;;
   match poolResult with
   | ZfsErr e c => ret (ZfsErr e c)
   | ZfsOk pool => ret (ok (workspaceDatasetName pool agentId))
   end)%eff.

Definition resolveSandboxDatasetName (sessionKey : string)
  : M State (ZfsResult string) :=
  (poolResult <- resolveZfsPool ;;
   match poolResult with
   | ZfsErr e c => ret (ZfsErr e c)
   | ZfsOk pool => ret (ok (sandboxDatasetName pool sessionKey))
   end)%eff.

Definition datasetExists (dataset : string) : M State bool :=
  try_catch
    (zfs ["list"; "-H"; "-o"; "name"; dataset] ;;; ret true)%eff
    (fun _ => ret false).

Definition ensureWorkspaceDataset (agentId : string)
  : M State (ZfsResult string) :=
  (nameResult <- resolveWorkspaceDatasetName agentId ;;
   match nameResult with
   | ZfsErr e c => ret (ZfsErr e c)
   | ZfsOk dataset =>
       found <- datasetExists dataset ;;
       if found then ret (ok dataset)
       else
         try_catch
           (let args := ["create"; "-p"] in
            let args :=
              if truthy compression
              then (args ++ ["-o"; ("compression=" ++ compression)%string])%list
              else args in
            let args := (args ++ [dataset])%list in
            zfs args ;;; ret (ok dataset))
           (fun err =>
              (* Race: another process may have created it in between. *)
              found' <- datasetExists dataset ;;
              if found' then ret (ok dataset)
              else ret (fail err ("Failed to create workspace dataset: " ++ dataset)))
   end)%eff.

Definition cloneForSandbox (sessionKey : string)
  : M State (ZfsResult string) :=
  (poolResult <- resolveZfsPool ;;
   match poolResult with
   | ZfsErr e c => ret (ZfsErr e c)
   | ZfsOk pool =>
       let baseSnapshot := baseSnapshotName pool in
       nameResult <- resolveSandboxDatasetName sessionKey ;;
       match nameResult with
       | ZfsErr e c => ret (ZfsErr e c)
       | ZfsOk cloneDataset =>
           found <- datasetExists cloneDataset ;;
           if found then ret (ok cloneDataset)
           else
             let parentDataset := parentOf cloneDataset in
             parentFound <- datasetExists parentDataset ;;
             (* [Some r]: the function returned [r] from inside the block *)
             returned <-
               (if negb parentFound then
                  try_catch
                    (zfs ["create"; "-p"; parentDataset] ;;; ret None)
                    (fun _ =>
                       (* Race condition: parent may have been created concurrently. *)
                       parentFound' <- datasetExists parentDataset ;;
                       if negb parentFound' then
                         ret (Some (ZfsErr
                           ("Failed to create parent dataset: " ++ parentDataset) None))
                       else ret None)
                else ret None) ;;
             match returned with
             | Some r => ret r
             | None =>
                 try_catch
                   (zfs ["clone"; baseSnapshot; cloneDataset] ;;; ret (ok cloneDataset))
                   (fun err =>
                      ret (fail err ("Failed to clone for sandbox: " ++ cloneDataset)))
             end
       end
   end)%eff.

Definition ensureSandboxDataset (sessionKey : string)
  : M State (ZfsResult string) :=
  (nameResult <- resolveSandboxDatasetName sessionKey ;;
   match nameResult with
   | ZfsErr e c => ret (ZfsErr e c)
   | ZfsOk dataset =>
       found <- datasetExists dataset ;;
       if found then ret (ok dataset)
       else cloneForSandbox sessionKey
   end)%eff.

Definition destroySandboxDataset (sessionKey : string)
  : M State (ZfsResult unit) :=
  (nameResult <- resolveSandboxDatasetName sessionKey ;;
   match nameResult with
   | ZfsErr e c => ret (ZfsErr e c)
   | ZfsOk dataset =>
       found <- datasetExists dataset ;;
       if negb found then
         (* Already gone: idempotent success. *)
         ret (ok tt)
       else
         try_catch
           (zfs ["destroy"; "-r"; dataset] ;;; ret (ok tt))
           (fun err => ret (fail err ("Failed to destroy sandbox dataset: " ++ dataset)))
   end)%eff.

Definition createBaseSnapshot : M State (ZfsResult string) :=
  (poolResult <- resolveZfsPool ;;
   match poolResult with
   | ZfsErr e c => ret (ZfsErr e c)
   | ZfsOk pool =>
       let baseDataset := pool ++ "/" ++ baseJailDataset in
       let snapshot := baseDataset ++ "@" ++ BASE_SNAPSHOT_LABEL in
       (* [Some r]: the function returned [r] from inside the block *)
       returned <-
         try_catch
           (zfs ["list"; "-H"; "-t"; "snapshot"; snapshot] ;;;
            try_catch
              (zfs ["destroy"; snapshot] ;;; ret None)
              (fun _ =>
                 (* Dependent clones exist; reuse the existing snapshot. *)
                 ret (Some (ok snapshot))))
           (fun _ => ret None) ;;
       match returned with
       | Some r => ret r
       | None =>
           try_catch
             (zfs ["snapshot"; snapshot] ;;; ret (ok snapshot))
             (fun err => ret (fail err ("Failed to create base snapshot: " ++ snapshot)))
       end
   end)%eff.

(** What [zfs list dataset] answers in a host state. *)
Definition listed (w : W) (dataset : string) : bool := answers H w (list_cmd dataset).

End WithHost.

(** A small pool for running the functions: the names that exist
    (datasets and snapshots), the snapshots that clones depend on, and
    the datasets a concurrent process creates just before our own
    [zfs create] gets to them. *)
Record Pool := mkPool {
  names : list string;
  pinned : list string;
  racing : list string
}.

Definition mem (x : string) (l : list string) : bool := existsb (String.eqb x) l.

Definition remove (x : string) (l : list string) : list string :=
  filter (fun y => negb (String.eqb x y)) l.

Definition done : ExecOutput + ErrObj := inl (mkOutput "" "").

Definition refused (msg : string) : ExecOutput + ErrObj :=
  inr (mkErr (Some "Command failed") (Some msg) (Some "") (Some 1%Z)).

Definition zfs_reply (w : Pool) (args : list string) : (ExecOutput + ErrObj) * Pool :=
  match args with
  | ["list"; _; _; _; x] =>
      if mem x (names w) then (inl (mkOutput (x ++ nl) ""), w)
      else (refused "dataset does not exist", w)
  | ["create"; _; x]
  | ["create"; _; _; _; x] =>
      if mem x (racing w) then
        (refused "dataset already exists",
         mkPool (x :: names w) (pinned w) (remove x (racing w)))
      else (done, mkPool (x :: names w) (pinned w) (racing w))
  | ["clone"; s; x] =>
      if mem s (names w) && negb (mem x (names w)) then
        (done, mkPool (x :: names w) (s :: pinned w) (racing w))
      else (refused "cannot clone", w)
  | ["destroy"; _; x] =>
      if mem x (names w) then (done, mkPool (remove x (names w)) (pinned w) (racing w))
      else (refused "dataset does not exist", w)
  | ["destroy"; x] =>
      if mem x (pinned w) || negb (mem x (names w))
      then (refused "snapshot has dependent clones", w)
      else (done, mkPool (remove x (names w)) (pinned w) (racing w))
  | ["snapshot"; x] =>
      if mem x (names w) then (refused "dataset already exists", w)
      else (done, mkPool (x :: names w) (pinned w) (racing w))
  | _ => (refused "unsupported", w)
  end.

Definition pool_execFile (w : Pool) (c : Cmd) : (ExecOutput + ErrObj) * Pool :=
  if String.eqb (bin c) "/sbin/zpool" then (inl (mkOutput ("zroot" ++ nl) ""), w)
  else if String.eqb (bin c) "/sbin/zfs" then zfs_reply w (args c)
  else (refused "unsupported", w).

Definition pool_host : Host Pool :=
  mkHost Pool pool_execFile
    (fun w _ _ => (inr (mkErr None None None None), w))
    (fun _ _ => false)
    (fun w _ => (inl tt, w))
    (fun w _ _ => (inl tt, w))
    (fun w _ _ => (inl tt, w))
    (fun w _ => (inl tt, w)).

(** Start states: only the base snapshot; a sandbox already cloned from it;
    a workspace that a concurrent process is about to create. *)
Definition empty_pool : St (option string) Pool :=
  mkSt None (mkPool ["zroot/freeclaw/base-jail@freeclaw-base"] [] []).

Definition cloned_pool : St (option string) Pool :=
  mkSt None
    (mkPool ["zroot/freeclaw/sandboxes/abc"; "zroot/freeclaw/sandboxes";
             "zroot/freeclaw/base-jail@freeclaw-base"]
            ["zroot/freeclaw/base-jail@freeclaw-base"] []).

Definition raced_pool : St (option string) Pool :=
  mkSt None (mkPool [] [] ["zroot/freeclaw/workspaces/main"]).

Definition raced_parent_pool : St (option string) Pool :=
  mkSt None (mkPool ["zroot/freeclaw/base-jail@freeclaw-base"] []
                    ["zroot/freeclaw/sandboxes"]).

End Zfs.

(* ------------------------------------------------------------------ *)
(** ** The Capsicum launcher of the exec tool *)

Module Capsicum.
Import Js Eff.

Record CapsicumPolicy := mkPolicy {
  allowRead : list string;
  allowWrite : list string;
  allowExec : list string;
  allowNet : bool;
  tmpDir : option string
}.

Record CapsicumExecResult := mkCapsicumExecResult {
  x_stdout : string;
  x_stderr : string;
  exitCode : option Z;          (* [number | null] *)
  x_sandboxed : bool
}.

Record Launcher := mkLauncher { argv : list string; sandboxed : bool }.

(** The caches [capsicumAvailable] and [capHelperReady]. *)
Record Vars := mkVars {
  capsicumAvailable : option bool;
  capHelperReady : bool
}.

(** [`${err}`] of a caught value. *)
Definition show (e : thrown) : string :=
  match e with
  | Obj o => "Error: " ++ nullish (e_message o) ""
  | Prim => "undefined"
  end.

(** What the spawned child does, as the listeners of [capsicumExec] see it. *)
Inductive ChildEvent :=
| StdoutData (chunk : string)
| StderrData (chunk : string)
| ErrorEvent (message : string)
| CloseEvent (code : option Z).

(** The promise body of [capsicumExec]: the first [error] or [close]
    event settles it; [None] when neither ever arrives. *)
Fixpoint settle (sandboxed : bool) (events : list ChildEvent)
    (stdoutChunks stderrChunks : list string) : option CapsicumExecResult :=
  match events with
  | [] => None
  | StdoutData c :: r => settle sandboxed r (stdoutChunks ++ [c]) stderrChunks
  | StderrData c :: r => settle sandboxed r stdoutChunks (stderrChunks ++ [c])
  | ErrorEvent m :: _ =>
      Some (mkCapsicumExecResult
              (String.concat "" stdoutChunks)
              (String.concat "" stderrChunks ++ nl ++ "[capsicum] spawn error: " ++ m)
              (Some 126%Z) sandboxed)
  | CloseEvent code :: _ =>
      Some (mkCapsicumExecResult
              (String.concat "" stdoutChunks)
              (String.concat "" stderrChunks)
              code sandboxed)
  end.

(** Module constants computed at load time: [IS_FREEBSD] of the platform
    module, the paths built with [path.join] from [process.env.HOME], and
    the text returned by [getCapExecSource]. *)
Record Constants := mkConstants {
  IS_FREEBSD : bool;
  BIN_DIR : string;
  CAP_EXEC_BIN : string;
  CAP_EXEC_SRC : string;
  capExecSource : string
}.

Definition sysctl : string := "sysctl -n kern.features.security_capabilities".

Section WithHost.
Context {W : Type} (H : Host W) (K : Constants).

Definition CapState : Type := St Vars W.

Definition logWarn (msg : string) : M CapState unit := log Warn msg.
Definition logInfo (msg : string) : M CapState unit := log Info msg.

Definition set_capsicumAvailable (b : bool) : M CapState unit :=
  (v <- get_vars ;; set_vars (mkVars (Some b) (capHelperReady v)))%eff.

Definition set_capHelperReady (b : bool) : M CapState unit :=
  (v <- get_vars ;; set_vars (mkVars (capsicumAvailable v) b))%eff.

Definition execSync (cmdline : string) (timeoutMs : Z) : M CapState string :=
  host_call (CallExecSync cmdline timeoutMs) (fun w => h_execSync H w cmdline timeoutMs).

Definition existsSync (path : string) : M CapState bool :=
  fun s => (Val (h_existsSync H (world s) path), s, [(CallExistsSync path, true)]).

Definition mkdirSync (path : string) : M CapState unit :=
  host_call (CallMkdirSync path) (fun w => h_mkdirSync H w path).

Definition writeFile (path content : string) : M CapState unit :=
  host_call (CallWriteFile path content) (fun w => h_writeFile H w path content).

Definition chmod (path : string) (mode : Z) : M CapState unit :=
  host_call (CallChmod path mode) (fun w => h_chmod H w path mode).

Definition unlink (path : string) : M CapState unit :=
  host_call (CallUnlink path) (fun w => h_unlink H w path).

Definition isCapsicumAvailable : M CapState bool :=
  (v <- get_vars ;;
   match capsicumAvailable v with
   | Some cached => ret cached
   | None =>
       if negb (IS_FREEBSD K) then
         (set_capsicumAvailable false ;;; ret false)
       else
         (try_catch
            (result <- execSync sysctl 3000 ;;
             set_capsicumAvailable (String.eqb (trim result) "1"))
            (fun _ => set_capsicumAvailable false) ;;;
          v' <- get_vars ;;
          let available := flag (capsicumAvailable v') in
          (if negb available then
             logWarn ("capsicum: Capsicum capability mode is not available on this kernel. "
                        ++ "Commands will run without Capsicum sandboxing.")
           else
             logInfo "capsicum: Capsicum capability mode detected and available.") ;;;
          ret available)
   end)%eff.

Definition cc_cmd : Cmd :=
  mkCmd "cc" ["-Wall"; "-O2"; "-o"; CAP_EXEC_BIN K; CAP_EXEC_SRC K] 30000.

(** [Some r] from a block: the function returned [r] there. *)
Definition generateCapHelper : M CapState (option string) :=
  (v <- get_vars ;;
   cachedBin <- (if capHelperReady v then existsSync (CAP_EXEC_BIN K) else ret false) ;;
   if cachedBin then ret (Some (CAP_EXEC_BIN K))
   else
     returned <-
       try_catch (mkdirSync (BIN_DIR K) ;;; ret None)
         (fun err =>
            logWarn ("capsicum: failed to create bin directory " ++ BIN_DIR K ++ ": "
                       ++ show err) ;;;
            ret (Some None)) ;;
     match returned with
     | Some r => ret r
     | None =>
     returned <-
       try_catch (writeFile (CAP_EXEC_SRC K) (capExecSource K) ;;; ret None)
         (fun err =>
            logWarn ("capsicum: failed to write C source to " ++ CAP_EXEC_SRC K ++ ": "
                       ++ show err) ;;;
            ret (Some None)) ;;
     match returned with
     | Some r => ret r
     | None =>
     returned <-
       try_catch
         (execFileAsync H cc_cmd ;;;
          chmod (CAP_EXEC_BIN K) 493 ;;;
          ret None)
         (fun err =>
            logWarn ("capsicum: failed to compile Capsicum helper: " ++ show err ++ ". "
                       ++ "Commands will run without Capsicum sandboxing.") ;;;
            (* Clean up partial artifacts. *)
            try_catch (unlink (CAP_EXEC_BIN K)) (fun _ => ret tt) ;;;
            ret (Some None)) ;;
     match returned with
     | Some r => ret r
     | None =>
         set_capHelperReady true ;;;
         logInfo ("capsicum: compiled Capsicum helper at " ++ (CAP_EXEC_BIN K)) ;;;
         ret (Some (CAP_EXEC_BIN K))
     end end end)%eff.

Definition unwrapped (command : string) : Launcher :=
  mkLauncher ["/bin/sh"; "-c"; command] false.

Definition buildCapsicumLauncher (command workdir : string)
    (policy : option CapsicumPolicy) : M CapState Launcher :=
  (available <- isCapsicumAvailable ;;
   if negb available then ret (unwrapped command)
   else
     helperPath <- generateCapHelper ;;
     if negb (truthy_opt helperPath) then
       (logWarn "capsicum: Capsicum helper unavailable; running command without sandbox." ;;;
        ret (unwrapped command))
     else
       let allowNet :=
         match policy with Some p => allowNet p | None => false end in
       ret (mkLauncher
              [nullish helperPath ""; workdir; if allowNet then "1" else "0";
               "/bin/sh"; "-c"; command]
              true))%eff.

(** [capsicumExec] for a child whose listeners observe [child]. *)
Definition capsicumExec (command workdir : string)
    (policy : option CapsicumPolicy) (child : list ChildEvent)
  : M CapState (option CapsicumExecResult) :=
  (launcher <- buildCapsicumLauncher command workdir policy ;;
   ret (settle (sandboxed launcher) child [] []))%eff.

End WithHost.

(** Hosts for running the launcher: a kernel with or without Capsicum and
    a compiler that works or not. *)
Definition bare_host (capsicum compiler : bool) : Host unit :=
  mkHost unit
    (fun w _ =>
       if compiler then (inl (mkOutput "" ""), w)
       else (inr (mkErr (Some "cc: not found") None None None), w))
    (fun w _ _ => (inl (if capsicum then "1" ++ nl else "0" ++ nl), w))
    (fun _ _ => false)
    (fun w _ => (inl tt, w))
    (fun w _ _ => (inl tt, w))
    (fun w _ _ => (inl tt, w))
    (fun w _ => (inl tt, w)).

Definition fresh : St Vars unit := mkSt (mkVars None false) tt.

Definition freebsd : Constants :=
  mkConstants true "/root/.freeclaw/bin" "/root/.freeclaw/bin/freeclaw-cap-exec"
    "/root/.freeclaw/bin/cap_exec.c" "int main(void) { return 0; }".

End Capsicum.


(* ------------------------------------------------------------------ *)
(** ** The jail sandbox: clone store, mounts, limits, lifecycle *)

From Stdlib Require Import OrdersEx RelationClasses Sorted.

Module SandboxOps.
Import Js Eff SandboxJail.

(** *** More JavaScript string primitives *)

(** [s.split(/\s+/)]. *)
Fixpoint splitWs_go (cur : string) (inRun : bool) (s : string) : list string :=
  match s with
  | "" => [cur]
  | String c r =>
      if is_ws c then
        if inRun then splitWs_go cur true r
        else cur :: splitWs_go "" true r
      else splitWs_go (cur ++ String c "") false r
  end.

Definition splitWs (s : string) : list string := splitWs_go "" false s.

(** [s.startsWith(p)]. *)
Definition startsWith (s p : string) : bool := String.prefix p s.

(** [s.includes(sub)]. *)
Fixpoint contains (s sub : string) : bool :=
  String.prefix sub s
  || match s with
     | "" => false
     | String _ r => contains r sub
     end.

(** The string without its first [n] characters. *)
Fixpoint drop (n : nat) (s : string) : string :=
  match n, s with
  | O, _ => s
  | S k, String _ r => drop k r
  | S _, "" => ""
  end.

(** The replacement text of [String.prototype.replace] for a pattern without
    capture groups: [$$], [$&], [$`] and [$'] are special. *)
Fixpoint expand (template matched before after : string) : string :=
  match template with
  | "" => ""
  | String c t =>
      if Ascii.eqb c "$" then
        match t with
        | String d r =>
            if Ascii.eqb d "$" then "$" ++ expand r matched before after
            else if Ascii.eqb d "&" then matched ++ expand r matched before after
            else if Ascii.eqb d "`" then before ++ expand r matched before after
            else if Ascii.eqb d "'" then after ++ expand r matched before after
            else String c (expand t matched before after)
        | "" => String c ""
        end
      else String c (expand t matched before after)
  end.

(** [raw.replace(/\{name\}/g, jailName)]: [skip] characters of the current
    match are still to be passed over, [before] is the text already read. *)
Fixpoint replaceName_go (jailName s : string) (skip : nat) (before : string)
  : string :=
  match s with
  | "" => ""
  | String c r =>
      match skip with
      | S k => replaceName_go jailName r k (before ++ String c "")
      | O =>
          if String.prefix "{name}" s then
            expand jailName "{name}" before (drop 6 s)
              ++ replaceName_go jailName r 5 (before ++ String c "")
          else String c (replaceName_go jailName r 0 (before ++ String c ""))
      end
  end.

Definition replaceName (raw jailName : string) : string :=
  replaceName_go jailName raw 0 "".

(** [arr.sort()] on strings: the default order compares code units, and
    equal strings are indistinguishable, so the result is the sorted
    permutation whatever algorithm the engine runs. *)
Definition str_le (a b : string) : bool :=
  match String_as_OT.compare a b with Gt => false | _ => true end.

Fixpoint insert (x : string) (l : list string) : list string :=
  match l with
  | [] => [x]
  | y :: r => if str_le x y then x :: l else y :: insert x r
  end.

Fixpoint sort (l : list string) : list string :=
  match l with
  | [] => []
  | x :: r => insert x (sort r)
  end.

(** How sh(1) reads one word: text between single quotes is taken as it
    is, a backslash outside quotes makes the next character literal, and
    any other character outside quotes is taken only if it is one of the
    characters that need no quoting.  [None]: not one well-formed word of
    that kind. *)
Fixpoint sh_read (s : string) (quoted : bool) : option string :=
  match s with
  | "" => if quoted then None else Some ""
  | String c r =>
      if quoted then
        if Ascii.eqb c "'" then sh_read r false
        else option_map (String c) (sh_read r true)
      else if Ascii.eqb c "'" then sh_read r true
      else if Ascii.eqb c "\" then
        match r with
        | String d r' => option_map (String d) (sh_read r' false)
        | "" => None
        end
      else if safe_char c then option_map (String c) (sh_read r false)
      else None
  end.

(** *** Constants and pure helpers *)

Definition HOT_JAIL_WINDOW_MS : Z := 5 * 60 * 1000.
Definition DEFAULT_DEVFS_RULESET : Z := 4.

Definition snapshotPath (cfg : SandboxJailConfig) : string :=
  baseDataset cfg ++ "@" ++ baseSnapshot cfg.

Definition cloneDataset (cfg : SandboxJailConfig) (jailName : string) : string :=
  cloneParent cfg ++ "/" ++ jailName.

(** The closure [add] of [buildRctlRules]. *)
Definition add (jailName : string) (rules : list string)
    (resource action : string) (value : Z) : list string :=
  (rules ++ [("jail:" ++ jailName ++ ":" ++ resource ++ ":" ++ action ++ "="
                ++ of_Z value)%string])%list.

(** [if (typeof field === "number" && test field) add(resource, "deny", field)]. *)
Definition limit (jailName : string) (test : Z -> bool) (field : option Z)
    (resource : string) (rules : list string) : list string :=
  match field with
  | Some v => if test v then add jailName rules resource "deny" v else rules
  | None => rules
  end.

(** Body of the loop over [cfg.extraRctlRules ?? []]. *)
Definition extra_step (jailName : string) (rules : list string) (raw : string)
  : list string :=
  let rule := replaceName raw jailName in
  if truthy (trim rule) then (rules ++ [trim rule])%list else rules.

Definition buildRctlRules (jailName : string) (cfg : SandboxJailConfig)
  : list string :=
  let positive v := (0 <? v)%Z in
  let rules := [] in
  let rules := limit jailName positive (maxProc cfg) "maxproc" rules in
  let rules := limit jailName positive (memoryuse cfg) "memoryuse" rules in
  let rules := limit jailName positive (vmemoryuse cfg) "vmemoryuse" rules in
  let rules := limit jailName positive (pcpu cfg) "pcpu" rules in
  let rules := limit jailName positive (openfiles cfg) "openfiles" rules in
  let rules :=
    limit jailName (fun v => (0 <=? v)%Z) (coredumpsize cfg) "coredumpsize" rules in
  fold_left (extra_step jailName) (nullish (extraRctlRules cfg) []) rules.

(** The mount points [unmountAllUnder] works through, in its order, for the
    text printed by [mount -p]. *)
Definition mountsUnder (jailRoot stdout : string) : list string :=
  rev (sort
         (filter (fun mp => startsWith mp (jailRoot ++ "/") || String.eqb mp jailRoot)
            (map (fun line => nth 1 (splitWs line) "") (split "010"%char stdout)))).

(** [`${jailCfg.jailPrefix}${slug}`.slice(0, 64).replace(/[^a-zA-Z0-9._-]/g, "_")]
    of [ensureJailSandbox]. *)
Definition name_char (c : ascii) : bool :=
  let n := nat_of_ascii c in
  ((97 <=? n) && (n <=? 122))%nat
  || ((65 <=? n) && (n <=? 90))%nat
  || ((48 <=? n) && (n <=? 57))%nat
  || existsb (Ascii.eqb c) ["."; "_"; "-"]%char.

Fixpoint sanitize (s : string) : string :=
  match s with
  | "" => ""
  | String c r => String (if name_char c then c else "_"%char) (sanitize r)
  end.

Definition jailNameOf (jailPrefix slug : string) : string :=
  sanitize (substring0 (jailPrefix ++ slug) 64).

(** One entry of [writeExtraHosts]. *)
Definition hostEntry (e : string) : string :=
  let parts :=
    if contains e ":" then rev (split ":"%char e) else splitWs e in
  join tab parts.

(** *** What the module takes from the rest of the program *)

Inductive Scope := session | agent | shared.

(** An entry of the sandbox registry, as far as this module reads and
    writes it. *)
Record RegistryEntry := mkRegistryEntry {
  containerName : string;
  sessionKey : string;
  createdAtMs : Z;
  lastUsedAtMs : option Z;       (* [Some] when [typeof] is "number" *)
  image : string;
  configHash : option string
}.

(** The imports that are not part of this module, and the host operations
    beyond [Host]: [path.join], the constant of constants.js, the helpers of
    shared.js, config-hash.js and command-format.js, the registry of
    registry.js, [fs.readFile] and [Date.now]. *)
Record Imports (W : Type) := mkImports {
  path_join : string -> string -> string;
  SANDBOX_AGENT_WORKSPACE_MOUNT : string;
  resolveSandboxScopeKey : Scope -> string -> string;
  slugifySessionKey : string -> string;
  resolveSandboxAgentId : string -> option string;
  computeSandboxConfigHash :
    SandboxJailConfig -> string -> string -> string -> string;
  formatCliCommand : string -> string;
  readRegistry : W -> (list RegistryEntry + ErrObj) * W;
  updateRegistry : W -> RegistryEntry -> (unit + ErrObj) * W;
  h_readFile : W -> string -> (string + ErrObj) * W;
  dateNow : W -> Z
}.
Arguments path_join {W}.
Arguments SANDBOX_AGENT_WORKSPACE_MOUNT {W}.
Arguments resolveSandboxScopeKey {W}.
Arguments slugifySessionKey {W}.
Arguments resolveSandboxAgentId {W}.
Arguments computeSandboxConfigHash {W}.
Arguments formatCliCommand {W}.
Arguments readRegistry {W}.
Arguments updateRegistry {W}.
Arguments h_readFile {W}.
Arguments dateNow {W}.

(** A call outside [HostCall]: it leaves no event. *)
Definition quiet_call {V W A} (f : W -> (A + ErrObj) * W) : M (St V W) A :=
  fun s =>
    match f (world s) with
    | (inl a, w) => (Val a, mkSt (vars s) w, [])
    | (inr e, w) => (Throw (Obj e), mkSt (vars s) w, [])
    end.

(** [for (const x of l) { await f(x) }]. *)
Fixpoint forEach {S A} (l : list A) (f : A -> M S unit) : M S unit :=
  match l with
  | [] => ret tt
  | x :: r => (f x ;;; forEach r f)%eff
  end.

Section WithHost.
Context {W : Type} (H : Host W) (I : Imports W).

Definition Jst : Type := St unit W.

Definition run_cmd (bin : string) (args : list string) : Cmd :=
  mkCmd bin args 120000.

(** [run(bin, args, opts)]; [allowFailure] is [opts?.allowFailure]. *)
Definition run (bin : string) (args : list string) (allowFailure : option bool)
  : M Jst ExecResult :=
  try_catch
    (out <- execFileAsync H (run_cmd bin args) ;;
     ret (mkExecResult (stdout out) (stderr out) 0%Z))%eff
    (fun e =>
       let code := caught_code e in
       if flag allowFailure then
         ret (mkExecResult (nullish (caught_stdout e) "")
                           (nullish (caught_stderr e) "") code)
       else
         let msg :=
           or_else (trim (nullish (caught_stderr e) ""))
             (bin ++ " " ++ join " " args ++ " failed (exit " ++ of_Z code ++ ")") in
         throw (Error msg)).

Definition jls (jailName : string) (fields : list string) : M Jst ExecResult :=
  run "jls" (["-j"; jailName] ++ fields)%list (Some true).

Definition cloneMountpoint (dataset : string) : M Jst string :=
  (r <- run "zfs" ["get"; "-H"; "-o"; "value"; "mountpoint"; dataset] None ;;
   ret (trim (r_stdout r)))%eff.

Definition zfsDatasetExists (dataset : string) : M Jst bool :=
  (result <- run "zfs" ["list"; "-H"; "-o"; "name"; dataset] (Some true) ;;
   ret ((r_code result =? 0)%Z && String.eqb (trim (r_stdout result)) dataset))%eff.

Definition zfsClone (cfg : SandboxJailConfig) (jailName : string) : M Jst string :=
  (let dataset := cloneDataset cfg jailName in
   found <- zfsDatasetExists dataset ;;
   if found then cloneMountpoint dataset
   else
     let snap := snapshotPath cfg in
     parentFound <- zfsDatasetExists (cloneParent cfg) ;;
     (if negb parentFound
      then (run "zfs" ["create"; "-p"; cloneParent cfg] None ;;; ret tt)
      else ret tt) ;;;
     run "zfs" ["clone"; snap; dataset] None ;;;
     cloneMountpoint dataset)%eff.

Definition zfsDestroyClone (cfg : SandboxJailConfig) (jailName : string)
  : M Jst unit :=
  (let dataset := cloneDataset cfg jailName in
   found <- zfsDatasetExists dataset ;;
   if negb found then ret tt
   else (run "zfs" ["destroy"; "-r"; dataset] (Some true) ;;; ret tt))%eff.

(** [fs.mkdir(path, { recursive: true })]: the host operation of [mkdirSync]. *)
Definition mkdir (path : string) : M Jst unit :=
  host_call (CallMkdirSync path) (fun w => h_mkdirSync H w path).

Definition fs_writeFile (path content : string) : M Jst unit :=
  host_call (CallWriteFile path content) (fun w => h_writeFile H w path content).

Definition fs_readFile (path : string) : M Jst string :=
  host_call (CallReadFile path) (fun w => h_readFile I w path).

Definition mountDevfs (jailRoot : string) (ruleset : Z) : M Jst unit :=
  (let devPath := path_join I jailRoot "dev" in
   mkdir devPath ;;;
   (* Check if already mounted. *)
   r <- run "mount" ["-t"; "devfs"] (Some true) ;;
   if contains (r_stdout r) devPath then ret tt
   else
     (run "mount" ["-t"; "devfs"; "-o"; "ruleset=" ++ of_Z ruleset; "devfs"; devPath]
          None ;;; ret tt))%eff.

Definition mountNullfs (src dst : string) (readOnly : bool) : M Jst unit :=
  (mkdir dst ;;;
   let flags := if readOnly then ["-o"; "ro"] else [] in
   run "mount_nullfs" (flags ++ [src; dst])%list None ;;; ret tt)%eff.

Definition mountTmpfs (dst : string) : M Jst unit :=
  (mkdir dst ;;;
   run "mount" ["-t"; "tmpfs"; "tmpfs"; dst] None ;;; ret tt)%eff.

Definition writeResolvConf (jailRoot : string) (dns : list string) : M Jst unit :=
  (let etcDir := path_join I jailRoot "etc" in
   mkdir etcDir ;;;
   let lines := map (fun addr => "nameserver " ++ addr) dns in
   fs_writeFile (path_join I etcDir "resolv.conf") (join nl lines ++ nl))%eff.

Definition writeExtraHosts (jailRoot : string) (entries : list string) : M Jst unit :=
  (let etcDir := path_join I jailRoot "etc" in
   mkdir etcDir ;;;
   let hostsPath := path_join I etcDir "hosts" in
   existing <-
     try_catch (fs_readFile hostsPath)
       (fun _ =>
          ret ("::1" ++ tab ++ tab ++ "localhost" ++ nl
                 ++ "127.0.0.1" ++ tab ++ "localhost" ++ nl)) ;;
   let extra := map hostEntry entries in
   fs_writeFile hostsPath (trimEnd existing ++ nl ++ join nl extra ++ nl))%eff.

Definition applyRctlRules (rules : list string) : M Jst unit :=
  forEach rules (fun rule => run "rctl" ["-a"; rule] None ;;; ret tt)%eff.

Definition removeRctlRules (jailName : string) : M Jst unit :=
  (run "rctl" ["-r"; "jail:" ++ jailName] (Some true) ;;; ret tt)%eff.

Definition unmountAllUnder (jailRoot : string) : M Jst unit :=
  (r <- run "mount" ["-p"] (Some true) ;;
   let mounts := mountsUnder jailRoot (r_stdout r) in
   forEach mounts (fun mp => run "umount" ["-f"; mp] (Some true) ;;; ret tt))%eff.

(** The result [{ exists, running }] as a pair. *)
Definition jailContainerState (jailName : string) : M Jst (bool * bool) :=
  (result <- jls jailName ["jid"] ;;
   if negb (r_code result =? 0)%Z || negb (truthy (trim (r_stdout result)))
   then ret (false, false)
   else ret (true, true))%eff.

Definition destroyJailSandbox (jailName : string) (cfg : SandboxJailConfig)
  : M Jst unit :=
  (* 1. Remove the jail. *)
  (state <- jailContainerState jailName ;;
   (if snd state then (run "jail" ["-r"; jailName] (Some true) ;;; ret tt)
    else ret tt) ;;;
   (* 2. Remove rctl rules. *)
   removeRctlRules jailName ;;;
   (* 3. Unmount everything under the jail root. *)
   let dataset := cloneDataset cfg jailName in
   found <- zfsDatasetExists dataset ;;
   (if found then (root <- cloneMountpoint dataset ;; unmountAllUnder root)
    else ret tt) ;;;
   (* 4. Destroy the ZFS clone. *)
   zfsDestroyClone cfg jailName)%eff.

(** Step 4 of [createJail]: the workspace bind-mounts. *)
Definition mountWorkspaces (jailRoot : string) (cfg : SandboxJailConfig)
    (workspaceDir workspaceAccess agentWorkspaceDir : string) : M Jst unit :=
  (if negb (String.eqb workspaceAccess "none") then
     let wsInsideJail := path_join I jailRoot (workdir cfg) in
     let wsReadOnly :=
       String.eqb workspaceAccess "ro" && String.eqb workspaceDir agentWorkspaceDir in
     mountNullfs workspaceDir wsInsideJail wsReadOnly ;;;
     (* Separate agent workspace mount (if different from primary). *)
     if negb (String.eqb workspaceDir agentWorkspaceDir) then
       let agentMount := path_join I jailRoot (SANDBOX_AGENT_WORKSPACE_MOUNT I) in
       mountNullfs agentWorkspaceDir agentMount (String.eqb workspaceAccess "ro")
     else ret tt
   else ret tt)%eff.

(** The [try] block of [createJail]. *)
Definition provision (jailName jailRoot : string) (cfg : SandboxJailConfig)
    (workspaceDir workspaceAccess agentWorkspaceDir : string) : M Jst unit :=
  ((* 2. Mount devfs. *)
   mountDevfs jailRoot (nullish (devfsRuleset cfg) DEFAULT_DEVFS_RULESET) ;;;
   (* 3. Mount tmpfs entries. *)
   forEach (tmpfs cfg) (fun entry => mountTmpfs (path_join I jailRoot entry)) ;;;
   (* 4. Workspace bind-mount via nullfs. *)
   mountWorkspaces jailRoot cfg workspaceDir workspaceAccess agentWorkspaceDir ;;;
   (* 5. Extra nullfs mounts from config. *)
   forEach (nullish (nullfsMounts cfg) [])
     (fun m => mountNullfs (m_src m) (path_join I jailRoot (m_dst m))
                 (nullish (m_readOnly m) false)) ;;;
   (* 6. DNS / hosts provisioning. *)
   (match dns cfg with
    | Some (d :: ds) => writeResolvConf jailRoot (d :: ds)
    | _ => ret tt
    end) ;;;
   (match extraHosts cfg with
    | Some (h :: hs) => writeExtraHosts jailRoot (h :: hs)
    | _ => ret tt
    end) ;;;
   (* 7. Create the jail. *)
   run "jail" (buildJailCreateArgs jailName jailRoot cfg) None ;;;
   (* 8. Apply rctl resource limits. *)
   (let rctlRules := buildRctlRules jailName cfg in
    match rctlRules with
    | _ :: _ => applyRctlRules rctlRules
    | [] => ret tt
    end) ;;;
   (* 9. Run setup command if provided. *)
   match setupCommand cfg with
   | Some c =>
       if truthy (trim c) then
         (jailExec H jailName ["sh"; "-lc"; c]
            (Some (mkJailExecOpts None (env cfg) (uid cfg) (Some (workdir cfg)) None))
          ;;; ret tt)
       else ret tt
   | None => ret tt
   end)%eff.

Definition createJail (jailName : string) (cfg : SandboxJailConfig)
    (workspaceDir workspaceAccess agentWorkspaceDir : string) : M Jst unit :=
  ((* 1. Provision the root filesystem via ZFS clone. *)
   jailRoot <- zfsClone cfg jailName ;;
   try_catch
     (provision jailName jailRoot cfg workspaceDir workspaceAccess agentWorkspaceDir)
     (fun err =>
        (* Rollback: tear down everything we set up so far. *)
        try_catch (destroyJailSandbox jailName cfg) (fun _ => ret tt) ;;;
        throw err))%eff.

Definition formatRecreateHint (scope : Scope) (scopeKey : string) : string :=
  match scope with
  | session =>
      formatCliCommand I ("freeclaw sandbox recreate --session " ++ scopeKey)
  | agent =>
      let agentId := nullish (resolveSandboxAgentId I scopeKey) "main" in
      formatCliCommand I ("freeclaw sandbox recreate --agent " ++ agentId)
  | shared => formatCliCommand I "freeclaw sandbox recreate --all"
  end.

(** [Date.now()]. *)
Definition now : M Jst Z := fun s => (Val (dateNow I (world s)), s, []).

(** The drift decision of [ensureJailSandbox]: [true] when the jail is to be
    destroyed and recreated, given the registry entry found for it. *)
Definition hashMismatch (entry : option RegistryEntry) (expectedHash : string) : bool :=
  let currentHash := match entry with Some e => configHash e | None => None end in
  negb (truthy_opt currentHash)
  || negb (String.eqb (nullish currentHash "") expectedHash).

Definition isHot (running : bool) (entry : option RegistryEntry) (now : Z) : bool :=
  let lastUsed := match entry with Some e => lastUsedAtMs e | None => None end in
  running
  && match lastUsed with
     | None => true
     | Some t => (now - t <? HOT_JAIL_WINDOW_MS)%Z
     end.

Definition ensureJailSandbox (sessionKey workspaceDir agentWorkspaceDir : string)
    (scope : Scope) (jailCfg : SandboxJailConfig) (workspaceAccess : string)
  : M Jst string :=
  (let scopeKey := resolveSandboxScopeKey I scope sessionKey in
   let slug :=
     match scope with shared => "shared" | _ => slugifySessionKey I scopeKey end in
   let jailName := jailNameOf (jailPrefix jailCfg) slug in
   let expectedHash :=
     computeSandboxConfigHash I jailCfg workspaceAccess workspaceDir
       agentWorkspaceDir in
   now <- now ;;
   state <- jailContainerState jailName ;;
   let hasJail := fst state in
   let running := snd state in
   (* Config-drift detection *)
   hasJail <-
     (if hasJail then
        registry <- quiet_call (readRegistry I) ;;
        let entry :=
          find (fun e => String.eqb (containerName e) jailName) registry in
        if hashMismatch entry expectedHash then
          if isHot running entry now then
            (log Info
               ("Jail config changed for " ++ jailName
                  ++ " (recently used). Recreate to apply: "
                  ++ formatRecreateHint scope scopeKey) ;;;
             ret true)
          else (destroyJailSandbox jailName jailCfg ;;; ret false)
        else ret true
      else ret false) ;;
   (* Create *)
   (if negb hasJail then
      createJail jailName jailCfg workspaceDir workspaceAccess agentWorkspaceDir
    else ret tt) ;;;
   (* Registry bookkeeping *)
   quiet_call (fun w =>
     updateRegistry I w
       (mkRegistryEntry jailName scopeKey now (Some now)
          ("zfs:" ++ snapshotPath jailCfg) (Some expectedHash))) ;;;
   ret jailName)%eff.

End WithHost.

(** Inputs for running the functions: a configuration with every limit kind,
    and what [mount -p] prints with stacked mounts under one jail root. *)
Definition limits_cfg : SandboxJailConfig :=
  mkSandboxJailConfig "zroot/jails/base" "clean" "zroot/jails/sandboxes" "oc-"
    "/workspace" true ["/tmp"] none None None None None
    (Some 64%Z) (Some 0%Z) None (Some (-5)%Z) None (Some 0%Z)
    (Some ["jail:{name}:wallclock:deny=3600"; "   "]) None None None None.

(** Limits at their edge: a zero memory limit and a zero core-dump size. *)
Definition quota_cfg : SandboxJailConfig :=
  mkSandboxJailConfig "zroot/jails/base" "clean" "zroot/jails/sandboxes" "oc-"
    "/workspace" true ["/tmp"] none None None None None
    (Some 64%Z) (Some 0%Z) None None None (Some 0%Z)
    None None None None None.

Definition mount_table : string :=
  "zroot/j/a /jails/a zfs rw 0 0" ++ nl
  ++ "devfs /jails/a/dev devfs rw 0 0" ++ nl
  ++ "/home/u/ws /jails/a/workspace nullfs rw 0 0" ++ nl
  ++ "tmpfs /jails/a/workspace/tmp tmpfs rw 0 0" ++ nl
  ++ "zroot/j/ab /jails/ab zfs rw 0 0" ++ nl.

(** A small host for examples: one jail slot, a set of datasets, the
    registry and a clock.  Commands of the binary [broken] fail. *)
Record Box := mkBox {
  jailed : bool;
  cloned : list string;
  registry : list RegistryEntry;
  clock : Z;
  broken : string
}.

Definition said (out : string) : ExecOutput + ErrObj := inl (mkOutput out "").

Definition failed (msg : string) : ExecOutput + ErrObj :=
  inr (mkErr (Some "Command failed") (Some msg) (Some "") (Some 1%Z)).

Definition set_jailed (w : Box) (b : bool) : Box :=
  mkBox b (cloned w) (registry w) (clock w) (broken w).

Definition set_cloned (w : Box) (l : list string) : Box :=
  mkBox (jailed w) l (registry w) (clock w) (broken w).

Definition box_zfs (w : Box) (a : list string) : (ExecOutput + ErrObj) * Box :=
  let d := last a "" in
  match a with
  | verb :: _ =>
      if String.eqb verb "list" then
        if existsb (String.eqb d) (cloned w) then (said (d ++ nl), w)
        else (failed "dataset does not exist", w)
      else if String.eqb verb "get" then (said ("/jails/a" ++ nl), w)
      else if String.eqb verb "clone" || String.eqb verb "create" then
        (said "", set_cloned w (d :: cloned w))
      else if String.eqb verb "destroy" then
        (said "", set_cloned w (filter (fun x => negb (String.eqb x d)) (cloned w)))
      else (said "", w)
  | [] => (said "", w)
  end.

Definition box_execFile (w : Box) (c : Cmd) : (ExecOutput + ErrObj) * Box :=
  if String.eqb (bin c) (broken w) then (failed "broken", w)
  else if String.eqb (bin c) "jls" then
    if jailed w then (said ("1" ++ nl), w) else (failed "jail not found", w)
  else if String.eqb (bin c) "jail" then
    (said "", set_jailed w (String.eqb (hd "" (args c)) "-c"))
  else if String.eqb (bin c) "zfs" then box_zfs w (args c)
  else if String.eqb (bin c) "mount" && String.eqb (hd "" (args c)) "-p" then
    (said mount_table, w)
  else (said "", w).

Definition box_host : Host Box :=
  mkHost Box box_execFile
    (fun w _ _ => (inl "", w))
    (fun _ _ => false)
    (fun w _ => (inl tt, w))
    (fun w _ _ => (inl tt, w))
    (fun w _ _ => (inl tt, w))
    (fun w _ => (inl tt, w)).

Definition box_imports : Imports Box :=
  mkImports Box
    (fun a b => if startsWith b "/" then a ++ b else a ++ "/" ++ b)
    "/agent"
    (fun _ key => key)
    (fun key => key)
    (fun _ => None)
    (fun cfg access ws agentWs => workdir cfg ++ ":" ++ access ++ ":" ++ ws ++ ":" ++ agentWs)
    (fun s => s)
    (fun w => (inl (registry w), w))
    (fun w e =>
       (inl tt,
        mkBox (jailed w) (cloned w)
          (e :: filter (fun x => negb (String.eqb (containerName x) (containerName e)))
                  (registry w))
          (clock w) (broken w)))
    (fun w _ => (inr (mkErr (Some "ENOENT") None None None), w))
    clock.

Definition box (w : Box) : St unit Box := mkSt tt w.

(** Nothing there yet. *)
Definition empty_box : Box := mkBox false [] [] 1000000%Z "".

(** A jail with its clone, as [ensureJailSandbox] leaves it. *)
Definition live_box : Box :=
  mkBox true ["zroot/jails/sandboxes/oc-abc"; "zroot/jails/sandboxes"]
    [mkRegistryEntry "oc-abc" "abc" 900000%Z (Some 900000%Z)
       "zfs:zroot/jails/base@clean" (Some "old")]
    1000000%Z "".

(** A host on which [mount_nullfs] fails. *)
Definition bad_box : Box := mkBox false [] [] 1000000%Z "mount_nullfs".

(** The calls that failed, in order. *)
Definition failures (t : list Event) : list HostCall :=
  map fst (filter (fun ev => negb (snd ev)) t).

(** The events of a run. *)
Definition events_of {S A} (m : M S A) (s : S) : list Event := snd (m s).

Definition result_of {S A} (m : M S A) (s : S) : res A := fst (fst (m s)).

Definition state_after {S A} (m : M S A) (s : S) : S := snd (fst (m s)).

Definition thrown_of {S A} (m : M S A) (s : S) : thrown :=
  match result_of m s with Throw e => e | Val _ => Prim end.

(** What the probes of the lifecycle code find in a host state: the jail
    that [jailContainerState] reports, the dataset that [zfsDatasetExists]
    finds, the mountpoint that [cloneMountpoint] reads when its query
    succeeds, and the table that [unmountAllUnder] gets from [mount -p]. *)
Definition jailReported {W} (H : Host W) (w : W) (jailName : string) : bool :=
  match result_of (jailContainerState H jailName) (mkSt tt w) with
  | Val state => fst state
  | Throw _ => false
  end.

Definition datasetListed {W} (H : Host W) (w : W) (dataset : string) : bool :=
  match result_of (zfsDatasetExists H dataset) (mkSt tt w) with
  | Val found => found
  | Throw _ => false
  end.

Definition mountpointOf {W} (H : Host W) (w : W) (dataset : string) : option string :=
  match result_of (cloneMountpoint H dataset) (mkSt tt w) with
  | Val root => Some root
  | Throw _ => None
  end.

Definition mountTable {W} (H : Host W) (w : W) : string :=
  match result_of (run H "mount" ["-p"] (Some true)) (mkSt tt w) with
  | Val r => r_stdout r
  | Throw _ => ""
  end.

(** The host state after a list of commands, run one after the other. *)
Definition after {W} (H : Host W) (w : W) (cs : list Cmd) : W :=
  fold_left (next H) cs w.

End SandboxOps.
(* ------------------------------------------------------------------ *)
(** ** src/freebsd/zfs.ts: snapshots, tuning, backup *)

Module ZfsOps.
Import Js Eff Zfs.

Record SnapshotInfo := mkSnapshotInfo {
  s_name : string;
  s_creation : string;
  s_used : string;
  s_referenced : string
}.

Record DatasetUsage := mkDatasetUsage {
  u_used : string;
  u_available : string;
  u_referenced : string;
  u_mountpoint : string
}.

(** [parts[i] ?? ""]. *)
Definition field (parts : list string) (i : nat) : string := nth i parts "".

(** One line of [zfs list -H]: the output is tab-separated. *)
Definition parseSnapshot (line : string) : SnapshotInfo :=
  let parts := split "009"%char line in
  mkSnapshotInfo (field parts 0) (field parts 1) (field parts 2) (field parts 3).

Definition list_snapshots_cmd (dataset : string) : Cmd :=
  zfs_cmd ["list"; "-H"; "-t"; "snapshot"; "-o"; "name,creation,used,referenced";
           "-s"; "creation"; "-r"; dataset].

Definition usage_cmd (dataset : string) : Cmd :=
  zfs_cmd ["list"; "-H"; "-o"; "used,avail,refer,mountpoint"; dataset].

(** [zfs send], with ten times the default timeout. *)
Definition send_cmd (snapshot : string) : Cmd :=
  mkCmd "/sbin/zfs" ["send"; snapshot] (timeoutMs * 10).

(** [zpool list] as [isZfsAvailable] runs it, with a timeout of 5 s. *)
Definition probe_cmd : Cmd := mkCmd "/sbin/zpool" ["list"; "-H"; "-o"; "name"] 5000.

(** What [zfs list -H] prints for a snapshot: the fields separated by tabs,
    one snapshot per line. *)
Definition printSnapshot (i : SnapshotInfo) : string :=
  s_name i ++ tab ++ s_creation i ++ tab ++ s_used i ++ tab ++ s_referenced i.

Definition printListing (l : list SnapshotInfo) : string :=
  join nl (map printSnapshot l) ++ nl.

Definition no_char (c : ascii) (s : string) : bool :=
  all_chars (fun d => negb (Ascii.eqb d c)) s.

(** A field that fits on a line of the listing. *)
Definition one_line (s : string) : bool :=
  no_char "009"%char s && no_char "010"%char s.

(** A non-empty string without white space. *)
Definition word (s : string) : bool :=
  truthy s && all_chars (fun c => negb (is_ws c)) s.

Definition plain (i : SnapshotInfo) : bool :=
  word (s_name i) && one_line (s_creation i) && one_line (s_used i)
  && word (s_referenced i).

(** A computation that returns whatever the host answers. *)
Definition never_throws {S A} (m : M S A) : Prop :=
  forall s, exists a s' t, m s = (Val a, s', t).

Section WithHost.
Context {W : Type} (H : Host W).

Definition isZfsAvailable : M (@State W) bool :=
  try_catch
    (out <- execFileAsync H probe_cmd ;;
     (* At least one pool line means ZFS is functional. *)
     ret (0 <? String.length (trim (stdout out)))%nat)%eff
    (fun _ => ret false).

Definition resetPoolCache : M (@State W) unit := set_vars None.

Definition createWorkspaceSnapshot (agentId label : string)
  : M (@State W) (ZfsResult string) :=
  (nameResult <- resolveWorkspaceDatasetName H agentId ;;
   match nameResult with
   | ZfsErr e c => ret (ZfsErr e c)
   | ZfsOk dataset =>
       let snapshot := dataset ++ "@" ++ label in
       try_catch
         (zfs H ["snapshot"; snapshot] ;;; ret (ok snapshot))
         (fun err => ret (fail err ("Failed to create snapshot: " ++ snapshot)))
   end)%eff.

Definition listWorkspaceSnapshots (agentId : string)
  : M (@State W) (ZfsResult (list SnapshotInfo)) :=
  (nameResult <- resolveWorkspaceDatasetName H agentId ;;
   match nameResult with
   | ZfsErr e c => ret (ZfsErr e c)
   | ZfsOk dataset =>
       try_catch
         (out <- execFileAsync H (list_snapshots_cmd dataset) ;;
          let lines := filter truthy (split "010"%char (trim (stdout out))) in
          let snapshots := map parseSnapshot lines in
          (* Reverse to newest-first. *)
          ret (ok (rev snapshots)))
         (fun err => ret (fail err ("Failed to list snapshots for: " ++ dataset)))
   end)%eff.

Definition rollbackWorkspace (agentId label : string)
  : M (@State W) (ZfsResult unit) :=
  (nameResult <- resolveWorkspaceDatasetName H agentId ;;
   match nameResult with
   | ZfsErr e c => ret (ZfsErr e c)
   | ZfsOk dataset =>
       let snapshot := dataset ++ "@" ++ label in
       try_catch
         (zfs H ["rollback"; "-r"; snapshot] ;;; ret (ok tt))
         (fun err => ret (fail err ("Failed to rollback to snapshot: " ++ snapshot)))
   end)%eff.

Definition deleteSnapshot (agentId label : string)
  : M (@State W) (ZfsResult unit) :=
  (nameResult <- resolveWorkspaceDatasetName H agentId ;;
   match nameResult with
   | ZfsErr e c => ret (ZfsErr e c)
   | ZfsOk dataset =>
       let snapshot := dataset ++ "@" ++ label in
       try_catch
         (zfs H ["destroy"; snapshot] ;;; ret (ok tt))
         (fun err => ret (fail err ("Failed to delete snapshot: " ++ snapshot)))
   end)%eff.

Definition promoteClone (sessionKey : string) : M (@State W) (ZfsResult unit) :=
  (nameResult <- resolveSandboxDatasetName H sessionKey ;;
   match nameResult with
   | ZfsErr e c => ret (ZfsErr e c)
   | ZfsOk dataset =>
       try_catch
         (zfs H ["promote"; dataset] ;;; ret (ok tt))
         (fun err => ret (fail err ("Failed to promote clone: " ++ dataset)))
   end)%eff.

Definition setWorkspaceQuota (agentId quota : string)
  : M (@State W) (ZfsResult unit) :=
  (nameResult <- resolveWorkspaceDatasetName H agentId ;;
   match nameResult with
   | ZfsErr e c => ret (ZfsErr e c)
   | ZfsOk dataset =>
       try_catch
         (zfs H ["set"; "quota=" ++ quota; dataset] ;;; ret (ok tt))
         (fun err => ret (fail err ("Failed to set quota on " ++ dataset)))
   end)%eff.

(** [algorithm] is [None] when the caller leaves it out. *)
Definition enableCompression (dataset : string) (algorithm : option string)
  : M (@State W) (ZfsResult unit) :=
  let algorithm := nullish algorithm compression in
  try_catch
    (zfs H ["set"; "compression=" ++ algorithm; dataset] ;;; ret (ok tt))%eff
    (fun err => ret (fail err ("Failed to enable compression on " ++ dataset))).

Definition getDatasetUsage (dataset : string)
  : M (@State W) (ZfsResult DatasetUsage) :=
  try_catch
    (out <- execFileAsync H (usage_cmd dataset) ;;
     let parts := split "009"%char (trim (stdout out)) in
     if (List.length parts <? 4)%nat then
       ret (ZfsErr ("Unexpected zfs list output for " ++ dataset) None)
     else
       ret (ok (mkDatasetUsage (field parts 0) (field parts 1) (field parts 2)
                               (field parts 3))))%eff
    (fun err => ret (fail err ("Failed to get usage for " ++ dataset))).

(** [fail] on the rejection of an [execFile] call made with
    [encoding: "buffer"]: the [stderr] that the rejection carries is a
    Buffer, which has no [trim], so [err.stderr?.trim()] throws a TypeError.
    [e_stderr] tells whether the rejection carries the property. *)
Definition fail_buffer {T} (error : thrown) (fallback : string)
  : M (@State W) (ZfsResult T) :=
  match error with
  | Obj err =>
      match e_stderr err with
      | Some _ => throw (Error "err.stderr?.trim is not a function")
      | None => ret (fail error fallback)
      end
  | Prim => ret (fail error fallback)
  end.

(** The stream is captured from stdout and then written to the file; the
    dynamic import of node:fs/promises is taken to succeed.  The [catch]
    block sees either the rejection of the send, whose [stderr] is a Buffer,
    or the error of the write; what [fail] throws there leaves the
    function. *)
Definition sendSnapshot (agentId label outputPath : string)
  : M (@State W) (ZfsResult unit) :=
  (nameResult <- resolveWorkspaceDatasetName H agentId ;;
   match nameResult with
   | ZfsErr e c => ret (ZfsErr e c)
   | ZfsOk dataset =>
       let snapshot := dataset ++ "@" ++ label in
       let fallback := "Failed to send snapshot: " ++ snapshot in
       sent <-
         try_catch
           (out <- execFileAsync H (send_cmd snapshot) ;; ret (inl out))
           (fun err => ret (inr err)) ;;
       match sent with
       | inl out =>
           try_catch
             (host_call (CallWriteFile outputPath (stdout out))
                (fun w => h_writeFile H w outputPath (stdout out)) ;;;
              ret (ok tt))
             (fun err => ret (fail err fallback))
       | inr err => fail_buffer err fallback
       end
   end)%eff.

End WithHost.

(** A host without ZFS: every command is refused. *)
Definition dead_host : Host unit :=
  mkHost unit
    (fun w _ => (refused "no such pool", w))
    (fun w _ _ => (inr (mkErr None None None None), w))
    (fun _ _ => false)
    (fun w _ => (inl tt, w))
    (fun w _ _ => (inl tt, w))
    (fun w _ _ => (inl tt, w))
    (fun w _ => (inl tt, w)).

Definition unresolved : St (option string) unit := mkSt None tt.

(** A host with the pool [zroot] whose [zfs] prints [out]. *)
Definition printing_host (out : string) : Host unit :=
  mkHost unit
    (fun w c =>
       if String.eqb (bin c) "/sbin/zpool" then (inl (mkOutput ("zroot" ++ nl) ""), w)
       else (inl (mkOutput out ""), w))
    (fun w _ _ => (inr (mkErr None None None None), w))
    (fun _ _ => false)
    (fun w _ => (inl tt, w))
    (fun w _ _ => (inl tt, w))
    (fun w _ _ => (inl tt, w))
    (fun w _ => (inl tt, w)).

Definition two_snapshots : list SnapshotInfo :=
  [mkSnapshotInfo "zroot/freeclaw/workspaces/main@monday" "Mon Jun  2 10:00 2025"
     "12K" "1.2M";
   mkSnapshotInfo "zroot/freeclaw/workspaces/main@tuesday" "Tue Jun  3 10:00 2025"
     "0B" "1.3M"].

End ZfsOps.

(* ------------------------------------------------------------------ *)
(** ** src/freebsd/jail.ts: jail.conf lookup, running jails, addresses *)

Module JailOps.
Import Js Eff Jail SandboxOps.

Definition DEFAULT_JAIL_IP_PREFIX : string := "127.0.1".

(** The characters of the class [[.*+?^${}()|[\]\\]]. *)
Definition special (c : ascii) : bool :=
  existsb (Ascii.eqb c)
    ["."; "*"; "+"; "?"; "^"; "$"; "{"; "}"; "("; ")"; "|"; "["; "]"; "\"]%char.

(** [str.replace(/[.*+?^${}()|[\]\\]/g, "\\$&")]. *)
Fixpoint escapeRegex (str : string) : string :=
  match str with
  | "" => ""
  | String c r =>
      if special c then String "\" (String c (escapeRegex r))
      else String c (escapeRegex r)
  end.

(** The text a pattern stands for when it is made of plain characters and
    escaped special characters only; [None] for any other pattern. *)
Fixpoint literal (pattern : string) : option string :=
  match pattern with
  | "" => Some ""
  | String c r =>
      if Ascii.eqb c "\" then
        match r with
        | String d r' =>
            if special d then option_map (String d) (literal r') else None
        | "" => None
        end
      else if special c then None
      else option_map (String c) (literal r)
  end.

(** Line terminators, after which [^] matches under the flag [m]. *)
Definition line_terminator (c : ascii) : bool :=
  Ascii.eqb c "010" || Ascii.eqb c "013".

(** [name], then [\s*], then an opening brace, at the start of [s]. *)
Definition stanza_at (name s : string) : bool :=
  String.prefix name s
  && match trimStart (drop (String.length name) s) with
     | String c _ => Ascii.eqb c "{"
     | "" => false
     end.

Fixpoint stanza_search (name s : string) (lineStart : bool) : bool :=
  (lineStart && stanza_at name s)
  || match s with
     | "" => false
     | String c r => stanza_search name r (line_terminator c)
     end.

(** [new RegExp(`^${pattern}\\s*\\{`, "m").test(content)] for a pattern that
    is a literal. *)
Definition stanza_test (pattern content : string) : bool :=
  match literal pattern with
  | Some name => stanza_search name content true
  | None => false
  end.

(** [Number.parseInt(s, 10)]; [None] is [NaN]. *)
Definition digit (c : ascii) : bool :=
  let n := nat_of_ascii c in (48 <=? n)%nat && (n <=? 57)%nat.

Fixpoint digits (s : string) : string :=
  match s with
  | String c r => if digit c then String c (digits r) else ""
  | "" => ""
  end.

Definition value_of (ds : string) (acc : Z) : Z :=
  fold_left (fun a c => (a * 10 + Z.of_nat (nat_of_ascii c - 48))%Z)
    (list_ascii_of_string ds) acc.

Definition parseInt (s : string) : option Z :=
  let s := trimStart s in
  let '(neg, s) :=
    match s with
    | String c r =>
        if Ascii.eqb c "-" then (true, r)
        else if Ascii.eqb c "+" then (false, r)
        else (false, s)
    | "" => (false, s)
    end in
  match digits s with
  | "" => None
  | ds => Some (if neg then (- value_of ds 0)%Z else value_of ds 0)
  end.

(** [String(n)] for a number that may be [NaN]. *)
Definition show (n : option Z) : string :=
  match n with Some z => of_Z z | None => "NaN" end.

Record JailInfo := mkJailInfo {
  jid : option Z;
  j_name : string;
  j_path : string;
  j_hostname : string
}.

(** The body of the loop of [listJails]. *)
Definition jail_of_line (line : string) : list JailInfo :=
  if negb (truthy (trim line)) then []
  else
    let parts := splitWs (trim line) in
    if (List.length parts <? 4)%nat then []
    else [mkJailInfo (parseInt (nth 0 parts "")) (nth 1 parts "") (nth 2 parts "")
            (nth 3 parts "")].

Definition parseJails (stdout : string) : list JailInfo :=
  flat_map jail_of_line (split "010"%char (trim stdout)).

(** [stdout.match(new RegExp(`${escapeRegex(prefix)}\\.(\\d+)`))]: the first
    place where the prefix, a dot and digits follow one another; the group
    is the longest run of digits there. *)
Definition octet_at (prefix s : string) : option Z :=
  if String.prefix (prefix ++ ".") s then
    match digits (drop (String.length prefix + 1) s) with
    | "" => None
    | ds => Some (value_of ds 0)
    end
  else None.

Fixpoint octet_search (prefix s : string) : option Z :=
  match octet_at prefix s with
  | Some n => Some n
  | None =>
      match s with
      | "" => None
      | String _ r => octet_search prefix r
      end
  end.

Definition match_octet (pattern stdout : string) : option Z :=
  match literal pattern with
  | Some prefix => octet_search prefix stdout
  | None => None
  end.

(** The last loop of [nextJailIp]: the candidates are 1 to 254. *)
Fixpoint pick (prefix : string) (usedLast : list Z) (candidates : list Z) : string :=
  match candidates with
  | [] => prefix ++ ".1"
  | i :: r =>
      if negb (existsb (Z.eqb i) usedLast) then prefix ++ "." ++ of_Z i
      else pick prefix usedLast r
  end.

Definition candidates : list Z := map Z.of_nat (seq 1 254).

Definition jls_cmd : Cmd := mkCmd "jls" ["-q"; "jid"; "name"; "path"; "host.hostname"] 0.

Definition ifconfig_cmd (j : JailInfo) : Cmd :=
  mkCmd "jexec" [show (jid j); "ifconfig"; "lo1"] 0.

Section WithHost.
Context {W : Type} (H : Host W) (readFile : W -> string -> (string + ErrObj) * W).

Definition Jst : Type := St unit W.

Definition listJails : M Jst (list JailInfo) :=
  try_catch
    (out <- execFileAsync H jls_cmd ;; ret (parseJails (stdout out)))%eff
    (fun _ => ret []).

Definition jailExistsInConf (name : string) (confPath : option string) : M Jst bool :=
  let confPath := nullish confPath "/etc/jail.conf" in
  try_catch
    (content <- quiet_call (fun w => readFile w confPath) ;;
     ret (stanza_test (escapeRegex name) content))%eff
    (fun _ => ret false).

(** The first loop of [nextJailIp]; [usedLast] is the set so far. *)
Fixpoint usedOctets (prefix : string) (jails : list JailInfo) (usedLast : list Z)
  : M Jst (list Z) :=
  match jails with
  | [] => ret usedLast
  | jail :: r =>
      (usedLast <-
         try_catch
           (out <- execFileAsync H (ifconfig_cmd jail) ;;
            match match_octet (escapeRegex prefix) (stdout out) with
            | Some n => ret (n :: usedLast)
            | None => ret usedLast
            end)
           (fun _ => (* Jail might not have lo1 *) ret usedLast) ;;
       usedOctets prefix r usedLast)%eff
  end.

Definition nextJailIp (prefix : option string) : M Jst string :=
  (let prefix := nullish prefix DEFAULT_JAIL_IP_PREFIX in
   jails <- listJails ;;
   usedLast <- usedOctets prefix jails [] ;;
   ret (pick prefix usedLast candidates))%eff.

End WithHost.

(** A host with two running jails, on the addresses .1 and .2. *)
Definition two_jails : Host unit :=
  mkHost unit
    (fun w c =>
       if String.eqb (bin c) "jls" then
         (inl (mkOutput ("1 web /jails/web web.local" ++ nl
                           ++ "2 db /jails/db db.local" ++ nl) ""), w)
       else
         (inl (mkOutput ("inet 127.0.1." ++ hd "" (args c)
                           ++ " netmask 0xffffffff" ++ nl) ""), w))
    (fun w _ _ => (inl "", w))
    (fun _ _ => false)
    (fun w _ => (inl tt, w))
    (fun w _ _ => (inl tt, w))
    (fun w _ _ => (inl tt, w))
    (fun w _ => (inl tt, w)).

(** A jail.conf made of an older stanza and the one of [two_mounts]. *)
Definition conf_file (w : unit) (path : string) : (string + ErrObj) * unit :=
  (inl ("web {" ++ nl ++ "}" ++ nl ++ generateJailConf two_mounts ++ nl), w).

End JailOps.

(* ------------------------------------------------------------------ *)
(** ** Capsicum: what the listeners of the child collect *)

Module CapsicumOps.
Import Js Eff Capsicum.

Definition is_data (e : ChildEvent) : bool :=
  match e with StdoutData _ | StderrData _ => true | _ => false end.

(** The chunks pushed by the [data] listeners, in order. *)
Definition stdout_of (events : list ChildEvent) : list string :=
  flat_map (fun e => match e with StdoutData c => [c] | _ => [] end) events.

Definition stderr_of (events : list ChildEvent) : list string :=
  flat_map (fun e => match e with StderrData c => [c] | _ => [] end) events.





Section WithHost.
Context {W : Type} (H : Host W) (K : Constants).
(** [path.join] of node:path and the directory of [resolveTmpDir]. *)
Context (path_join : string -> string -> string) (tmp : string).






End WithHost.



End CapsicumOps.


(* ================================================================== *)
(** * Properties *)

(** ** jail.ts: the fstab text *)

Module JailProps.
Import Js Jail.

Lemma fstab_fold (cfg : JailConfig) (ms : list Mount) (acc : list string) :
  fold_left (fstab_step cfg) ms acc
  = (acc ++ map (fun m => hd "" (fstab_step cfg [] m)) ms)%list.
Proof.
  revert acc. induction ms as [|m ms IH]; intros acc; simpl.
  - now rewrite app_nil_r.
  - rewrite IH. unfold fstab_step at 1, push. now rewrite <- app_assoc.
Qed.

Lemma generateJailFstab_lines_eq (cfg : JailConfig) :
  generateJailFstab_lines cfg
  = "# FreeClaw jail mount points"
      :: map (fun m => hd "" (fstab_step cfg [] m)) (nullish (mounts cfg) []).
Proof.
  unfold generateJailFstab_lines. destruct (mounts cfg) as [ms|]; simpl.
  - now rewrite fstab_fold.
  - reflexivity.
Qed.

(** C8: the fstab has the header line followed by exactly one nullfs line
    per configured mount, in input order; the line of a mount names its
    [src], then [rootDir] followed by its [dst], and carries the option
    ro when its [readonly] flag is set and rw otherwise. *)
Theorem generateJailFstab_entries (cfg : JailConfig) :
  let ms := nullish (mounts cfg) [] in
  let lines := generateJailFstab_lines cfg in
  generateJailFstab cfg = join nl lines ++ nl /\
  length lines = S (length ms) /\
  nth_error lines 0 = Some "# FreeClaw jail mount points" /\
  forall i m, nth_error ms i = Some m ->
    exists opts,
      nth_error lines (S i)
      = Some (src m ++ tab ++ rootDir cfg ++ dst m ++ tab ++ "nullfs" ++ tab
                ++ opts ++ tab ++ "0" ++ tab ++ "0") /\
      (readonly m = Some true -> opts = "ro") /\
      (readonly m <> Some true -> opts = "rw").
Proof.
  intros ms lines. subst lines. rewrite generateJailFstab_lines_eq. fold ms.
  repeat split.
  - unfold generateJailFstab. now rewrite generateJailFstab_lines_eq.
  - simpl. now rewrite length_map.
  - intros i m Hm. simpl nth_error at 1.
    exists (if flag (readonly m) then "ro" else "rw"). split.
    + rewrite nth_error_map, Hm. reflexivity.
    + split.
      * intros ->. reflexivity.
      * intros Hne. destruct (readonly m) as [[|]|]; simpl; congruence.
Qed.

Lemma generateJailFstab_entries_witness :
  exists opts,
    nth_error (generateJailFstab_lines two_mounts) 2
    = Some ("/srv" ++ tab ++ "/usr/local/jails/freeclaw0" ++ "/srv" ++ tab
              ++ "nullfs" ++ tab ++ opts ++ tab ++ "0" ++ tab ++ "0") /\
    (None = Some true -> opts = "ro") /\
    (None <> Some true -> opts = "rw").
Proof.
  destruct (generateJailFstab_entries two_mounts) as (_ & _ & _ & Hn).
  exact (Hn 1%nat (mkMount "/srv" "/srv" None) eq_refl).
Defined.

(** The stanza of [generateJailConf] takes its host name from the
    [hostname] field, fixes [enforce_statfs = 2] and [children.max = 0],
    and has no securelevel line. *)
Lemma generateJailConf_lines_policy (cfg : JailConfig) :
  let lines := generateJailConf_lines cfg in
  nth_error lines 1
  = Some ("    host.hostname = " ++ dq ++ hostname cfg ++ dq ++ ";") /\
  In "    enforce_statfs = 2;" lines /\
  In "    children.max = 0;" lines.
Proof.
  unfold generateJailConf_lines, push.
  destruct (truthy_opt (ip4Addr cfg)), (mounts cfg) as [[|m ms]|];
    simpl; intuition.
Qed.

Lemma resolveDefaultJailConfig_hostname path_join opts :
  hostname (resolveDefaultJailConfig path_join opts)
  = name (resolveDefaultJailConfig path_join opts) ++ ".local".
Proof. reflexivity. Qed.

End JailProps.

(** ** The jail sandbox: arguments of [jail -c] *)

Module SandboxJailProps.
Import Js Eff SandboxJail.

(** The extra parameters as they reach the argument vector. *)
Lemma params_fold (ps : list string) (acc : list string) :
  fold_left param_step ps acc
  = (acc ++ map trim (filter (fun p => truthy (trim p)) ps))%list.
Proof.
  revert acc. induction ps as [|p ps IH]; intros acc; simpl.
  - now rewrite app_nil_r.
  - rewrite IH. unfold param_step, push_args.
    destruct (truthy (trim p)); simpl; [now rewrite <- app_assoc | reflexivity].
Qed.

Lemma buildJailCreateArgs_shape (jailName jailRoot : string) (cfg : SandboxJailConfig) :
  buildJailCreateArgs jailName jailRoot cfg
  = ([ "-c"; ("name=" ++ jailName)%string; ("path=" ++ jailRoot)%string;
       "persist"; ("host.hostname=" ++ jailName)%string ]
     ++ match network cfg with
        | none => ["ip4=disable"; "ip6=disable"]
        | vnet => ["vnet"]
        | inherit => []
        end
     ++ (if readOnlyRoot cfg
         then ["allow.mount=0"; "enforce_statfs=2"]
         else ["allow.mount=1"; "enforce_statfs=1"])
     ++ ["children.max=0"; "securelevel=3"]
     ++ map trim (filter (fun p => truthy (trim p)) (nullish (jailParams cfg) [])))%list.
Proof.
  unfold buildJailCreateArgs. rewrite params_fold. unfold push_args.
  destruct (network cfg), (readOnlyRoot cfg); reflexivity.
Qed.

Lemma regroup {X} (a b c d e : list X) :
  (a ++ b ++ c ++ d ++ e = (a ++ b ++ c) ++ d ++ e)%list.
Proof. now rewrite <- !app_assoc. Qed.

(** C5: whatever the configuration, the arguments contain children.max=0
    and securelevel=3, one after the other. *)
Theorem buildJailCreateArgs_hardening (jailName jailRoot : string)
    (cfg : SandboxJailConfig) :
  In "children.max=0" (buildJailCreateArgs jailName jailRoot cfg) /\
  In "securelevel=3" (buildJailCreateArgs jailName jailRoot cfg) /\
  exists before after,
    buildJailCreateArgs jailName jailRoot cfg
    = (before ++ ["children.max=0"; "securelevel=3"] ++ after)%list.
Proof.
  rewrite buildJailCreateArgs_shape.
  repeat split.
  - rewrite !in_app_iff. simpl. auto 10.
  - rewrite !in_app_iff. simpl. auto 10.
  - eexists _, _. apply regroup.
Qed.

(** C6: the unit is named [jailName] and its host name is set to the same
    string. *)
Theorem buildJailCreateArgs_hostname (jailName jailRoot : string)
    (cfg : SandboxJailConfig) :
  nth_error (buildJailCreateArgs jailName jailRoot cfg) 1
  = Some ("name=" ++ jailName) /\
  nth_error (buildJailCreateArgs jailName jailRoot cfg) 4
  = Some ("host.hostname=" ++ jailName).
Proof. rewrite buildJailCreateArgs_shape. split; reflexivity. Qed.

(** C7: a read-only root yields allow.mount=0 and enforce_statfs=2, any
    other root allow.mount=1 and enforce_statfs=1; the pair sits right
    before children.max=0, and nothing ahead of it sets either parameter. *)
Theorem buildJailCreateArgs_mount_policy (jailName jailRoot : string)
    (cfg : SandboxJailConfig) :
  let args := buildJailCreateArgs jailName jailRoot cfg in
  let policy :=
    if readOnlyRoot cfg
    then ["allow.mount=0"; "enforce_statfs=2"]
    else ["allow.mount=1"; "enforce_statfs=1"] in
  (readOnlyRoot cfg = true ->
     In "allow.mount=0" args /\ In "enforce_statfs=2" args) /\
  (readOnlyRoot cfg = false ->
     In "allow.mount=1" args /\ In "enforce_statfs=1" args) /\
  exists before,
    args = (before ++ policy ++ ["children.max=0"; "securelevel=3"]
              ++ map trim (filter (fun p => truthy (trim p))
                             (nullish (jailParams cfg) [])))%list /\
    forall x, In x before ->
      x <> "allow.mount=0" /\ x <> "allow.mount=1" /\
      x <> "enforce_statfs=1" /\ x <> "enforce_statfs=2".
Proof.
  intros args policy. subst args policy.
  rewrite buildJailCreateArgs_shape.
  split; [|split].
  - intros ->. rewrite !in_app_iff. simpl. auto 10.
  - intros ->. rewrite !in_app_iff. simpl. auto 10.
  - eexists (_ ++ _)%list. split.
    + apply app_assoc.
    + intros x Hx. apply in_app_or in Hx.
      destruct Hx as [Hx|Hx].
      * simpl in Hx. intuition (subst; discriminate).
      * destruct (network cfg); simpl in Hx; intuition (subst; discriminate).
Qed.

Lemma buildJailCreateArgs_mount_policy_witness :
  In "allow.mount=0" (buildJailCreateArgs "oc-abc" "/jails/oc-abc" strict_cfg) /\
  In "enforce_statfs=2" (buildJailCreateArgs "oc-abc" "/jails/oc-abc" strict_cfg).
Proof.
  exact (proj1 (buildJailCreateArgs_mount_policy "oc-abc" "/jails/oc-abc" strict_cfg)
               eq_refl).
Defined.

(** C4: [jailExec] runs one [jexec] command.  When it exits with status 0
    the result is its output with code 0.  When it fails, a caller that set
    [allowFailure] gets the captured output and the exit code as a value,
    and any other caller gets an exception. *)
Theorem jailExec_result {W : Type} (H : Host W) (jailName : string)
    (command : list string) (opts : option JailExecOpts) (st : St unit W)
    (reply : ExecOutput + ErrObj) (w' : W) :
  h_execFile H (world st) (jexec_cmd jailName command opts) = (reply, w') ->
  let run := jailExec H jailName command opts st in
  let call := CallExecFile (jexec_cmd jailName command opts) in
  match reply with
  | inl out =>
      run = (Val (mkExecResult (stdout out) (stderr out) 0), mkSt tt w', [(call, true)])
  | inr e =>
      (flag (opt opts opt_allowFailure) = true ->
         run = (Val (mkExecResult (nullish (e_stdout e) "") (nullish (e_stderr e) "")
                                  (nullish (e_code e) 1%Z)),
                mkSt tt w', [(call, false)])) /\
      (flag (opt opts opt_allowFailure) = false ->
         exists msg, run = (Throw (Error msg), mkSt tt w', [(call, false)]))
  end.
Proof.
  intros Hreply run call. subst run call.
  unfold jailExec, try_catch, bind, execFileAsync, host_call.
  rewrite Hreply. destruct st as [[] w]. destruct reply as [out|e]; simpl.
  - reflexivity.
  - split; intros ->; simpl; [reflexivity | eexists; reflexivity].
Qed.

Lemma jailExec_result_witness :
  exists msg,
    jailExec Zfs.pool_host "oc-abc" ["false"] None (mkSt tt (Zfs.mkPool [] [] []))
    = (Throw (Error msg), mkSt tt (Zfs.mkPool [] [] []),
       [(CallExecFile (jexec_cmd "oc-abc" ["false"] None), false)]).
Proof.
  exact (proj2 (jailExec_result Zfs.pool_host "oc-abc" ["false"] None
                  (mkSt tt (Zfs.mkPool [] [] [])) _ _ eq_refl) eq_refl).
Defined.

End SandboxJailProps.

(** ** zfs.ts: the clone store *)

Module ZfsProps.
Import Js Eff Zfs.

#[local] Arguments includes : simpl never.
#[local] Arguments trim : simpl never.
#[local] Arguments split : simpl never.
#[local] Arguments parentOf : simpl never.
#[local] Arguments sandboxDatasetName : simpl never.
#[local] Arguments workspaceDatasetName : simpl never.
#[local] Arguments baseSnapshotName : simpl never.

Section WithHost.
Context {W : Type} (H : Host W).

(** Running one command: value or thrown error, next host state, one event. *)
Lemma zfs_run (args : list string) (st : State) :
  zfs H args st
  = (match fst (h_execFile H (world st) (zfs_cmd args)) with
     | inl out => Val out
     | inr e => Throw (Obj e)
     end,
     mkSt (vars st) (next H (world st) (zfs_cmd args)),
     [ran (zfs_cmd args) (answers H (world st) (zfs_cmd args))]).
Proof.
  unfold zfs, execFileAsync, host_call, next, answers, ran.
  destruct (h_execFile H (world st) (zfs_cmd args)) as [[out|e] w]; reflexivity.
Qed.

Lemma datasetExists_run (dataset : string) (st : State) :
  datasetExists H dataset st
  = (Val (listed H (world st) dataset),
     mkSt (vars st) (next H (world st) (list_cmd dataset)),
     [ran (list_cmd dataset) (listed H (world st) dataset)]).
Proof.
  unfold datasetExists, try_catch, bind. rewrite zfs_run.
  unfold listed, answers, list_cmd.
  destruct (fst (h_execFile H (world st) _)); reflexivity.
Qed.

Lemma filter_head_true {A} (f : A -> bool) (l : list A) (x : A) (r : list A) :
  filter f l = x :: r -> f x = true.
Proof.
  intros E. assert (Hin : In x (filter f l)) by (rewrite E; now left).
  apply filter_In in Hin. tauto.
Qed.

(** A resolved pool is cached: later calls answer from the cache. *)
Lemma resolveZfsPool_cached (st : State) (pool : string) :
  vars st = Some pool -> truthy pool = true ->
  resolveZfsPool H st = (Val (ZfsOk pool), st, []).
Proof.
  intros Hv Ht. unfold resolveZfsPool, bind, get_vars. rewrite Hv. simpl.
  rewrite Ht. reflexivity.
Qed.

Lemma resolveZfsPool_ok (st st1 : State) (pool : string) (t0 : list Event) :
  resolveZfsPool H st = (Val (ZfsOk pool), st1, t0) ->
  vars st1 = Some pool /\ truthy pool = true /\ mutations t0 = [].
Proof.
  unfold resolveZfsPool, bind, get_vars, try_catch, zpool, execFileAsync, host_call, set_vars.
  destruct (truthy_opt (vars st)) eqn:Hc.
  - simpl. intros E. inversion E; subst. clear E.
    destruct (vars st1) as [p|]; simpl in *; [auto | discriminate].
  - simpl.
    destruct (h_execFile H (world st) _) as [[out|e] w]; simpl.
    + destruct (filter truthy _) as [|first rest] eqn:Hp; simpl.
      * discriminate.
      * intros E. inversion E; subst. clear E. simpl. repeat split.
        destruct (includes "zroot" (first :: rest)); [reflexivity|].
        eapply filter_head_true; eassumption.
    + unfold fail. destruct e; simpl. discriminate.
Qed.

Lemma commands_app (a b : list Event) :
  commands (a ++ b) = (commands a ++ commands b)%list.
Proof.
  induction a as [|[c ok] a IH]; simpl; [reflexivity|].
  destruct c; simpl; now rewrite ?IH.
Qed.

Lemma mutations_app (a b : list Event) :
  mutations (a ++ b) = (mutations a ++ mutations b)%list.
Proof. unfold mutations. now rewrite commands_app, filter_app. Qed.

(** After a resolved pool the sandbox name is built from the cache. *)
Lemma resolveSandboxDatasetName_cached (key : string) (st : State) (pool : string) :
  vars st = Some pool -> truthy pool = true ->
  resolveSandboxDatasetName H key st
  = (Val (ZfsOk (sandboxDatasetName pool key)), st, []).
Proof.
  intros Hv Ht. unfold resolveSandboxDatasetName, bind.
  rewrite (resolveZfsPool_cached st pool Hv Ht). reflexivity.
Qed.

Lemma resolveSandboxDatasetName_ok (key : string) (st st1 : State)
    (pool : string) (t0 : list Event) :
  resolveZfsPool H st = (Val (ZfsOk pool), st1, t0) ->
  resolveSandboxDatasetName H key st
  = (Val (ZfsOk (sandboxDatasetName pool key)), st1, t0).
Proof.
  intros Hpool. unfold resolveSandboxDatasetName, bind. rewrite Hpool.
  simpl. now rewrite app_nil_r.
Qed.

Ltac norm := rewrite ?app_nil_r, <- ?app_assoc; simpl.

(** Case analysis on the answer of the host to the next command. *)
Ltac host_step :=
  match goal with
  | |- context [h_execFile ?h ?w ?c] =>
      is_var w;
      let E := fresh "E" in
      destruct (h_execFile h w c) as [[?|?] ?] eqn:E; simpl in *
  end.

(** C2: destroying a sandbox dataset that [zfs list] does not find issues
    no further command and succeeds; one that is found is removed with the
    single command [zfs destroy -r], whose outcome is the result. *)
Theorem destroySandboxDataset_idempotent (key : string) (st st1 : State)
    (pool : string) (t0 : list Event) :
  resolveZfsPool H st = (Val (ZfsOk pool), st1, t0) ->
  let ds := sandboxDatasetName pool key in
  let w2 := next H (world st1) (list_cmd ds) in
  (listed H (world st1) ds = false ->
     destroySandboxDataset H key st
     = (Val (ZfsOk tt), mkSt (Some pool) w2, (t0 ++ [ran (list_cmd ds) false])%list) /\
     mutations (t0 ++ [ran (list_cmd ds) false]) = []) /\
  (listed H (world st1) ds = true ->
     let destroyed := answers H w2 (destroy_r_cmd ds) in
     exists r,
       destroySandboxDataset H key st
       = (Val r, mkSt (Some pool) (next H w2 (destroy_r_cmd ds)),
          (t0 ++ [ran (list_cmd ds) true; ran (destroy_r_cmd ds) destroyed])%list) /\
       is_ok r = destroyed /\
       (destroyed = true -> r = ZfsOk tt) /\
       mutations (t0 ++ [ran (list_cmd ds) true; ran (destroy_r_cmd ds) destroyed])
       = [destroy_r_cmd ds]).
Proof.
  intros Hpool ds w2.
  destruct (resolveZfsPool_ok _ _ _ _ Hpool) as (Hv & Ht & Hm).
  unfold destroySandboxDataset, resolveSandboxDatasetName, bind.
  rewrite Hpool. simpl. fold ds. rewrite datasetExists_run.
  rewrite Hv. fold w2. split; intros Hl; rewrite Hl; simpl.
  - norm. split; [reflexivity|]. rewrite mutations_app, Hm. reflexivity.
  - unfold try_catch, bind. rewrite zfs_run. simpl.
    fold (destroy_r_cmd ds). unfold answers. norm.
    destruct (fst (h_execFile H w2 (destroy_r_cmd ds))) as [out|e] eqn:E; simpl.
    + eexists. split; [reflexivity|]. repeat split.
      rewrite mutations_app, Hm. reflexivity.
    + eexists. split; [reflexivity|]. split; [reflexivity|].
      split; [discriminate|]. rewrite mutations_app, Hm. reflexivity.
Qed.

(** C1: when [zfs list] finds the sandbox dataset, [cloneForSandbox] and
    [ensureSandboxDataset] return it and run nothing but that query.
    Otherwise [cloneForSandbox] makes sure of the parent: it looks the
    parent up, runs [zfs create -p] on it exactly when it is not found, and
    looks once more when that command fails.  Unless the parent is still
    missing then, it runs [zfs clone] of the base snapshot into the dataset,
    and returns the dataset exactly when the clone command succeeded; with
    the parent still missing it returns an error and does not clone.
    [ensureSandboxDataset] hands over to [cloneForSandbox]. *)
Theorem cloneForSandbox_idempotent (key : string) (st st1 : State)
    (pool : string) (t0 : list Event) :
  resolveZfsPool H st = (Val (ZfsOk pool), st1, t0) ->
  let ds := sandboxDatasetName pool key in
  let parent := parentOf ds in
  let clone := clone_cmd (baseSnapshotName pool) ds in
  let w2 := next H (world st1) (list_cmd ds) in
  (listed H (world st1) ds = true ->
     let t := (t0 ++ [ran (list_cmd ds) true])%list in
     cloneForSandbox H key st = (Val (ZfsOk ds), mkSt (Some pool) w2, t) /\
     ensureSandboxDataset H key st = (Val (ZfsOk ds), mkSt (Some pool) w2, t) /\
     mutations t = []) /\
  (listed H (world st1) ds = false ->
     let w3 := next H w2 (list_cmd parent) in
     let w4 := next H w3 (create_cmd parent) in
     let w5 := next H w4 (list_cmd parent) in
     (* the events of the parent step and the state it leaves, unless the
        parent is still missing after it *)
     let ensured :=
       if listed H w2 parent then
         Some ([ran (list_cmd parent) true], w3)
       else if answers H w3 (create_cmd parent) then
         Some ([ran (list_cmd parent) false; ran (create_cmd parent) true], w4)
       else if listed H w4 parent then
         Some ([ran (list_cmd parent) false; ran (create_cmd parent) false;
                ran (list_cmd parent) true], w5)
       else None in
     match ensured with
     | Some (tp, w6) =>
         let cloned := answers H w6 clone in
         exists r,
           cloneForSandbox H key st
           = (Val r, mkSt (Some pool) (next H w6 clone),
              (t0 ++ ran (list_cmd ds) false :: tp ++ [ran clone cloned])%list) /\
           is_ok r = cloned /\
           (cloned = true -> r = ZfsOk ds) /\
           mutations (tp ++ [ran clone cloned])
           = ((if listed H w2 parent then [] else [create_cmd parent]) ++ [clone])%list
     | None =>
         let tp := [ran (list_cmd parent) false; ran (create_cmd parent) false;
                    ran (list_cmd parent) false] in
         cloneForSandbox H key st
         = (Val (ZfsErr ("Failed to create parent dataset: " ++ parent) None),
            mkSt (Some pool) w5, (t0 ++ ran (list_cmd ds) false :: tp)%list) /\
         mutations tp = [create_cmd parent]
     end) /\
  (listed H (world st1) ds = false ->
     ensureSandboxDataset H key st
     = let '(r, st', t) := cloneForSandbox H key (mkSt (Some pool) w2) in
       (r, st', (t0 ++ ran (list_cmd ds) false :: t)%list)).
Proof.
  intros Hpool ds parent clone w2.
  destruct (resolveZfsPool_ok _ _ _ _ Hpool) as (Hv & Ht & Hm).
  pose proof (resolveSandboxDatasetName_cached key st1 pool Hv Ht) as Hname.
  pose proof (resolveSandboxDatasetName_ok key _ _ _ _ Hpool) as Hname0.
  fold ds in Hname, Hname0.
  split; [|split]; intros Hl.
  - unfold cloneForSandbox, ensureSandboxDataset, bind.
    rewrite Hpool, Hname, Hname0, !datasetExists_run, Hl, Hv. simpl. norm.
    repeat split. rewrite mutations_app, Hm. reflexivity.
  - remember (cloneForSandbox H key st) as run eqn:Hrun.
    unfold cloneForSandbox in Hrun. unfold bind at 1 in Hrun. rewrite Hpool in Hrun.
    unfold bind at 1 in Hrun. rewrite Hname in Hrun. cbv beta iota zeta in Hrun.
    clear Hpool Hname Hname0. destruct st1 as [v1 w1]. simpl in Hv, Hl. subst v1.
    subst w2. simpl world. cbv zeta.
    unfold listed, answers, next, clone, clone_cmd, create_cmd, list_cmd in *.
    fold ds parent in Hrun.
    unfold datasetExists, zfs, execFileAsync, host_call, try_catch, bind, ret
      in Hrun.
    simpl in *.
    repeat (host_step; try discriminate Hl).
    all: rewrite ?app_nil_r, <- ?app_assoc in Hrun; simpl in Hrun; subst run.
    all: try (eexists; split; [reflexivity|]).
    all: unfold mutations, ran, zfs_cmd; simpl; intuition (try congruence).
  - unfold ensureSandboxDataset, bind.
    rewrite Hname0, datasetExists_run, Hl, Hv. fold w2. cbv beta iota.
    destruct (cloneForSandbox H key _) as [[r st'] t].
    reflexivity.
Qed.

Lemma resolveWorkspaceDatasetName_ok (agentId : string) (st st1 : State)
    (pool : string) (t0 : list Event) :
  resolveZfsPool H st = (Val (ZfsOk pool), st1, t0) ->
  resolveWorkspaceDatasetName H agentId st
  = (Val (ZfsOk (workspaceDatasetName pool agentId)), st1, t0).
Proof.
  intros Hpool. unfold resolveWorkspaceDatasetName, bind. rewrite Hpool.
  simpl. now rewrite app_nil_r.
Qed.

(** C3: a dataset that [zfs list] did not find, whose [zfs create] then
    fails, is looked up once more.  If it is found now, the failure of the
    create command is dropped: [ensureWorkspaceDataset] returns the dataset,
    and [cloneForSandbox] goes on to the clone command, whose outcome alone
    decides the result.  If it is still not found, an error is returned;
    and [ensureWorkspaceDataset] returns an error in no other case. *)
Theorem create_race_tolerated (agentId key : string) (st st1 : State)
    (pool : string) (t0 : list Event) :
  resolveZfsPool H st = (Val (ZfsOk pool), st1, t0) ->
  (let ds := workspaceDatasetName pool agentId in
   let create := zfs_cmd ["create"; "-p"; "-o"; "compression=lz4"; ds] in
   let w2 := next H (world st1) (list_cmd ds) in
   let w3 := next H w2 create in
   let w4 := next H w3 (list_cmd ds) in
   (forall e,
      listed H (world st1) ds = false ->
      fst (h_execFile H w2 create) = inr e ->
      (listed H w3 ds = true ->
         ensureWorkspaceDataset H agentId st
         = (Val (ZfsOk ds), mkSt (Some pool) w4,
            (t0 ++ [ran (list_cmd ds) false; ran create false;
                    ran (list_cmd ds) true])%list)) /\
      (listed H w3 ds = false ->
         ensureWorkspaceDataset H agentId st
         = (Val (fail (Obj e) ("Failed to create workspace dataset: " ++ ds)),
            mkSt (Some pool) w4,
            (t0 ++ [ran (list_cmd ds) false; ran create false;
                    ran (list_cmd ds) false])%list))) /\
   (forall r st' t,
      ensureWorkspaceDataset H agentId st = (Val r, st', t) ->
      is_ok r = false ->
      listed H (world st1) ds = false /\ answers H w2 create = false /\
      listed H w3 ds = false)) /\
  (let ds := sandboxDatasetName pool key in
   let parent := parentOf ds in
   let clone := clone_cmd (baseSnapshotName pool) ds in
   let w2 := next H (world st1) (list_cmd ds) in
   let w3 := next H w2 (list_cmd parent) in
   let w4 := next H w3 (create_cmd parent) in
   let w5 := next H w4 (list_cmd parent) in
   listed H (world st1) ds = false ->
   listed H w2 parent = false ->
   answers H w3 (create_cmd parent) = false ->
   (listed H w4 parent = true ->
      exists r,
        cloneForSandbox H key st
        = (Val r, mkSt (Some pool) (next H w5 clone),
           (t0 ++ [ran (list_cmd ds) false; ran (list_cmd parent) false;
                   ran (create_cmd parent) false; ran (list_cmd parent) true;
                   ran clone (answers H w5 clone)])%list) /\
        is_ok r = answers H w5 clone /\
        (answers H w5 clone = true -> r = ZfsOk ds)) /\
   (listed H w4 parent = false ->
      cloneForSandbox H key st
      = (Val (ZfsErr ("Failed to create parent dataset: " ++ parent) None),
         mkSt (Some pool) w5,
         (t0 ++ [ran (list_cmd ds) false; ran (list_cmd parent) false;
                 ran (create_cmd parent) false; ran (list_cmd parent) false])%list))).
Proof.
  intros Hpool.
  destruct (resolveZfsPool_ok _ _ _ _ Hpool) as (Hv & Ht & Hm).
  pose proof (resolveSandboxDatasetName_cached key st1 pool Hv Ht) as Hname.
  pose proof (resolveWorkspaceDatasetName_ok agentId _ _ _ _ Hpool) as Hws.
  destruct st1 as [v1 w1]. simpl in Hv. subst v1. simpl world.
  split; [split|].
  - intros e Hl Hc.
    split; intros Hr; unfold ensureWorkspaceDataset; unfold bind at 1;
      rewrite Hws; cbv beta iota; clear Hpool Hname Hws;
      unfold listed, answers, next, list_cmd, compression in *;
      unfold datasetExists, zfs, execFileAsync, host_call, try_catch, bind, ret;
      simpl in *;
      repeat (host_step; try discriminate);
      rewrite ?app_nil_r, <- ?app_assoc; simpl; unfold ran;
      try reflexivity; inversion Hc; subst; reflexivity.
  - intros r st' t. unfold ensureWorkspaceDataset. unfold bind at 1. rewrite Hws.
    cbv beta iota. clear Hpool Hname Hws.
    unfold listed, answers, next, list_cmd, compression.
    unfold datasetExists, zfs, execFileAsync, host_call, try_catch, bind, ret.
    simpl.
    repeat (host_step; try discriminate).
    all: intros Hrun; inversion Hrun; subst; simpl; intuition discriminate.
  - intros ds parent clone w2 w3 w4 w5 Hl Hp Hc.
    subst ds parent clone w2 w3 w4 w5.
    split; intros Hr; unfold cloneForSandbox; unfold bind at 1;
      rewrite Hpool; unfold bind at 1; rewrite Hname; cbv beta iota;
      clear Hpool Hname Hws;
      unfold listed, answers, next, clone_cmd, create_cmd, list_cmd in *;
      unfold datasetExists, zfs, execFileAsync, host_call, try_catch, bind, ret;
      simpl in *;
      repeat (host_step; try discriminate);
      rewrite ?app_nil_r, <- ?app_assoc; simpl; unfold ran;
      try eexists; repeat split; try reflexivity; try discriminate.
Qed.

Lemma append_assoc (a b c : string) : ((a ++ b) ++ c)%string = (a ++ b ++ c)%string.
Proof. induction a as [|x a IH]; simpl; [reflexivity | now rewrite IH]. Qed.

Lemma createBaseSnapshot_name (pool : string) :
  ((pool ++ "/" ++ baseJailDataset) ++ "@" ++ BASE_SNAPSHOT_LABEL)%string
  = baseSnapshotName pool.
Proof. unfold baseSnapshotName. now rewrite !append_assoc. Qed.

(** The runs of [createBaseSnapshot] once the pool is known. *)
Lemma createBaseSnapshot_run (st st1 : State) (pool : string) (t0 : list Event) :
  resolveZfsPool H st = (Val (ZfsOk pool), st1, t0) ->
  let snap := baseSnapshotName pool in
  let probe := list_snapshot_cmd snap in
  let w2 := next H (world st1) probe in
  let w3 := next H w2 (destroy_cmd snap) in
  let fresh (w : W) (before : list Event) :=
    (Val (match fst (h_execFile H w (snapshot_cmd snap)) with
          | inl _ => ZfsOk snap
          | inr e => fail (Obj e) ("Failed to create base snapshot: " ++ snap)
          end),
     mkSt (Some pool) (next H w (snapshot_cmd snap)),
     (t0 ++ before ++ [ran (snapshot_cmd snap) (answers H w (snapshot_cmd snap))])%list) in
  createBaseSnapshot H st
  = if answers H (world st1) probe then
      if answers H w2 (destroy_cmd snap) then
        fresh w3 [ran probe true; ran (destroy_cmd snap) true]
      else
        (Val (ZfsOk snap), mkSt (Some pool) w3,
         (t0 ++ [ran probe true; ran (destroy_cmd snap) false])%list)
    else fresh w2 [ran probe false].
Proof.
  intros Hpool snap probe w2 w3 fresh.
  destruct (resolveZfsPool_ok _ _ _ _ Hpool) as (Hv & Ht & Hm).
  unfold createBaseSnapshot. unfold bind at 1. rewrite Hpool. cbv beta iota zeta.
  rewrite createBaseSnapshot_name. fold snap.
  destruct st1 as [v1 w1]. simpl in Hv. subst v1.
  subst fresh w3 w2 probe. simpl world.
  unfold answers, next, list_snapshot_cmd, destroy_cmd, snapshot_cmd.
  unfold zfs, execFileAsync, host_call, try_catch, bind, ret. simpl.
  repeat host_step.
  all: rewrite ?app_nil_r, <- ?app_assoc; reflexivity.
Qed.

(** C10: with the pool known, [createBaseSnapshot] never throws.  If the
    snapshot is listed and [zfs destroy] on it fails, the call returns the
    snapshot name and runs nothing else.  [zfs snapshot] is run exactly when
    the snapshot was not listed or was listed and destroyed.  On a host where
    a successful listing or a successful [zfs snapshot] means the snapshot is
    there, and a failed destroy leaves it there, a successful call ends in a
    state where the base snapshot exists. *)
Theorem createBaseSnapshot_safe (present : W -> string -> Prop)
    (st st1 : State) (pool : string) (t0 : list Event) :
  (forall w s, answers H w (list_snapshot_cmd s) = true ->
               present (next H w (list_snapshot_cmd s)) s) ->
  (forall w s, present w s -> answers H w (destroy_cmd s) = false ->
               present (next H w (destroy_cmd s)) s) ->
  (forall w s, answers H w (snapshot_cmd s) = true ->
               present (next H w (snapshot_cmd s)) s) ->
  resolveZfsPool H st = (Val (ZfsOk pool), st1, t0) ->
  let snap := baseSnapshotName pool in
  let probe := list_snapshot_cmd snap in
  let w2 := next H (world st1) probe in
  exists r st' t,
    createBaseSnapshot H st = (Val r, st', (t0 ++ t)%list) /\
    (answers H (world st1) probe = true ->
     answers H w2 (destroy_cmd snap) = false ->
       r = ZfsOk snap /\ t = [ran probe true; ran (destroy_cmd snap) false]) /\
    (In (snapshot_cmd snap) (commands t) <->
       answers H (world st1) probe = false \/
       (answers H (world st1) probe = true /\
        answers H w2 (destroy_cmd snap) = true)) /\
    (is_ok r = true -> r = ZfsOk snap /\ present (world st') snap).
Proof.
  intros Hlist Hkeep Hsnap Hpool snap probe w2.
  rewrite (createBaseSnapshot_run _ _ _ _ Hpool). fold snap probe w2.
  pose proof (Hlist (world st1) snap) as Hl. fold probe w2 in Hl.
  destruct (answers H (world st1) probe) eqn:Ep.
  - pose proof (Hkeep w2 snap (Hl eq_refl)) as Hk.
    destruct (answers H w2 (destroy_cmd snap)) eqn:Ed.
    + pose proof (Hsnap (next H w2 (destroy_cmd snap)) snap) as Hs.
      unfold answers in Hs |- *.
      destruct (fst (h_execFile H _ (snapshot_cmd snap))) as [o|e];
        do 3 eexists; (split; [reflexivity|]); simpl;
        unfold snapshot_cmd, destroy_cmd, zfs_cmd, probe, list_snapshot_cmd;
        intuition (try congruence; try discriminate).
    + do 3 eexists. split; [reflexivity|]. simpl.
      unfold snapshot_cmd, destroy_cmd, zfs_cmd, probe, list_snapshot_cmd.
      intuition (try congruence; try discriminate).
  - pose proof (Hsnap w2 snap) as Hs.
    unfold answers in Hs |- *.
    destruct (fst (h_execFile H _ (snapshot_cmd snap))) as [o|e];
      do 3 eexists; (split; [reflexivity|]); simpl;
      unfold snapshot_cmd, destroy_cmd, zfs_cmd, probe, list_snapshot_cmd;
      intuition (try congruence; try discriminate).
Qed.

End WithHost.


(** *** Runs on the small pool *)

Lemma pool_listing_present (w : Pool) (s : string) :
  answers pool_host w (list_snapshot_cmd s) = true ->
  mem s (names (next pool_host w (list_snapshot_cmd s))) = true.
Proof.
  unfold answers, next, list_snapshot_cmd, zfs_cmd. simpl. unfold pool_execFile, zfs_reply. simpl. unfold refused.
  destruct (mem s (names w)) eqn:E; simpl; [auto | discriminate].
Qed.

Lemma pool_failed_destroy_keeps (w : Pool) (s : string) :
  mem s (names w) = true ->
  answers pool_host w (destroy_cmd s) = false ->
  mem s (names (next pool_host w (destroy_cmd s))) = true.
Proof.
  unfold answers, next, destroy_cmd, zfs_cmd. simpl. unfold pool_execFile, zfs_reply. simpl. unfold refused, done. intros Hin.
  destruct (mem s (pinned w) || negb (mem s (names w))); simpl;
    [auto | discriminate].
Qed.

Lemma pool_snapshot_present (w : Pool) (s : string) :
  answers pool_host w (snapshot_cmd s) = true ->
  mem s (names (next pool_host w (snapshot_cmd s))) = true.
Proof.
  unfold answers, next, snapshot_cmd, zfs_cmd. simpl. unfold pool_execFile, zfs_reply. simpl. unfold refused, done.
  destruct (mem s (names w)) eqn:E; simpl; [discriminate|].
  intros _. unfold mem. simpl. now rewrite String.eqb_refl.
Qed.

Lemma cloneForSandbox_idempotent_witness :
  cloneForSandbox pool_host "abc" cloned_pool
  = (Val (ZfsOk "zroot/freeclaw/sandboxes/abc"), mkSt (Some "zroot") (world cloned_pool),
     [ran (zpool_cmd ["list"; "-H"; "-o"; "name"]) true;
      ran (list_cmd "zroot/freeclaw/sandboxes/abc") true]) /\
  cloneForSandbox pool_host "abc" empty_pool
  = (Val (ZfsOk "zroot/freeclaw/sandboxes/abc"),
     mkSt (Some "zroot")
       (mkPool ["zroot/freeclaw/sandboxes/abc"; "zroot/freeclaw/sandboxes";
                "zroot/freeclaw/base-jail@freeclaw-base"]
               ["zroot/freeclaw/base-jail@freeclaw-base"] []),
     [ran (zpool_cmd ["list"; "-H"; "-o"; "name"]) true;
      ran (list_cmd "zroot/freeclaw/sandboxes/abc") false;
      ran (list_cmd "zroot/freeclaw/sandboxes") false;
      ran (create_cmd "zroot/freeclaw/sandboxes") true;
      ran (clone_cmd "zroot/freeclaw/base-jail@freeclaw-base"
             "zroot/freeclaw/sandboxes/abc") true]).
Proof.
  split.
  - exact (proj1 (proj1 (cloneForSandbox_idempotent pool_host "abc" cloned_pool
                           (mkSt (Some "zroot") (world cloned_pool)) "zroot"
                           [ran (zpool_cmd ["list"; "-H"; "-o"; "name"]) true]
                           eq_refl) eq_refl)).
  - destruct (proj1 (proj2 (cloneForSandbox_idempotent pool_host "abc" empty_pool
                              (mkSt (Some "zroot") (world empty_pool)) "zroot"
                              [ran (zpool_cmd ["list"; "-H"; "-o"; "name"]) true]
                              eq_refl)) eq_refl)
      as (r & Hrun & _ & Hr & _).
    rewrite (Hr eq_refl) in Hrun. exact Hrun.
Defined.

Lemma destroySandboxDataset_idempotent_witness :
  destroySandboxDataset pool_host "abc" empty_pool
  = (Val (ZfsOk tt), mkSt (Some "zroot") (world empty_pool),
     [ran (zpool_cmd ["list"; "-H"; "-o"; "name"]) true;
      ran (list_cmd "zroot/freeclaw/sandboxes/abc") false]).
Proof.
  exact (proj1 (proj1 (destroySandboxDataset_idempotent pool_host "abc" empty_pool
                         (mkSt (Some "zroot") (world empty_pool)) "zroot"
                         [ran (zpool_cmd ["list"; "-H"; "-o"; "name"]) true]
                         eq_refl) eq_refl)).
Defined.

Lemma create_race_tolerated_witness :
  ensureWorkspaceDataset pool_host "main" raced_pool
  = (Val (ZfsOk "zroot/freeclaw/workspaces/main"),
     mkSt (Some "zroot") (mkPool ["zroot/freeclaw/workspaces/main"] [] []),
     [ran (zpool_cmd ["list"; "-H"; "-o"; "name"]) true;
      ran (list_cmd "zroot/freeclaw/workspaces/main") false;
      ran (zfs_cmd ["create"; "-p"; "-o"; "compression=lz4";
                    "zroot/freeclaw/workspaces/main"]) false;
      ran (list_cmd "zroot/freeclaw/workspaces/main") true]) /\
  fst (fst (cloneForSandbox pool_host "abc" raced_parent_pool))
  = Val (ZfsOk "zroot/freeclaw/sandboxes/abc").
Proof.
  split.
  - exact (proj1 (proj1 (proj1 (create_race_tolerated pool_host "main" "abc" raced_pool
                                  (mkSt (Some "zroot") (world raced_pool)) "zroot"
                                  [ran (zpool_cmd ["list"; "-H"; "-o"; "name"]) true]
                                  eq_refl))
                        (mkErr (Some "Command failed") (Some "dataset already exists")
                               (Some "") (Some 1%Z))
                        eq_refl eq_refl) eq_refl).
  - destruct (proj1 (proj2 (create_race_tolerated pool_host "main" "abc"
                              raced_parent_pool
                              (mkSt (Some "zroot") (world raced_parent_pool)) "zroot"
                              [ran (zpool_cmd ["list"; "-H"; "-o"; "name"]) true]
                              eq_refl)
                           eq_refl eq_refl eq_refl) eq_refl)
      as (r & Hrun & _ & Hr).
    rewrite Hrun. simpl. now rewrite (Hr eq_refl).
Defined.

Lemma createBaseSnapshot_safe_witness :
  exists r st' t,
    createBaseSnapshot pool_host cloned_pool
    = (Val r, st', ([ran (zpool_cmd ["list"; "-H"; "-o"; "name"]) true] ++ t)%list) /\
    (is_ok r = true ->
     r = ZfsOk "zroot/freeclaw/base-jail@freeclaw-base" /\
     mem "zroot/freeclaw/base-jail@freeclaw-base" (names (world st')) = true).
Proof.
  destruct (createBaseSnapshot_safe pool_host
              (fun w s => mem s (names w) = true)
              cloned_pool (mkSt (Some "zroot") (world cloned_pool)) "zroot"
              [ran (zpool_cmd ["list"; "-H"; "-o"; "name"]) true]
              pool_listing_present pool_failed_destroy_keeps pool_snapshot_present
              eq_refl)
    as (r & st' & t & Hrun & _ & _ & Hok).
  exists r, st', t. split; [exact Hrun | exact Hok].
Defined.

(** Cloning twice: the second call only queries. *)
Example cloneForSandbox_twice :
  let '(_, st1, _) := cloneForSandbox pool_host "abc" empty_pool in
  let '(r, st2, t) := cloneForSandbox pool_host "abc" st1 in
  r = Val (ZfsOk "zroot/freeclaw/sandboxes/abc") /\ st2 = st1 /\ mutations t = [].
Proof. vm_compute. repeat split. Qed.

(** Clone, then destroy, then destroy again. *)
Example destroySandboxDataset_twice :
  let '(_, st1, _) := cloneForSandbox pool_host "abc" empty_pool in
  let '(r2, st2, t2) := destroySandboxDataset pool_host "abc" st1 in
  let '(r3, st3, t3) := destroySandboxDataset pool_host "abc" st2 in
  r2 = Val (ZfsOk tt) /\
  mutations t2 = [destroy_r_cmd "zroot/freeclaw/sandboxes/abc"] /\
  r3 = Val (ZfsOk tt) /\ mutations t3 = [] /\ st3 = st2.
Proof. vm_compute. repeat split. Qed.

(** With a clone depending on it the base snapshot is kept and reused. *)
Example createBaseSnapshot_with_clone :
  let '(r, st', t) := createBaseSnapshot pool_host cloned_pool in
  r = Val (ZfsOk "zroot/freeclaw/base-jail@freeclaw-base") /\
  world st' = world cloned_pool /\
  mutations t = [destroy_cmd "zroot/freeclaw/base-jail@freeclaw-base"].
Proof. vm_compute. repeat split. Qed.

End ZfsProps.

(** ** The Capsicum launcher *)

Module CapsicumProps.
Import Js Eff Capsicum.

#[local] Arguments trim : simpl never.
#[local] Arguments show : simpl never.
#[local] Arguments String.eqb : simpl never.
#[local] Arguments append : simpl never.

(** Case analysis on the answer of the host to the next call. *)
Ltac cap_step :=
  match goal with
  | |- context [h_execSync ?h ?w ?a ?b] =>
      is_var w; destruct (h_execSync h w a b) as [[?|?] ?] eqn:?; simpl in *
  | |- context [h_existsSync ?h ?w ?p] =>
      is_var w; destruct (h_existsSync h w p) eqn:?; simpl in *
  | |- context [h_mkdirSync ?h ?w ?p] =>
      is_var w; destruct (h_mkdirSync h w p) as [[?|?] ?] eqn:?; simpl in *
  | |- context [h_writeFile ?h ?w ?p ?c] =>
      is_var w; destruct (h_writeFile h w p c) as [[?|?] ?] eqn:?; simpl in *
  | |- context [h_execFile ?h ?w ?c] =>
      is_var w; destruct (h_execFile h w c) as [[?|?] ?] eqn:?; simpl in *
  | |- context [h_chmod ?h ?w ?p ?m] =>
      is_var w; destruct (h_chmod h w p m) as [[?|?] ?] eqn:?; simpl in *
  | |- context [h_unlink ?h ?w ?p] =>
      is_var w; destruct (h_unlink h w p) as [[?|?] ?] eqn:?; simpl in *
  end.

Section WithHost.
Context {W : Type} (H : Host W) (K : Constants).

(** C9: [buildCapsicumLauncher] never throws.  When [isCapsicumAvailable]
    answers false, or [generateCapHelper] yields no helper, it returns
    /bin/sh -c command with [sandboxed] false.  That is the outcome in
    particular when the platform is not FreeBSD or sysctl fails or prints
    something other than 1 (kernel without Capsicum), and when the compiler
    run of this call fails. *)
Theorem buildCapsicumLauncher_fallback (command workdir : string)
    (policy : option CapsicumPolicy) (st : CapState) :
  (exists l st' t,
     buildCapsicumLauncher H K command workdir policy st = (Val l, st', t) /\
     (In (ran (cc_cmd K) false) t ->
        l = mkLauncher ["/bin/sh"; "-c"; command] false) /\
     (capsicumAvailable (vars st) = None ->
      IS_FREEBSD K
        && match fst (h_execSync H (world st) sysctl 3000) with
           | inl out => String.eqb (trim out) "1"
           | inr _ => false
           end = false ->
        l = mkLauncher ["/bin/sh"; "-c"; command] false)) /\
  (forall st1 t1,
     isCapsicumAvailable H K st = (Val false, st1, t1) ->
     buildCapsicumLauncher H K command workdir policy st
     = (Val (mkLauncher ["/bin/sh"; "-c"; command] false), st1, t1)) /\
  (forall st1 t1 st2 t2,
     isCapsicumAvailable H K st = (Val true, st1, t1) ->
     generateCapHelper H K st1 = (Val None, st2, t2) ->
     exists warning,
       buildCapsicumLauncher H K command workdir policy st
       = (Val (mkLauncher ["/bin/sh"; "-c"; command] false), st2,
          (t1 ++ t2 ++ [(CallLog Warn warning, true)])%list)).
Proof.
  split; [|split].
  - destruct st as [[avail ready] w].
    unfold Capsicum.buildCapsicumLauncher, Capsicum.isCapsicumAvailable,
      Capsicum.generateCapHelper, Capsicum.cc_cmd, unwrapped,
      set_capsicumAvailable, set_capHelperReady, logWarn, logInfo, log,
      execSync, existsSync, mkdirSync, writeFile, chmod, unlink, execFileAsync,
      host_call, try_catch, bind, ret, get_vars, set_vars, sysctl, ran.
    simpl.
    destruct K as [isFreebsd binDir capExecBin capExecSrc source]. simpl.
    destruct avail as [[|]|], ready, isFreebsd; simpl.
    all: repeat first
           [ cap_step
           | match goal with
             | |- context [String.eqb ?a ?b] =>
                 destruct (String.eqb a b) eqn:?; simpl in *
             | |- context [truthy ?a] => destruct (truthy a) eqn:?; simpl in *
             end ].
    all: do 3 eexists; (split; [reflexivity|]).
    all: split; intros; try reflexivity; try discriminate; simpl in *.
    all: repeat match goal with
                | Hin : _ \/ _ |- _ => destruct Hin as [Hin|Hin]; try discriminate
                | Hin : False |- _ => destruct Hin
                end.
    all: try congruence.
  - intros st1 t1 Hav. unfold Capsicum.buildCapsicumLauncher, bind.
    rewrite Hav. simpl. now rewrite app_nil_r.
  - intros st1 t1 st2 t2 Hav Hgen. unfold Capsicum.buildCapsicumLauncher, bind.
    rewrite Hav. simpl. rewrite Hgen. simpl. eexists. reflexivity.
Qed.

(** [capsicumExec] settles on what its listeners see: whatever code the
    child closes with is handed back in the result, and the function has no
    option that would turn a non-zero code into an error. *)
Lemma capsicumExec_exit_code_is_data (command workdir : string)
    (policy : option CapsicumPolicy) (child : list ChildEvent) (st : CapState) :
  exists l st' t,
    capsicumExec H K command workdir policy child st
    = (Val (settle (sandboxed l) child [] []), st', t) /\
    forall code rest,
      child = CloseEvent code :: rest ->
      settle (sandboxed l) child [] []
      = Some (mkCapsicumExecResult "" "" code (sandboxed l)).
Proof.
  destruct (buildCapsicumLauncher_fallback command workdir policy st)
    as ((l & st' & t & Hrun & _) & _).
  exists l, st', t. split.
  - unfold Capsicum.capsicumExec, bind. rewrite Hrun. simpl. now rewrite app_nil_r.
  - intros code rest ->. reflexivity.
Qed.

End WithHost.

(** *** Runs of the launcher *)

Lemma buildCapsicumLauncher_fallback_witness :
  buildCapsicumLauncher (bare_host false true) freebsd "ls -l" "/workspace" None fresh
  = (Val (mkLauncher ["/bin/sh"; "-c"; "ls -l"] false),
     mkSt (mkVars (Some false) false) tt,
     [(CallExecSync sysctl 3000, true);
      (CallLog Warn
         ("capsicum: Capsicum capability mode is not available on this kernel. "
            ++ "Commands will run without Capsicum sandboxing."), true)]).
Proof.
  exact (proj1 (proj2 (buildCapsicumLauncher_fallback (bare_host false true) freebsd
                         "ls -l" "/workspace" None fresh))
               _ _ eq_refl).
Defined.

(** With Capsicum in the kernel and a working compiler the command is
    wrapped; with a failing compiler it is not. *)
Example launcher_wrapped :
  fst (fst (buildCapsicumLauncher (bare_host true true) freebsd "ls" "/w" None fresh))
  = Val (mkLauncher ["/root/.freeclaw/bin/freeclaw-cap-exec"; "/w"; "0";
                     "/bin/sh"; "-c"; "ls"] true).
Proof. reflexivity. Qed.

Example launcher_unwrapped_without_compiler :
  fst (fst (buildCapsicumLauncher (bare_host true false) freebsd "ls" "/w" None fresh))
  = Val (mkLauncher ["/bin/sh"; "-c"; "ls"] false).
Proof. reflexivity. Qed.

End CapsicumProps.

(** ** The jail sandbox: names, limits, mounts, lifecycle *)

Module SandboxOpsProps.
Import Js Eff SandboxJail SandboxOps.

(** *** Jail names *)

Lemma str_app_assoc (a b c : string) : ((a ++ b) ++ c)%string = (a ++ b ++ c)%string.
Proof. induction a as [|x a IH]; simpl; [reflexivity | now rewrite IH]. Qed.

Lemma append_empty (s : string) : (s ++ "")%string = s.
Proof. induction s as [|c s IH]; simpl; [reflexivity | now rewrite IH]. Qed.

Lemma substring0_length (s : string) (n : nat) :
  (String.length (String.substring 0 n s) <= n)%nat.
Proof.
  revert s. induction n as [|n IH]; intros [|c s]; simpl; try lia.
  specialize (IH s). lia.
Qed.

Lemma substring0_all (s : string) (n : nat) :
  (String.length s <= n)%nat -> String.substring 0 n s = s.
Proof.
  revert s. induction n as [|n IH]; intros [|c s]; simpl; intros Hl;
    try reflexivity; try lia.
  rewrite IH by lia. reflexivity.
Qed.

Lemma sanitize_length (s : string) : String.length (sanitize s) = String.length s.
Proof. induction s as [|c s IH]; simpl; congruence. Qed.

Lemma sanitize_safe (s : string) : all_chars name_char (sanitize s) = true.
Proof.
  induction s as [|c s IH]; simpl; [reflexivity|].
  rewrite IH. destruct (name_char c) eqn:E; [now rewrite E | reflexivity].
Qed.

Lemma sanitize_id (s : string) : all_chars name_char s = true -> sanitize s = s.
Proof.
  induction s as [|c s IH]; simpl; [reflexivity|].
  intros Hc. apply andb_prop in Hc as [Hc Hs]. now rewrite Hc, IH.
Qed.

(** X1: the jail name is at most 64 characters long and consists of
    letters, digits, dot, underscore and dash only; a prefix and slug that
    already fit are used as they are. *)
Theorem jailNameOf_safe (jailPrefix slug : string) :
  (String.length (jailNameOf jailPrefix slug) <= 64)%nat /\
  all_chars name_char (jailNameOf jailPrefix slug) = true /\
  sanitize (jailNameOf jailPrefix slug) = jailNameOf jailPrefix slug /\
  ((String.length (jailPrefix ++ slug) <= 64)%nat ->
   all_chars name_char (jailPrefix ++ slug) = true ->
   jailNameOf jailPrefix slug = jailPrefix ++ slug).
Proof.
  unfold jailNameOf, substring0. change (Z.to_nat 64) with 64%nat.
  repeat split.
  - rewrite sanitize_length. apply substring0_length.
  - apply sanitize_safe.
  - apply sanitize_id, sanitize_safe.
  - intros Hl Hc. rewrite substring0_all by exact Hl. now apply sanitize_id.
Qed.

Lemma jailNameOf_safe_witness :
  jailNameOf "oc-" "agent-main" = "oc-agent-main".
Proof.
  exact (proj2 (proj2 (proj2 (jailNameOf_safe "oc-" "agent-main"))) 
               ltac:(vm_compute; lia) eq_refl).
Defined.

(** *** Resource-limit rules *)

(** The rule text for a resource and value. *)
Lemma add_eq (n : string) (rules : list string) (resource : string) (v : Z) :
  add n rules resource "deny" v
  = (rules ++ [("jail:" ++ n ++ ":" ++ resource ++ ":deny=" ++ of_Z v)%string])%list.
Proof. reflexivity. Qed.

Lemma limit_eq (n : string) (test : Z -> bool) (field : option Z)
    (resource : string) (rules : list string) :
  limit n test field resource rules
  = (rules ++ match field with
              | Some v =>
                  if test v
                  then [("jail:" ++ n ++ ":" ++ resource ++ ":deny=" ++ of_Z v)%string]
                  else []
              | None => []
              end)%list.
Proof.
  unfold limit. destruct field as [v|]; [destruct (test v)|];
    now rewrite ?add_eq, ?app_nil_r.
Qed.

Lemma in_limit (r n : string) (test : Z -> bool) (field : option Z)
    (resource : string) :
  In r match field with
       | Some v =>
           if test v
           then [("jail:" ++ n ++ ":" ++ resource ++ ":deny=" ++ of_Z v)%string]
           else []
       | None => []
       end
  <-> exists v, field = Some v /\ test v = true /\
                r = "jail:" ++ n ++ ":" ++ resource ++ ":deny=" ++ of_Z v.
Proof.
  destruct field as [v|]; [destruct (test v) eqn:Et|]; simpl; split.
  - intros [<-|[]]. eauto.
  - intros (v' & Ev & _ & ->). inversion Ev; subst. now left.
  - intros [].
  - intros (v' & Ev & Et' & _). inversion Ev; subst. congruence.
  - intros [].
  - intros (v' & Ev & _). discriminate.
Qed.

Lemma extras_fold (n : string) (raws rules : list string) :
  fold_left (extra_step n) raws rules
  = (rules ++ map trim (filter (fun r => truthy (trim r))
                          (map (fun raw => replaceName raw n) raws)))%list.
Proof.
  revert rules. induction raws as [|raw raws IH]; intros rules; simpl.
  - now rewrite app_nil_r.
  - rewrite IH. unfold extra_step.
    destruct (truthy (trim (replaceName raw n))); simpl;
      [now rewrite <- app_assoc | reflexivity].
Qed.

(** X2: without extra rules the rule list holds exactly one deny rule,
    scoped to the jail, for each of maxproc, memoryuse, vmemoryuse, pcpu and
    openfiles that is set and positive, and one for coredumpsize when it is
    set and not negative: a coredumpsize of zero is a rule, any other zero
    limit is none. *)
Theorem buildRctlRules_limits (jailName : string) (cfg : SandboxJailConfig) :
  nullish (extraRctlRules cfg) [] = [] ->
  forall r,
    In r (buildRctlRules jailName cfg) <->
    exists resource v,
      r = "jail:" ++ jailName ++ ":" ++ resource ++ ":deny=" ++ of_Z v /\
      ((resource = "maxproc" /\ maxProc cfg = Some v /\ (0 < v)%Z) \/
       (resource = "memoryuse" /\ memoryuse cfg = Some v /\ (0 < v)%Z) \/
       (resource = "vmemoryuse" /\ vmemoryuse cfg = Some v /\ (0 < v)%Z) \/
       (resource = "pcpu" /\ pcpu cfg = Some v /\ (0 < v)%Z) \/
       (resource = "openfiles" /\ openfiles cfg = Some v /\ (0 < v)%Z) \/
       (resource = "coredumpsize" /\ coredumpsize cfg = Some v /\ (0 <= v)%Z)).
Proof.
  intros Hx r. unfold buildRctlRules. rewrite Hx. simpl fold_left.
  rewrite !limit_eq.
  rewrite !in_app_iff, !in_limit.
  split.
  - intros Hin.
    repeat match goal with
           | Hin : _ \/ _ |- _ => destruct Hin as [Hin|Hin]
           end;
      [destruct Hin|..];
      destruct Hin as (v & Ef & Et & ->);
      (apply Z.ltb_lt in Et || apply Z.leb_le in Et);
      eexists _, v; (split; [reflexivity|]); tauto.
  - intros (resource & v & -> & Hcase).
    destruct Hcase as [(-> & Ef & Hv)|[(-> & Ef & Hv)|[(-> & Ef & Hv)|
                      [(-> & Ef & Hv)|[(-> & Ef & Hv)|(-> & Ef & Hv)]]]]];
      (apply Z.ltb_lt in Hv || apply Z.leb_le in Hv);
      eauto 12.
Qed.

Lemma buildRctlRules_limits_witness :
  In "jail:oc-abc:coredumpsize:deny=0" (buildRctlRules "oc-abc" quota_cfg) /\
  ~ In "jail:oc-abc:memoryuse:deny=0" (buildRctlRules "oc-abc" quota_cfg).
Proof.
  split.
  - apply (proj2 (buildRctlRules_limits "oc-abc" quota_cfg eq_refl _)).
    exists "coredumpsize", 0%Z. split; [reflexivity|].
    do 5 right. repeat split. lia.
  - intros Hin.
    apply (proj1 (buildRctlRules_limits "oc-abc" quota_cfg eq_refl _)) in Hin.
    destruct Hin as (resource & v & Hr & Hcase).
    destruct Hcase as [(-> & Ef & Hv)|[(-> & Ef & Hv)|[(-> & Ef & Hv)|
                      [(-> & Ef & Hv)|[(-> & Ef & Hv)|(-> & Ef & Hv)]]]]];
      simpl in Ef; try discriminate; inversion Ef; subst; try lia;
      vm_compute in Hr; discriminate.
Defined.

(** *** Trimming *)

Lemma trimEnd_idem (s : string) : trimEnd (trimEnd s) = trimEnd s.
Proof.
  induction s as [|c r IH]; simpl; [reflexivity|].
  destruct (trimEnd r) as [|d r'] eqn:E.
  - destruct (is_ws c) eqn:Ec; simpl; [reflexivity | now rewrite Ec].
  - remember (String d r') as u eqn:Eu. cbn [trimEnd]. rewrite IH.
    subst u. reflexivity.
Qed.

(** A string that starts with a visible character. *)
Lemma trimEnd_head (c : ascii) (r : string) :
  is_ws c = false -> exists r', trimEnd (String c r) = String c r'.
Proof.
  intros Hc. simpl. destruct (trimEnd r); rewrite ?Hc; eauto.
Qed.

Lemma trimStart_head (s : string) :
  trimStart s = "" \/ exists c r, trimStart s = String c r /\ is_ws c = false.
Proof.
  induction s as [|c r IH]; simpl; [now left|].
  destruct (is_ws c) eqn:Ec; [exact IH | right; eauto].
Qed.

Lemma trim_idem (s : string) : trim (trim s) = trim s.
Proof.
  unfold trim. destruct (trimStart_head s) as [->|(c & r & -> & Hc)].
  - reflexivity.
  - destruct (trimEnd_head c r Hc) as (r' & E). rewrite E.
    simpl trimStart. rewrite Hc. rewrite <- E. apply trimEnd_idem.
Qed.

(** *** Substituting the jail name *)

Lemma expand_plain (t matched before after : string) :
  all_chars (fun c => negb (Ascii.eqb c "$")) t = true ->
  expand t matched before after = t.
Proof.
  induction t as [|c t IH]; simpl; [reflexivity|].
  intros Hc. apply andb_prop in Hc as [Hc Ht].
  apply negb_true_iff in Hc. rewrite Hc, IH by exact Ht. reflexivity.
Qed.

Lemma name_char_plain (n : string) :
  all_chars name_char n = true ->
  all_chars (fun c => negb (Ascii.eqb c "$")) n = true.
Proof.
  induction n as [|c n IH]; simpl; [reflexivity|].
  intros Hc. apply andb_prop in Hc as [Hc Hn]. rewrite IH by exact Hn.
  destruct (Ascii.eqb_spec c "$"); [subst; discriminate Hc | reflexivity].
Qed.

Lemma replaceName_go_before (n s : string) (k : nat) (b1 b2 : string) :
  all_chars (fun c => negb (Ascii.eqb c "$")) n = true ->
  replaceName_go n s k b1 = replaceName_go n s k b2.
Proof.
  intros Hn. revert k b1 b2.
  induction s as [|c r IH]; intros k b1 b2; [reflexivity|].
  cbn [replaceName_go]. destruct k as [|k].
  - destruct (String.prefix "{name}" (String c r)).
    + rewrite !expand_plain by exact Hn. f_equal. apply IH.
    + f_equal. apply IH.
  - apply IH.
Qed.

Lemma replaceName_go_skip (n x post b : string) :
  replaceName_go n (x ++ post) (String.length x) b
  = replaceName_go n post 0 (b ++ x).
Proof.
  revert b. induction x as [|c x IH]; intros b.
  - simpl. now rewrite append_empty.
  - cbn [append String.length replaceName_go]. rewrite IH.
    now rewrite str_app_assoc.
Qed.

Lemma prefix_cons_neq (a c : ascii) (p s : string) :
  a <> c -> String.prefix (String a p) (String c s) = false.
Proof.
  intros Hne. cbn [String.prefix].
  destruct (ascii_dec a c); [contradiction | reflexivity].
Qed.

Lemma prefix_app (p s : string) : String.prefix p (p ++ s) = true.
Proof.
  induction p as [|a p IH]; [destruct s; reflexivity|].
  cbn [append String.prefix]. destruct (ascii_dec a a); [exact IH | contradiction].
Qed.

Lemma replaceName_go_pre (n pre rest b : string) :
  all_chars (fun c => negb (Ascii.eqb c "{")) pre = true ->
  replaceName_go n (pre ++ rest) 0 b
  = pre ++ replaceName_go n rest 0 (b ++ pre).
Proof.
  revert b. induction pre as [|c pre IH]; intros b Hp.
  - simpl. now rewrite append_empty.
  - simpl in Hp. apply andb_prop in Hp as [Hc Hp].
    apply negb_true_iff in Hc.
    cbn [append replaceName_go].
    rewrite prefix_cons_neq.
    + rewrite IH by exact Hp. now rewrite str_app_assoc.
    + intros <-. discriminate Hc.
Qed.

(** X3: the extra rules follow the numeric ones, each with surrounding
    blanks removed and none of them empty.  For a jail name of letters,
    digits, dot, underscore and dash, the first {name} of a rule is replaced
    by the name itself, and so on through the rest of the rule. *)
Theorem buildRctlRules_extra_rules (jailName : string) (cfg : SandboxJailConfig) :
  let extras :=
    map trim (filter (fun r => truthy (trim r))
                (map (fun raw => replaceName raw jailName)
                   (nullish (extraRctlRules cfg) []))) in
  (exists numeric,
     buildRctlRules jailName cfg = (numeric ++ extras)%list /\
     (List.length numeric <= 6)%nat) /\
  (List.length extras <= List.length (nullish (extraRctlRules cfg) []))%nat /\
  Forall (fun e => e <> "" /\ trim e = e) extras /\
  (all_chars name_char jailName = true ->
   forall pre post,
     all_chars (fun c => negb (Ascii.eqb c "{")) pre = true ->
     replaceName (pre ++ "{name}" ++ post) jailName
     = pre ++ jailName ++ replaceName post jailName).
Proof.
  intros extras. repeat split.
  - unfold buildRctlRules. rewrite extras_fold. fold extras.
    eexists. split; [reflexivity|]. rewrite !limit_eq.
    rewrite !length_app.
    destruct (maxProc cfg) as [v1|], (memoryuse cfg) as [v2|],
      (vmemoryuse cfg) as [v3|], (pcpu cfg) as [v4|], (openfiles cfg) as [v5|],
      (coredumpsize cfg) as [v6|];
      repeat match goal with
             | |- context [if ?b then _ else _] => destruct b
             end; simpl; lia.
  - subst extras. rewrite length_map.
    etransitivity; [apply filter_length_le|]. now rewrite length_map.
  - subst extras. apply Forall_forall. intros e He.
    apply in_map_iff in He as (r & <- & Hr). apply filter_In in Hr as [_ Hr].
    split; [|apply trim_idem].
    intros E. rewrite E in Hr. discriminate.
  - intros Hn pre post Hpre. unfold replaceName.
    pose proof (name_char_plain _ Hn) as Hd.
    rewrite replaceName_go_pre by exact Hpre. f_equal.
    change ("{name}" ++ post) with (String "{" ("name}" ++ post)).
    cbn [replaceName_go].
    change (String "{" ("name}" ++ post)) with ("{name}" ++ post) at 1.
    rewrite prefix_app.
    rewrite expand_plain by exact Hd. f_equal.
    rewrite (replaceName_go_skip jailName "name}" post).
    apply replaceName_go_before, Hd.
Qed.

Lemma buildRctlRules_extra_rules_witness :
  replaceName ("jail:" ++ "{name}" ++ ":wallclock:deny=3600") "oc-abc"
  = "jail:" ++ "oc-abc" ++ replaceName ":wallclock:deny=3600" "oc-abc".
Proof.
  exact (proj2 (proj2 (proj2 (buildRctlRules_extra_rules "oc-abc" limits_cfg)))
               eq_refl "jail:" ":wallclock:deny=3600" eq_refl).
Defined.

(** *** The order of unmounting *)

Lemma compare_refl (a : string) : String_as_OT.compare a a = Eq.
Proof.
  destruct (String_as_OT.compare_spec a a) as [_|Hlt|Hlt]; [reflexivity| |];
    exfalso; revert Hlt; apply (StrictOrder_Irreflexive (R:=String_as_OT.lt)).
Qed.

Lemma str_le_refl (a : string) : str_le a a = true.
Proof. unfold str_le. now rewrite compare_refl. Qed.

Lemma str_le_lt (a b : string) : str_le a b = false -> String_as_OT.lt b a.
Proof.
  unfold str_le.
  destruct (String_as_OT.compare_spec a b); intros E; try discriminate; assumption.
Qed.

Lemma str_le_total (a b : string) : str_le a b = false -> str_le b a = true.
Proof.
  intros E. apply str_le_lt in E. unfold str_le. now rewrite E.
Qed.

Lemma str_le_trans (a b c : string) :
  str_le a b = true -> str_le b c = true -> str_le a c = true.
Proof.
  unfold str_le.
  destruct (String_as_OT.compare_spec a b) as [->|Hab|Hab]; intros E1; try discriminate;
    [tauto|].
  destruct (String_as_OT.compare_spec b c) as [<-|Hbc|Hbc]; intros E2; try discriminate.
  - now rewrite Hab.
  - assert (Hac : String_as_OT.lt a c) by (etransitivity; eassumption).
    now rewrite Hac.
Qed.

(** A path is smaller than every path that continues it. *)
Lemma str_le_extension (a rest : string) :
  rest <> "" -> str_le (a ++ rest) a = false.
Proof.
  intros Hrest.
  assert (Hlt : String_as_OT.lt a (a ++ rest)).
  { unfold String_as_OT.lt. induction a as [|c a IH]; simpl.
    - destruct rest; [contradiction | reflexivity].
    - destruct (Ascii_as_OT.compare_spec c c) as [_|Hc|Hc]; [exact IH| |];
        exfalso; revert Hc; apply (StrictOrder_Irreflexive (R:=Ascii_as_OT.lt)). }
  unfold str_le.
  destruct (String_as_OT.compare_spec (a ++ rest) a) as [E|Hl|Hl]; [| |reflexivity];
    exfalso.
  - rewrite E in Hlt. revert Hlt.
    apply (StrictOrder_Irreflexive (R:=String_as_OT.lt)).
  - assert (Haa : String_as_OT.lt a a) by (etransitivity; eassumption).
    revert Haa. apply (StrictOrder_Irreflexive (R:=String_as_OT.lt)).
Qed.

Lemma insert_In (x y : string) (l : list string) :
  In y (insert x l) <-> y = x \/ In y l.
Proof.
  induction l as [|z l IH]; simpl.
  - intuition.
  - destruct (str_le x z); simpl; rewrite ?IH; intuition.
Qed.

Lemma sort_In (y : string) (l : list string) : In y (sort l) <-> In y l.
Proof.
  induction l as [|x l IH]; simpl; [tauto|].
  rewrite insert_In, IH. intuition.
Qed.

Lemma insert_sorted (x : string) (l : list string) :
  StronglySorted (fun a b => str_le a b = true) l ->
  StronglySorted (fun a b => str_le a b = true) (insert x l).
Proof.
  induction 1 as [|z l Hs IH Hall]; simpl.
  - constructor; [constructor | constructor].
  - destruct (str_le x z) eqn:E.
    + constructor; [now constructor|].
      constructor; [exact E|].
      eapply Forall_impl; [|exact Hall]. intros b Hb.
      eapply str_le_trans; eassumption.
    + constructor; [exact IH|].
      apply Forall_forall. intros b Hb. apply insert_In in Hb as [->|Hb].
      * now apply str_le_total.
      * revert b Hb. now apply Forall_forall.
Qed.

Lemma sort_sorted (l : list string) :
  StronglySorted (fun a b => str_le a b = true) (sort l).
Proof.
  induction l as [|x l IH]; simpl; [constructor | now apply insert_sorted].
Qed.

Lemma sorted_app_le (l1 l2 : list string) :
  StronglySorted (fun a b => str_le a b = true) (l1 ++ l2) ->
  forall x y, In x l1 -> In y l2 -> str_le x y = true.
Proof.
  induction l1 as [|z l1 IH]; simpl; intros Hs x y Hx Hy; [destruct Hx|].
  inversion Hs as [|? ? Hs' Hall]; subst.
  destruct Hx as [->|Hx].
  - rewrite Forall_forall in Hall. apply Hall, in_or_app. now right.
  - now apply IH.
Qed.

(** In what [sort] followed by [reverse] yields, nothing that comes later
    is larger. *)
Lemma rev_sort_later_le (l l1 l2 : list string) (a b : string) :
  rev (sort l) = (l1 ++ a :: l2)%list -> In b l2 -> str_le b a = true.
Proof.
  intros E Hb.
  assert (Es : sort l = (rev l2 ++ a :: rev l1)%list).
  { rewrite <- (rev_involutive (sort l)), E, rev_app_distr. simpl.
    now rewrite <- app_assoc. }
  pose proof (sort_sorted l) as Hs. rewrite Es in Hs.
  eapply sorted_app_le; [exact Hs | now apply in_rev in Hb | now left].
Qed.

Lemma prefix_split (p s : string) :
  String.prefix p s = true -> exists rest, s = p ++ rest.
Proof.
  revert s. induction p as [|a p IH]; intros s Hp.
  - now exists s.
  - destruct s as [|c s]; [discriminate Hp|]. cbn [String.prefix] in Hp.
    destruct (ascii_dec a c) as [<-|]; [|discriminate Hp].
    destruct (IH s Hp) as (rest & ->). now exists rest.
Qed.

(** Deepest first: once a mount point has its turn, no path that continues
    it is still to come. *)
Lemma mountsUnder_deepest_first (jailRoot stdout : string)
    (earlier later : list string) (mp : string) :
  mountsUnder jailRoot stdout = (earlier ++ mp :: later)%list ->
  forall deeper rest,
    In deeper later -> rest <> "" -> deeper <> mp ++ rest.
Proof.
  unfold mountsUnder. intros E deeper rest Hin Hrest ->.
  pose proof (rev_sort_later_le _ _ _ _ _ E Hin) as Hle.
  rewrite str_le_extension in Hle by exact Hrest. discriminate.
Qed.


(** Only the jail root itself and paths below it are selected, each the
    second field of a line of the mount table. *)
Lemma mountsUnder_scope (jailRoot stdout mp : string) :
  In mp (mountsUnder jailRoot stdout) ->
  (mp = jailRoot \/ exists rest, mp = jailRoot ++ "/" ++ rest) /\
  exists line, In line (split "010"%char stdout) /\ nth 1 (splitWs line) "" = mp.
Proof.
  unfold mountsUnder. intros Hin.
  apply in_rev in Hin. apply (proj1 (sort_In _ _)) in Hin.
  apply filter_In in Hin as [Hin Hf].
  split.
  - apply orb_prop in Hf as [Hp|He].
    + right. unfold startsWith in Hp. apply prefix_split in Hp as (rest & ->).
      exists rest. apply str_app_assoc.
    + left. now apply String.eqb_eq.
  - apply in_map_iff in Hin as (line & <- & Hline). eauto.
Qed.


(** *** Quoting for the shell *)

Lemma safe_char_plain (c : ascii) :
  safe_char c = true -> Ascii.eqb c "'" = false /\ Ascii.eqb c "\" = false.
Proof.
  intros Hs. split.
  - destruct (Ascii.eqb_spec c "'"%char) as [->|]; [discriminate Hs|reflexivity].
  - destruct (Ascii.eqb_spec c "\"%char) as [->|]; [discriminate Hs|reflexivity].
Qed.

Lemma sh_read_safe (s : string) :
  all_chars safe_char s = true -> sh_read s false = Some s.
Proof.
  induction s as [|c r IH]; [reflexivity|]. cbn [all_chars].
  intros Hs. apply andb_true_iff in Hs as (Hc & Hr).
  destruct (safe_char_plain c Hc) as (Hq & Hb).
  cbn [sh_read]. rewrite Hq, Hb, Hc, (IH Hr). reflexivity.
Qed.

Lemma sh_read_quoted (s : string) :
  sh_read (replaceAll "'"%char ("'" ++ bslash ++ "''") s ++ "'") true = Some s.
Proof.
  induction s as [|c r IH]; [reflexivity|]. cbn [replaceAll].
  destruct (Ascii.eqb_spec c "'"%char) as [->|Hne].
  - assert (E : forall x,
               sh_read (("'" ++ bslash ++ "''") ++ x) true
               = option_map (String "'"%char) (sh_read x true))
      by (intros; reflexivity).
    rewrite str_app_assoc, E, IH. reflexivity.
  - rewrite str_app_assoc.
    change (String c "" ++ replaceAll "'"%char ("'" ++ bslash ++ "''") r ++ "'")%string
      with (String c (replaceAll "'"%char ("'" ++ bslash ++ "''") r ++ "'")).
    cbn [sh_read]. apply Ascii.eqb_neq in Hne. rewrite Hne, IH. reflexivity.
Qed.

(** X29: what [shellEscape] returns is read back by the shell as the very
    argument: a non-empty argument of safe characters is passed as it is,
    any other is put between single quotes with each quote inside written
    as quote, backslash, quote, quote.  So no two arguments are escaped to
    the same text, and the result is never empty. *)
Theorem shellEscape_round_trip (s : string) :
  sh_read (shellEscape s) false = Some s /\
  shellEscape s <> "" /\
  (forall s', shellEscape s = shellEscape s' -> s = s').
Proof.
  assert (Hread : forall a, sh_read (shellEscape a) false = Some a).
  { intros a. unfold shellEscape.
    destruct (truthy a && all_chars safe_char a) eqn:Hc.
    - apply andb_true_iff in Hc as (_ & Hc). now apply sh_read_safe.
    - change (sh_read ("'" ++ replaceAll "'"%char ("'" ++ bslash ++ "''") a ++ "'") false)
        with (sh_read (replaceAll "'"%char ("'" ++ bslash ++ "''") a ++ "'") true).
      apply sh_read_quoted. }
  split; [apply Hread|]. split.
  - unfold shellEscape. destruct (truthy s && all_chars safe_char s) eqn:Hc.
    + apply andb_true_iff in Hc as (Hc & _). destruct s; [discriminate Hc|discriminate].
    + discriminate.
  - intros s' E. pose proof (Hread s) as Hs. rewrite E, Hread in Hs. congruence.
Qed.

(** *** Running commands *)

#[local] Arguments trim : simpl never.
#[local] Arguments of_Z : simpl never.
#[local] Arguments append : simpl never.
#[local] Arguments join : simpl never.
#[local] Arguments mountsUnder : simpl never.
#[local] Arguments buildRctlRules : simpl never.
#[local] Arguments buildJailCreateArgs : simpl never.
#[local] Arguments cloneDataset : simpl never.
#[local] Arguments snapshotPath : simpl never.
#[local] Arguments String.eqb : simpl never.
#[local] Arguments Z.eqb : simpl never.
#[local] Arguments unmountAllUnder : simpl never.
#[local] Arguments applyRctlRules : simpl never.

Lemma commands_app' (a b : list Event) :
  commands (a ++ b) = (commands a ++ commands b)%list.
Proof.
  induction a as [|[c ok] a IH]; simpl; [reflexivity|].
  destruct c; simpl; now rewrite ?IH.
Qed.

Ltac unfold_ops :=
  unfold zfsClone, zfsDestroyClone, zfsDatasetExists, cloneMountpoint,
    jailContainerState, jls, removeRctlRules, mountDevfs, mountNullfs, mountTmpfs,
    mkdir, fs_writeFile, fs_readFile, quiet_call, run, run_cmd, execFileAsync,
    host_call, try_catch, bind, ret, throw, caught_code, caught_stdout,
    caught_stderr, flag, nullish, ran.

Section WithHost.
Context {W : Type} (H : Host W) (I : Imports W).

(** A tolerated command never throws. *)
Lemma run_tolerant (bin : string) (args : list string) (st : Jst) :
  exists r,
    run H bin args (Some true) st
    = (Val r, mkSt tt (next H (world st) (run_cmd bin args)),
       [ran (run_cmd bin args) (answers H (world st) (run_cmd bin args))]) /\
    r_stdout r
    = match fst (h_execFile H (world st) (run_cmd bin args)) with
      | inl out => stdout out
      | inr e => nullish (e_stdout e) ""
      end.
Proof.
  destruct st as [[] w]. unfold next, answers. unfold_ops. simpl.
  destruct (h_execFile H w _) as [[out|e] w']; simpl; eauto.
Qed.

Lemma forEach_tolerant (bin : string) (mkArgs : string -> list string)
    (l : list string) (w : W) :
  let cs := map (fun x => run_cmd bin (mkArgs x)) l in
  exists t,
    forEach l (fun x => run H bin (mkArgs x) (Some true) ;;; ret tt)%eff (mkSt tt w)
    = (Val tt, mkSt tt (after H w cs), t) /\
    commands t = cs.
Proof.
  revert w. induction l as [|x l IH]; intros w; simpl.
  - eexists. split; reflexivity.
  - destruct (run_tolerant bin (mkArgs x) (mkSt tt w)) as (r & Hr & _).
    unfold bind at 1 2. rewrite Hr.
    destruct (IH (next H w (run_cmd bin (mkArgs x)))) as (t & Ht & Hc).
    cbv beta iota. unfold ret at 1. cbv beta iota. simpl world. rewrite Ht.
    eexists. split; [reflexivity|].
    simpl. now rewrite Hc.
Qed.

Lemma mountTable_run (w : W) :
  exists r,
    run H "mount" ["-p"] (Some true) (mkSt tt w)
    = (Val r, mkSt tt (next H w (run_cmd "mount" ["-p"])),
       [ran (run_cmd "mount" ["-p"]) (answers H w (run_cmd "mount" ["-p"]))]) /\
    r_stdout r = mountTable H w.
Proof.
  destruct (run_tolerant "mount" ["-p"] (mkSt tt w)) as (r & Hr & _).
  exists r. split; [exact Hr|]. unfold mountTable, result_of. now rewrite Hr.
Qed.

Lemma unmountAllUnder_run (jailRoot : string) (w : W) :
  let umounts :=
    map (fun mp => run_cmd "umount" ["-f"; mp])
      (mountsUnder jailRoot (mountTable H w)) in
  exists t,
    unmountAllUnder H jailRoot (mkSt tt w)
    = (Val tt, mkSt tt (after H (next H w (run_cmd "mount" ["-p"])) umounts), t) /\
    commands t = run_cmd "mount" ["-p"] :: umounts.
Proof.
  intros umounts. unfold unmountAllUnder. unfold bind at 1.
  destruct (mountTable_run w) as (r & Hr & Hout). rewrite Hr.
  destruct (forEach_tolerant "umount" (fun mp => ["-f"; mp])
              (mountsUnder jailRoot (r_stdout r))
              (next H w (run_cmd "mount" ["-p"])))
    as (t & Ht & Hc).
  rewrite Ht. rewrite Hout in *. eexists. split; [reflexivity|].
  simpl. now rewrite Hc.
Qed.

Lemma mountsUnder_complete (jailRoot stdout line : string) :
  In line (split "010"%char stdout) ->
  let mp := nth 1 (splitWs line) "" in
  mp = jailRoot \/ (exists rest, mp = jailRoot ++ "/" ++ rest) ->
  In mp (mountsUnder jailRoot stdout).
Proof.
  intros Hline mp Hmp. unfold mountsUnder.
  apply -> in_rev. apply sort_In. apply filter_In. split.
  - apply in_map_iff. now exists line.
  - apply orb_true_iff. destruct Hmp as [->|(rest & ->)].
    + right. apply String.eqb_refl.
    + left. unfold startsWith. rewrite <- str_app_assoc. apply prefix_app.
Qed.

(** X4: [unmountAllUnder] never throws.  It runs [mount -p] and then one
    [umount -f] for each mount point of that table that is the jail root or
    lies below it, and for no other; none of them is left out.  The order is
    deepest first: once a mount point has had its turn, no path that
    continues it is unmounted later. *)
Theorem unmountAllUnder_deepest_first (jailRoot : string) (st : Jst) :
  let umount := fun mp => run_cmd "umount" ["-f"; mp] in
  let table := mountTable H (world st) in
  exists st' t,
    unmountAllUnder H jailRoot st = (Val tt, st', t) /\
    commands t = run_cmd "mount" ["-p"] :: map umount (mountsUnder jailRoot table) /\
    (forall line,
        In line (split "010"%char table) ->
        let mp := nth 1 (splitWs line) "" in
        mp = jailRoot \/ (exists rest, mp = jailRoot ++ "/" ++ rest) ->
        In (umount mp) (commands t)) /\
    (forall before mp later,
        commands t = (before ++ umount mp :: later)%list ->
        forall deeper rest,
          In (umount deeper) later -> rest <> "" -> deeper <> mp ++ rest).
Proof.
  intros umount table. destruct st as [[] w]. simpl in table.
  destruct (unmountAllUnder_run jailRoot w) as (t & Hrun & Hc).
  fold table in Hc. fold umount in Hc.
  eexists. exists t. split; [exact Hrun|]. split; [exact Hc|]. split.
  - intros line Hline mp Hmp. rewrite Hc. right. apply in_map.
    now apply (mountsUnder_complete jailRoot table line).
  - intros before mp later E deeper rest Hin Hrest. rewrite Hc in E.
    destruct before as [|c before]; [discriminate E|].
    injection E as _ E.
    apply map_eq_app in E as (l1 & l2 & Hm & _ & E).
    apply map_eq_cons in E as (mp' & l3 & -> & Hmp & <-).
    injection Hmp as ->.
    apply in_map_iff in Hin as (deeper' & Hd & Hin). injection Hd as ->.
    eapply mountsUnder_deepest_first; eassumption.
Qed.

(** X5: [unmountAllUnder] unmounts only the jail root itself and paths
    below it; a neighbour whose name merely starts with the root is left
    alone. *)
Theorem unmountAllUnder_scope (jailRoot : string) (st : Jst) :
  exists st' t,
    unmountAllUnder H jailRoot st = (Val tt, st', t) /\
    forall mp,
      In (run_cmd "umount" ["-f"; mp]) (commands t) ->
      mp = jailRoot \/ exists rest, mp = jailRoot ++ "/" ++ rest.
Proof.
  destruct st as [[] w].
  destruct (unmountAllUnder_run jailRoot w) as (t & Hrun & Hc).
  eexists. exists t. split; [exact Hrun|]. intros mp Hin. rewrite Hc in Hin.
  destruct Hin as [E|Hin]; [discriminate E|].
  apply in_map_iff in Hin as (mp' & E & Hin). inversion E; subst.
  eapply mountsUnder_scope, Hin.
Qed.

End WithHost.

Lemma unmountAllUnder_deepest_first_witness :
  exists st' t,
    unmountAllUnder box_host "/jails/a" (box empty_box) = (Val tt, st', t) /\
    commands t
    = run_cmd "mount" ["-p"]
        :: map (fun mp => run_cmd "umount" ["-f"; mp])
             ["/jails/a/workspace/tmp"; "/jails/a/workspace"; "/jails/a/dev";
              "/jails/a"] /\
    In (run_cmd "umount" ["-f"; "/jails/a/dev"]) (commands t).
Proof.
  destruct (unmountAllUnder_deepest_first box_host "/jails/a" (box empty_box))
    as (st' & t & Hrun & Hc & Hall & _).
  exists st', t. split; [exact Hrun|]. split; [exact Hc|].
  apply (Hall "devfs /jails/a/dev devfs rw 0 0").
  - vm_compute. auto.
  - right. exists "dev". reflexivity.
Defined.

Lemma unmountAllUnder_scope_witness :
  exists st' t,
    unmountAllUnder box_host "/jails/a" (box empty_box) = (Val tt, st', t) /\
    ~ In (run_cmd "umount" ["-f"; "/jails/ab"]) (commands t).
Proof.
  destruct (unmountAllUnder_scope box_host "/jails/a" (box empty_box)) as (st' & t & Hrun & Hs).
  exists st', t. split; [exact Hrun|]. intros Hin.
  destruct (Hs _ Hin) as [E|(rest & E)]; discriminate E.
Defined.

End SandboxOpsProps.
(* ------------------------------------------------------------------ *)
(** ** The jail lifecycle *)

Module LifecycleProps.
Import Js Eff SandboxJail SandboxOps SandboxOpsProps.

#[local] Arguments trim : simpl never.
#[local] Arguments of_Z : simpl never.
#[local] Arguments append : simpl never.
#[local] Arguments join : simpl never.
#[local] Arguments mountsUnder : simpl never.
#[local] Arguments buildRctlRules : simpl never.
#[local] Arguments buildJailCreateArgs : simpl never.
#[local] Arguments cloneDataset : simpl never.
#[local] Arguments snapshotPath : simpl never.
#[local] Arguments String.eqb : simpl never.
#[local] Arguments Z.eqb : simpl never.
#[local] Arguments unmountAllUnder : simpl never.
#[local] Arguments applyRctlRules : simpl never.

(** *** Reading a run backwards *)

Lemma bind_inv {S A B} (m : M S A) (k : A -> M S B) (s : S)
    (r : res B) (s' : S) (t : list Event) :
  bind m k s = (r, s', t) ->
  (exists a s1 t1 t2,
      m s = (Val a, s1, t1) /\ k a s1 = (r, s', t2) /\ t = (t1 ++ t2)%list)
  \/ (exists e, m s = (Throw e, s', t) /\ r = Throw e).
Proof.
  unfold bind. destruct (m s) as [[[a|e] s1] t1].
  - destruct (k a s1) as [[r2 s2] t2] eqn:Ek. intros E. injection E as <- <- <-.
    left. now exists a, s1, t1, t2.
  - intros E. injection E as <- <- <-. right. now exists e.
Qed.

Lemma try_catch_inv {S A} (m : M S A) (h : thrown -> M S A) (s : S)
    (r : res A) (s' : S) (t : list Event) :
  try_catch m h s = (r, s', t) ->
  (exists a, m s = (Val a, s', t) /\ r = Val a)
  \/ (exists e s1 t1 t2,
         m s = (Throw e, s1, t1) /\ h e s1 = (r, s', t2) /\ t = (t1 ++ t2)%list).
Proof.
  unfold try_catch. destruct (m s) as [[[a|e] s1] t1].
  - intros E. injection E as <- <- <-. left. now exists a.
  - destruct (h e s1) as [[r2 s2] t2] eqn:Eh. intros E. injection E as <- <- <-.
    right. now exists e, s1, t1, t2.
Qed.

Lemma bind_val {S A B} (m : M S A) (k : A -> M S B) (s : S)
    (a : A) (s1 : S) (t1 : list Event) :
  m s = (Val a, s1, t1) ->
  bind m k s = (let '(r, s2, t2) := k a s1 in (r, s2, (t1 ++ t2)%list)).
Proof. unfold bind. now intros ->. Qed.

Lemma bind_throw {S A B} (m : M S A) (k : A -> M S B) (s : S)
    (e : thrown) (s1 : S) (t1 : list Event) :
  m s = (Throw e, s1, t1) -> bind m k s = (Throw e, s1, t1).
Proof. unfold bind. now intros ->. Qed.

Lemma ret_inv {S A} (a : A) (s : S) (r : res A) (s' : S) (t : list Event) :
  ret a s = (r, s', t) -> r = Val a /\ s' = s /\ t = [].
Proof. unfold ret. intros E. now injection E as <- <- <-. Qed.

Lemma throw_inv {S A} (e : thrown) (s : S) (r : res A) (s' : S) (t : list Event) :
  @throw S A e s = (r, s', t) -> r = Throw e /\ s' = s /\ t = [].
Proof. unfold throw. intros E. now injection E as <- <- <-. Qed.

(** Take a run apart along its binds. *)
Ltac inv_run E :=
  lazymatch type of E with
  | bind _ _ _ = _ =>
      let E1 := fresh "E" in
      let E2 := fresh "E" in
      let Et := fresh "E" in
      apply bind_inv in E as [(? & ? & ? & ? & E1 & E2 & Et) | (? & E1 & Et)];
      try subst
  | ret _ _ = _ =>
      let Er := fresh "E" in
      let Es := fresh "E" in
      let Et := fresh "E" in
      apply ret_inv in E as (Er & Es & Et); try subst
  | throw _ _ = _ =>
      let Er := fresh "E" in
      let Es := fresh "E" in
      let Et := fresh "E" in
      apply throw_inv in E as (Er & Es & Et); try subst
  end.

Section WithHost.
Context {W : Type} (H : Host W) (I : Imports W).

(** *** One command *)

Lemma run_tolerant_inv (bin : string) (args : list string) (st : Jst)
    (r : res ExecResult) (st' : Jst) (t : list Event) :
  run H bin args (Some true) st = (r, st', t) ->
  exists res ok, r = Val res /\ t = [ran (run_cmd bin args) ok].
Proof.
  destruct (run_tolerant H bin args st) as (res & E & _). rewrite E.
  intros E'. injection E' as <- <- <-. eauto.
Qed.

Lemma run_strict_inv (bin : string) (args : list string) (st : Jst)
    (r : res ExecResult) (st' : Jst) (t : list Event) :
  run H bin args None st = (r, st', t) ->
  (exists res, r = Val res /\ t = [ran (run_cmd bin args) true])
  \/ (exists msg, r = Throw (Error msg) /\ t = [ran (run_cmd bin args) false]).
Proof.
  destruct st as [[] w]. unfold_ops. simpl.
  destruct (h_execFile H w _) as [[out|e] w']; simpl; intros E;
    injection E as <- <- <-; eauto.
Qed.

Lemma jailContainerState_inv (jailName : string) (st : Jst)
    (r : res (bool * bool)) (st' : Jst) (t : list Event) :
  jailContainerState H jailName st = (r, st', t) ->
  exists b ok, r = Val (b, b) /\ t = [ran (run_cmd "jls" ["-j"; jailName; "jid"]) ok].
Proof.
  unfold jailContainerState, jls. intros E. inv_run E.
  - apply run_tolerant_inv in E0 as (res & ok & [= ->] & ->).
    destruct (_ || _); inv_run E1; simpl; eauto.
  - apply run_tolerant_inv in E0 as (res & ok & [=] & _).
Qed.

Lemma zfsDatasetExists_inv (dataset : string) (st : Jst)
    (r : res bool) (st' : Jst) (t : list Event) :
  zfsDatasetExists H dataset st = (r, st', t) ->
  exists b ok,
    r = Val b /\ t = [ran (run_cmd "zfs" ["list"; "-H"; "-o"; "name"; dataset]) ok].
Proof.
  unfold zfsDatasetExists. intros E. inv_run E.
  - apply run_tolerant_inv in E0 as (res & ok & [= ->] & ->).
    inv_run E1. simpl. eauto.
  - apply run_tolerant_inv in E0 as (res & ok & [=] & _).
Qed.

Lemma cloneMountpoint_inv (dataset : string) (st : Jst)
    (r : res string) (st' : Jst) (t : list Event) :
  let get := run_cmd "zfs" ["get"; "-H"; "-o"; "value"; "mountpoint"; dataset] in
  cloneMountpoint H dataset st = (r, st', t) ->
  (exists root, r = Val root /\ t = [ran get true])
  \/ (exists e, r = Throw e /\ t = [ran get false]).
Proof.
  intros get E. unfold cloneMountpoint in E. inv_run E.
  - apply run_strict_inv in E0 as [(res & [= ->] & ->)|(msg & [=] & _)].
    inv_run E1. left. eauto.
  - apply run_strict_inv in E0 as [(res & [=] & _)|(msg & _ & ->)].
    right. eauto.
Qed.

Lemma unmountAllUnder_inv (jailRoot : string) (st : Jst)
    (r : res unit) (st' : Jst) (t : list Event) :
  unmountAllUnder H jailRoot st = (r, st', t) ->
  r = Val tt /\
  exists mounts,
    commands t
    = run_cmd "mount" ["-p"] :: map (fun mp => run_cmd "umount" ["-f"; mp]) mounts.
Proof.
  destruct st as [[] w].
  destruct (unmountAllUnder_run H jailRoot w) as (t1 & E & Hc).
  rewrite E. intros E'. injection E' as <- <- <-. eauto.
Qed.

Lemma zfsDestroyClone_inv (cfg : SandboxJailConfig) (jailName : string) (st : Jst)
    (r : res unit) (st' : Jst) (t : list Event) :
  let dataset := cloneDataset cfg jailName in
  zfsDestroyClone H cfg jailName st = (r, st', t) ->
  r = Val tt /\
  exists destroyed : bool,
    commands t
    = run_cmd "zfs" ["list"; "-H"; "-o"; "name"; dataset]
        :: (if destroyed then [run_cmd "zfs" ["destroy"; "-r"; dataset]] else []).
Proof.
  intros dataset E. unfold zfsDestroyClone in E. fold dataset in E. inv_run E.
  - apply zfsDatasetExists_inv in E0 as (b & ok & [= ->] & ->).
    destruct b; simpl in E1.
    + inv_run E1.
      * apply run_tolerant_inv in E as (res & ok' & [= ->] & ->). inv_run E0.
        split; [reflexivity|]. now exists true.
      * apply run_tolerant_inv in E as (res & ok' & [=] & _).
    + inv_run E1. split; [reflexivity|]. now exists false.
  - apply zfsDatasetExists_inv in E0 as (b & ok & [=] & _).
Qed.

(** *** Running forwards *)

Lemma jailContainerState_run (jailName : string) (st : Jst) :
  let c := run_cmd "jls" ["-j"; jailName; "jid"] in
  exists b,
    jailContainerState H jailName st
    = (Val (b, b), mkSt tt (next H (world st) c), [ran c (answers H (world st) c)]).
Proof.
  intros c. unfold jailContainerState, jls. unfold bind.
  destruct (run_tolerant H "jls" ["-j"; jailName; "jid"] st) as (res & E & _).
  simpl app. rewrite E. destruct (_ || _); unfold ret; eauto.
Qed.

Lemma zfsDatasetExists_run (dataset : string) (st : Jst) :
  let c := run_cmd "zfs" ["list"; "-H"; "-o"; "name"; dataset] in
  exists b,
    zfsDatasetExists H dataset st
    = (Val b, mkSt tt (next H (world st) c), [ran c (answers H (world st) c)]).
Proof.
  intros c. unfold zfsDatasetExists. unfold bind.
  destruct (run_tolerant H "zfs" ["list"; "-H"; "-o"; "name"; dataset] st)
    as (res & E & _).
  rewrite E. unfold ret. eauto.
Qed.

Lemma removeRctlRules_run (jailName : string) (st : Jst) :
  let c := run_cmd "rctl" ["-r"; ("jail:" ++ jailName)%string] in
  removeRctlRules H jailName st
  = (Val tt, mkSt tt (next H (world st) c), [ran c (answers H (world st) c)]).
Proof.
  intros c. unfold removeRctlRules, bind.
  destruct (run_tolerant H "rctl" ["-r"; ("jail:" ++ jailName)%string] st)
    as (res & E & _).
  rewrite E. reflexivity.
Qed.

Lemma jailContainerState_eq (jailName : string) (w : W) :
  let c := run_cmd "jls" ["-j"; jailName; "jid"] in
  jailContainerState H jailName (mkSt tt w)
  = (Val (jailReported H w jailName, jailReported H w jailName),
     mkSt tt (next H w c), [ran c (answers H w c)]).
Proof.
  intros c. destruct (jailContainerState_run jailName (mkSt tt w)) as (b & E).
  unfold jailReported, result_of. rewrite E. reflexivity.
Qed.

Lemma zfsDatasetExists_eq (dataset : string) (w : W) :
  let c := run_cmd "zfs" ["list"; "-H"; "-o"; "name"; dataset] in
  zfsDatasetExists H dataset (mkSt tt w)
  = (Val (datasetListed H w dataset), mkSt tt (next H w c), [ran c (answers H w c)]).
Proof.
  intros c. destruct (zfsDatasetExists_run dataset (mkSt tt w)) as (b & E).
  unfold datasetListed, result_of. rewrite E. reflexivity.
Qed.

(** The probes in terms of what the host answers. *)
Lemma jailReported_answer (jailName : string) (w w1 : W) (out : ExecOutput) :
  h_execFile H w (run_cmd "jls" ["-j"; jailName; "jid"]) = (inl out, w1) ->
  jailReported H w jailName = truthy (trim (stdout out)).
Proof.
  intros Hj. unfold jailReported, result_of. unfold_ops. simpl.
  unfold run_cmd in Hj. rewrite Hj. simpl.
  destruct (truthy (trim (stdout out))); reflexivity.
Qed.

Lemma datasetListed_answer (dataset : string) (w w1 : W) (out : ExecOutput) :
  h_execFile H w (run_cmd "zfs" ["list"; "-H"; "-o"; "name"; dataset]) = (inl out, w1) ->
  datasetListed H w dataset = String.eqb (trim (stdout out)) dataset.
Proof.
  intros Hl. unfold datasetListed, result_of. unfold_ops. simpl.
  unfold run_cmd in Hl. rewrite Hl. reflexivity.
Qed.

Lemma mountpointOf_answer (dataset : string) (w : W) :
  mountpointOf H w dataset
  = match fst (h_execFile H w (run_cmd "zfs" ["get"; "-H"; "-o"; "value";
                                               "mountpoint"; dataset])) with
    | inl out => Some (trim (stdout out))
    | inr _ => None
    end.
Proof.
  unfold mountpointOf, result_of, cloneMountpoint. unfold_ops. simpl.
  destruct (h_execFile H w _) as [[out|e] w']; reflexivity.
Qed.

Lemma run_tolerant_eq (bin : string) (args : list string) (w : W) :
  (run H bin args (Some true) ;;; ret tt)%eff (mkSt tt w)
  = (Val tt, mkSt tt (next H w (run_cmd bin args)),
     [ran (run_cmd bin args) (answers H w (run_cmd bin args))]).
Proof.
  destruct (run_tolerant H bin args (mkSt tt w)) as (r & E & _).
  unfold bind. rewrite E. reflexivity.
Qed.

Lemma cloneMountpoint_eq (dataset : string) (w : W) :
  let get := run_cmd "zfs" ["get"; "-H"; "-o"; "value"; "mountpoint"; dataset] in
  match mountpointOf H w dataset with
  | Some root =>
      cloneMountpoint H dataset (mkSt tt w)
      = (Val root, mkSt tt (next H w get), [ran get true])
  | None =>
      exists e,
        cloneMountpoint H dataset (mkSt tt w)
        = (Throw e, mkSt tt (next H w get), [ran get false])
  end.
Proof.
  intros get. unfold mountpointOf, result_of, next. subst get.
  unfold cloneMountpoint. unfold_ops. simpl.
  destruct (h_execFile H w _) as [[out|e] w']; simpl; eauto.
Qed.

Lemma zfsDestroyClone_eq (cfg : SandboxJailConfig) (jailName : string) (w : W) :
  let dataset := cloneDataset cfg jailName in
  let look := run_cmd "zfs" ["list"; "-H"; "-o"; "name"; dataset] in
  let destroy := run_cmd "zfs" ["destroy"; "-r"; dataset] in
  let w1 := next H w look in
  zfsDestroyClone H cfg jailName (mkSt tt w)
  = (Val tt,
     mkSt tt (if datasetListed H w dataset then next H w1 destroy else w1),
     ran look (answers H w look)
       :: (if datasetListed H w dataset
           then [ran destroy (answers H w1 destroy)] else [])).
Proof.
  intros dataset look destroy w1. unfold zfsDestroyClone. fold dataset.
  erewrite bind_val by apply zfsDatasetExists_eq.
  fold look. fold w1. destruct (datasetListed H w dataset); cbv beta iota delta [negb].
  - rewrite run_tolerant_eq. reflexivity.
  - reflexivity.
Qed.

(** X6: [destroyJailSandbox] works in a fixed order, and what the host
    answers decides each step.  It asks [jls] and runs [jail -r] exactly when
    the jail is reported; it drops the rctl rules; it looks the clone up and,
    exactly when it is found, reads its mountpoint and unmounts below it; it
    looks the clone up once more and runs [zfs destroy -r] exactly when it is
    found then.  The only step that can make it throw is the mountpoint
    query, and nothing runs after it then; every other failure is ignored. *)
Theorem destroyJailSandbox_order (jailName : string) (cfg : SandboxJailConfig)
    (w : W) :
  let dataset := cloneDataset cfg jailName in
  let jls := run_cmd "jls" ["-j"; jailName; "jid"] in
  let remove := run_cmd "jail" ["-r"; jailName] in
  let rctl := run_cmd "rctl" ["-r"; ("jail:" ++ jailName)%string] in
  let look := run_cmd "zfs" ["list"; "-H"; "-o"; "name"; dataset] in
  let get := run_cmd "zfs" ["get"; "-H"; "-o"; "value"; "mountpoint"; dataset] in
  let destroy := run_cmd "zfs" ["destroy"; "-r"; dataset] in
  let reported := jailReported H w jailName in
  let w1 := next H w jls in
  let w2 := next H (if reported then next H w1 remove else w1) rctl in
  let found := datasetListed H w2 dataset in
  let w3 := next H w2 look in
  let head :=
    (jls :: (if reported then [remove] else []) ++ [rctl; look])%list in
  let finish := fun w5 : W =>
    look :: (if datasetListed H w5 dataset then [destroy] else []) in
  exists r st' t,
    destroyJailSandbox H jailName cfg (mkSt tt w) = (r, st', t) /\
    if found then
      match mountpointOf H w3 dataset with
      | None =>
          (exists e, r = Throw e) /\
          (exists t0, t = (t0 ++ [ran get false])%list) /\
          commands t = (head ++ [get])%list /\
          st' = mkSt tt (next H w3 get)
      | Some root =>
          let w4 := next H w3 get in
          let unmount :=
            run_cmd "mount" ["-p"]
              :: map (fun mp => run_cmd "umount" ["-f"; mp])
                   (mountsUnder root (mountTable H w4)) in
          let w5 := after H w4 unmount in
          r = Val tt /\
          commands t = (head ++ get :: unmount ++ finish w5)%list /\
          st' = mkSt tt (after H w5 (finish w5))
      end
    else
      r = Val tt /\ commands t = (head ++ finish w3)%list /\
      st' = mkSt tt (after H w3 (finish w3)).
Proof.
  intros dataset jls remove rctl look get destroy reported w1 w2 found w3 head
    finish.
  destruct (destroyJailSandbox H jailName cfg (mkSt tt w)) as [[r st'] t] eqn:E.
  exists r, st', t. split; [reflexivity|].
  unfold destroyJailSandbox in E. fold dataset in E.
  rewrite (bind_val _ _ _ _ _ _ (jailContainerState_eq jailName w)) in E.
  simpl snd in E. fold reported in E. fold jls in E. fold w1 in E.
  assert (E1 :
    (if reported then (run H "jail" ["-r"; jailName] (Some true) ;;; ret tt)%eff
     else ret tt) (mkSt tt w1)
    = (Val tt, mkSt tt (if reported then next H w1 remove else w1),
       if reported then [ran remove (answers H w1 remove)] else [])).
  { destruct reported; [apply run_tolerant_eq|reflexivity]. }
  rewrite (bind_val _ _ _ _ _ _ E1) in E.
  unfold removeRctlRules in E.
  rewrite (bind_val _ _ _ _ _ _ (run_tolerant_eq "rctl" _ _)) in E.
  fold rctl in E. fold w2 in E.
  rewrite (bind_val _ _ _ _ _ _ (zfsDatasetExists_eq dataset w2)) in E.
  fold look in E. fold found in E. fold w3 in E.
  assert (Hhead :
    forall a b c d rest,
      commands (ran jls a
                  :: (if reported then [ran remove b] else [])
                  ++ ran rctl c :: ran look d :: rest)
      = (head ++ commands rest)%list).
  { intros. subst head. destruct reported; reflexivity. }
  destruct found; cbv iota in E.
  - pose proof (cloneMountpoint_eq dataset w3) as Eg. fold get in Eg.
    destruct (mountpointOf H w3 dataset) as [root|].
    + destruct (unmountAllUnder_run H root (next H w3 get)) as (tu & Eu & Hc).
      assert (Ein :
        (root <- cloneMountpoint H dataset ;; unmountAllUnder H root)%eff
          (mkSt tt w3)
        = (Val tt,
           mkSt tt (after H (next H (next H w3 get) (run_cmd "mount" ["-p"]))
                      (map (fun mp => run_cmd "umount" ["-f"; mp])
                         (mountsUnder root (mountTable H (next H w3 get))))),
           ([ran get true] ++ tu)%list)).
      { erewrite bind_val by exact Eg. rewrite Eu. reflexivity. }
      erewrite bind_val in E by exact Ein.
      rewrite zfsDestroyClone_eq in E. fold dataset look destroy in E.
      injection E as <- <- <-.
      split; [reflexivity|]. split.
      * rewrite Hhead. f_equal. simpl. rewrite commands_app', Hc.
        unfold finish, after. simpl fold_left.
        destruct (datasetListed H _ dataset); reflexivity.
      * unfold finish, after. simpl fold_left.
        destruct (datasetListed H _ dataset); reflexivity.
    + destruct Eg as (e & Eg).
      assert (Ein :
        (root <- cloneMountpoint H dataset ;; unmountAllUnder H root)%eff
          (mkSt tt w3)
        = (Throw e, mkSt tt (next H w3 get), [ran get false])).
      { erewrite bind_throw by exact Eg. reflexivity. }
      erewrite bind_throw in E by exact Ein.
      injection E as <- <- <-.
      split; [eauto|]. split.
      * exists (ran jls (answers H w jls)
                  :: (if reported then [ran remove (answers H w1 remove)] else [])
                  ++ [ran rctl (answers H (if reported then next H w1 remove else w1)
                                  rctl);
                      ran look (answers H w2 look)])%list.
        destruct reported; reflexivity.
      * split; [|reflexivity]. rewrite Hhead. reflexivity.
  - erewrite bind_val in E by reflexivity.
    rewrite zfsDestroyClone_eq in E. fold dataset look destroy in E.
    injection E as <- <- <-.
    split; [reflexivity|]. split.
    + rewrite Hhead. f_equal. unfold finish.
      destruct (datasetListed H _ dataset); reflexivity.
    + unfold finish, after.
      destruct (datasetListed H _ dataset); reflexivity.
Qed.

(** X7: tearing down a sandbox that is not there changes nothing.  When
    [jls] knows no such jail and the clone is not found, [destroyJailSandbox]
    returns normally after four commands: the [jls] query, the removal of
    rctl rules and two dataset lookups; no [jail -r], [umount] or
    [zfs destroy] is issued. *)
Theorem destroyJailSandbox_absent (jailName : string) (cfg : SandboxJailConfig)
    (w : W) :
  let dataset := cloneDataset cfg jailName in
  let jls := run_cmd "jls" ["-j"; jailName; "jid"] in
  let rctl := run_cmd "rctl" ["-r"; ("jail:" ++ jailName)%string] in
  let look := run_cmd "zfs" ["list"; "-H"; "-o"; "name"; dataset] in
  let w1 := next H w jls in
  let w2 := next H w1 rctl in
  let w3 := next H w2 look in
  result_of (jailContainerState H jailName) (mkSt tt w) = Val (false, false) ->
  result_of (zfsDatasetExists H dataset) (mkSt tt w2) = Val false ->
  result_of (zfsDatasetExists H dataset) (mkSt tt w3) = Val false ->
  exists t,
    destroyJailSandbox H jailName cfg (mkSt tt w)
    = (Val tt, mkSt tt (next H w3 look), t) /\
    commands t = [jls; rctl; look; look].
Proof.
  intros dataset jls rctl look w1 w2 w3 Hj H2 H3.
  destruct (jailContainerState_run jailName (mkSt tt w)) as (b & Ej).
  unfold result_of in Hj. rewrite Ej in Hj. simpl in Hj. injection Hj as ->.
  pose proof (removeRctlRules_run jailName (mkSt tt w1)) as Er.
  destruct (zfsDatasetExists_run dataset (mkSt tt w2)) as (b2 & E2).
  unfold result_of in H2. rewrite E2 in H2. simpl in H2. injection H2 as ->.
  destruct (zfsDatasetExists_run dataset (mkSt tt w3)) as (b3 & E3).
  unfold result_of in H3. rewrite E3 in H3. simpl in H3. injection H3 as ->.
  unfold destroyJailSandbox, zfsDestroyClone. fold dataset.
  erewrite bind_val by exact Ej. simpl snd. cbv iota.
  erewrite bind_val by reflexivity.
  erewrite bind_val by exact Er.
  erewrite bind_val by exact E2.
  erewrite bind_val by reflexivity.
  erewrite bind_val by exact E3.
  simpl. eexists. split; reflexivity.
Qed.

(** X8: [applyRctlRules] stops at the first rule that [rctl -a] refuses:
    the rules before it stay applied, the rules after it are never tried,
    and the failure is thrown.  Without a failure every rule is applied, in
    order. *)
Theorem applyRctlRules_stops_at_first_failure (rules : list string) (st : Jst) :
  let add := fun rule => run_cmd "rctl" ["-a"; rule] in
  exists r st' t,
    applyRctlRules H rules st = (r, st', t) /\
    ((r = Val tt /\ t = map (fun rule => ran (add rule) true) rules)
     \/ (exists msg applied bad rest,
            r = Throw (Error msg) /\
            rules = (applied ++ bad :: rest)%list /\
            t = (map (fun rule => ran (add rule) true) applied
                   ++ [ran (add bad) false])%list)).
Proof.
  intros add. revert st. unfold applyRctlRules.
  induction rules as [|rule rules IH]; intros st; simpl forEach.
  - do 3 eexists. split; [reflexivity|]. left. split; reflexivity.
  - destruct (run H "rctl" ["-a"; rule] None st) as [[r1 s1] t1] eqn:E1.
    pose proof E1 as E1'.
    apply run_strict_inv in E1' as [(res & -> & ->)|(msg & -> & ->)].
    + destruct (IH s1) as (r & st' & t & E & Hcase).
      erewrite bind_val by (erewrite bind_val by exact E1; reflexivity).
      rewrite E. do 3 eexists. split; [reflexivity|].
      destruct Hcase as [(-> & ->)|(msg & applied & bad & rest & -> & -> & ->)].
      * left. split; reflexivity.
      * right. exists msg, (rule :: applied), bad, rest.
        split; [reflexivity|]. split; reflexivity.
    + erewrite bind_throw by (erewrite bind_throw by exact E1; reflexivity).
      do 3 eexists. split; [reflexivity|]. right.
      exists msg, [], rule, rules. split; [reflexivity|]. split; reflexivity.
Qed.

Lemma run_strict_eq (bin : string) (args : list string) (w : W) :
  let c := run_cmd bin args in
  if answers H w c then
    exists res, run H bin args None (mkSt tt w) = (Val res, mkSt tt (next H w c), [ran c true])
  else
    exists e, run H bin args None (mkSt tt w) = (Throw e, mkSt tt (next H w c), [ran c false]).
Proof.
  intros c. subst c. unfold answers, next. unfold_ops. simpl.
  destruct (h_execFile H w _) as [[out|e] w']; simpl; eauto.
Qed.

(** X9: [zfsClone] reuses a clone that is already there: exactly when the
    lookup finds the dataset it only reads the mountpoint.  Otherwise it
    looks for the parent and runs [zfs create -p] exactly when that lookup
    does not find it, clones the base snapshot and reads the mountpoint.  A
    failure of the parent creation, of the clone or of the mountpoint query
    is thrown at once: no later step runs and nothing is checked again. *)
Theorem zfsClone_steps (cfg : SandboxJailConfig) (jailName : string) (w : W) :
  let dataset := cloneDataset cfg jailName in
  let look := run_cmd "zfs" ["list"; "-H"; "-o"; "name"; dataset] in
  let lookp := run_cmd "zfs" ["list"; "-H"; "-o"; "name"; cloneParent cfg] in
  let mk := run_cmd "zfs" ["create"; "-p"; cloneParent cfg] in
  let clone := run_cmd "zfs" ["clone"; snapshotPath cfg; dataset] in
  let get := run_cmd "zfs" ["get"; "-H"; "-o"; "value"; "mountpoint"; dataset] in
  let found := datasetListed H w dataset in
  let w1 := next H w look in
  let parentFound := datasetListed H w1 (cloneParent cfg) in
  let w2 := next H w1 lookp in
  let made := answers H w2 mk in
  let w3 := if parentFound then w2 else next H w2 mk in
  let cloned := answers H w3 clone in
  let w4 := next H w3 clone in
  let lookups := [ran look (answers H w look); ran lookp (answers H w1 lookp)] in
  let prepared :=
    (lookups ++ (if parentFound then [] else [ran mk true]))%list in
  (* reading the mountpoint in the state [w'], after the events [t0] *)
  let reads := fun (w' : W) (t0 : list Event) (r : res string) (st' : Jst)
                   (t : list Event) =>
    st' = mkSt tt (next H w' get) /\
    match mountpointOf H w' dataset with
    | Some root => r = Val root /\ t = (t0 ++ [ran get true])%list
    | None => (exists e, r = Throw e) /\ t = (t0 ++ [ran get false])%list
    end in
  exists r st' t,
    zfsClone H cfg jailName (mkSt tt w) = (r, st', t) /\
    if found then reads w1 [ran look (answers H w look)] r st' t
    else if negb parentFound && negb made then
      (exists e, r = Throw e) /\ st' = mkSt tt (next H w2 mk) /\
      t = (lookups ++ [ran mk false])%list
    else if negb cloned then
      (exists e, r = Throw e) /\ st' = mkSt tt w4 /\
      t = (prepared ++ [ran clone false])%list
    else reads w4 (prepared ++ [ran clone true])%list r st' t.
Proof.
  intros dataset look lookp mk clone get found w1 parentFound w2 made w3 cloned
    w4 lookups prepared reads.
  destruct (zfsClone H cfg jailName (mkSt tt w)) as [[r st'] t] eqn:E.
  exists r, st', t. split; [reflexivity|].
  unfold zfsClone in E. fold dataset in E.
  rewrite (bind_val _ _ _ _ _ _ (zfsDatasetExists_eq dataset w)) in E.
  fold look in E. fold found in E. fold w1 in E.
  assert (Hreads :
    forall w' t0 r st' t,
      (let '(r, s2, t2) := cloneMountpoint H dataset (mkSt tt w') in
       (r, s2, (t0 ++ t2)%list)) = (r, st', t) ->
      reads w' t0 r st' t).
  { clear E. intros w' t0 r' st1 t1 E. subst reads. cbv beta.
    pose proof (cloneMountpoint_eq dataset w') as Eg. fold get in Eg.
    destruct (mountpointOf H w' dataset) as [root|].
    - rewrite Eg in E. injection E as <- <- <-. auto.
    - destruct Eg as (e & Eg). rewrite Eg in E. injection E as <- <- <-. eauto. }
  destruct found; cbv iota in E.
  - apply Hreads. exact E.
  - rewrite (bind_val _ _ _ _ _ _ (zfsDatasetExists_eq (cloneParent cfg) w1)) in E.
    fold lookp in E. fold parentFound in E. fold w2 in E.
    pose proof (run_strict_eq "zfs" ["create"; "-p"; cloneParent cfg] w2) as Em.
    pose proof (run_strict_eq "zfs" ["clone"; snapshotPath cfg; dataset] w3) as Ec.
    cbv zeta in Em, Ec. fold mk in Em. fold made in Em.
    fold clone in Ec. fold cloned in Ec. fold w4 in Ec.
    assert (Estep :
      if negb parentFound && negb made then
        exists e,
          (if negb parentFound
           then (run H "zfs" ["create"; "-p"; cloneParent cfg] None ;;; ret tt)%eff
           else ret tt) (mkSt tt w2)
          = (Throw e, mkSt tt (next H w2 mk), [ran mk false])
      else
        (if negb parentFound
         then (run H "zfs" ["create"; "-p"; cloneParent cfg] None ;;; ret tt)%eff
         else ret tt) (mkSt tt w2)
        = (Val tt, mkSt tt w3, if parentFound then [] else [ran mk true])).
    { subst w3. destruct parentFound; cbv beta iota delta [negb andb].
      - reflexivity.
      - destruct made.
        + destruct Em as (res & Em). erewrite bind_val by exact Em. reflexivity.
        + destruct Em as (e & Em). exists e. erewrite bind_throw by exact Em.
          reflexivity. }
    destruct (negb parentFound && negb made).
    + destruct Estep as (e & Estep).
      erewrite bind_throw in E by exact Estep.
      injection E as <- <- <-. split; [eauto|]. split; reflexivity.
    + erewrite bind_val in E by exact Estep.
      destruct cloned; cbv beta iota delta [negb].
      * destruct Ec as (res & Ec). erewrite bind_val in E by exact Ec.
        apply Hreads. subst prepared lookups. simpl.
        destruct (cloneMountpoint H dataset _) as [[r1 s1] t1].
        injection E as <- <- <-.
        destruct parentFound; reflexivity.
      * destruct Ec as (e & Ec). erewrite bind_throw in E by exact Ec.
        injection E as <- <- <-. split; [eauto|]. split; [reflexivity|].
        subst prepared lookups. destruct parentFound; reflexivity.
Qed.

(** *** Steps that succeed *)

Lemma failures_app (a b : list Event) :
  failures (a ++ b) = (failures a ++ failures b)%list.
Proof. unfold failures. now rewrite filter_app, map_app. Qed.

Lemma host_call_inv {A} (call : HostCall) (f : W -> (A + ErrObj) * W) (st : @Jst W)
    (r : res A) (st' : @Jst W) (t : list Event) :
  host_call call f st = (r, st', t) ->
  (exists a, r = Val a /\ t = [(call, true)])
  \/ (exists e, r = Throw e /\ t = [(call, false)]).
Proof.
  unfold host_call. destruct (f (world st)) as [[a|e] w'];
    intros E; injection E as <- <- <-; eauto.
Qed.

Lemma quiet_call_inv {A} (f : W -> (A + ErrObj) * W) (st : @Jst W)
    (r : res A) (st' : @Jst W) (t : list Event) :
  quiet_call f st = (r, st', t) -> t = [].
Proof.
  unfold quiet_call. destruct (f (world st)) as [[a|e] w'];
    intros E; inversion E; reflexivity.
Qed.

Lemma jailExec_inv (jailName : string) (command : list string)
    (opts : option JailExecOpts) (st : Jst) (r : res ExecResult) (st' : Jst)
    (t : list Event) :
  flag (opt opts opt_allowFailure) = false ->
  jailExec H jailName command opts st = (r, st', t) ->
  (exists res, r = Val res /\ t = [ran (jexec_cmd jailName command opts) true])
  \/ (exists e, r = Throw e /\ t = [ran (jexec_cmd jailName command opts) false]).
Proof.
  intros Hf. unfold jailExec, try_catch, bind, execFileAsync, host_call, ret, throw.
  rewrite Hf. destruct (h_execFile H (world st) _) as [[out|e] w']; simpl;
    intros E; injection E as <- <- <-; eauto.
Qed.

(** Take a run apart, down to single calls. *)
Ltac inv_all :=
  repeat match goal with
    | E : bind _ _ _ = _ |- _ => inv_run E
    | E : ret _ _ = _ |- _ => inv_run E
    | E : throw _ _ = _ |- _ => inv_run E
    | E : Val _ = Val _ |- _ => injection E as E; try subst
    | E : Val _ = Throw _ |- _ => discriminate E
    | E : Throw _ = Val _ |- _ => discriminate E
    | E : Throw _ = Throw _ |- _ => injection E as E; try subst
    | E : run _ _ _ (Some true) _ = _ |- _ =>
        apply run_tolerant_inv in E as (? & ? & ? & ?); subst
    | E : run _ _ _ None _ = _ |- _ =>
        apply run_strict_inv in E as [(? & ? & ?)|(? & ? & ?)]; subst
    | E : mkdir _ _ _ = _ |- _ =>
        unfold mkdir in E;
        apply host_call_inv in E as [(? & ? & ?)|(? & ? & ?)]; subst
    | E : fs_writeFile _ _ _ _ = _ |- _ =>
        unfold fs_writeFile in E;
        apply host_call_inv in E as [(? & ? & ?)|(? & ? & ?)]; subst
    | E : fs_readFile _ _ _ = _ |- _ =>
        unfold fs_readFile in E;
        apply host_call_inv in E as [(? & ? & ?)|(? & ? & ?)]; subst
    | E : quiet_call _ _ = _ |- _ => apply quiet_call_inv in E; subst
    | E : try_catch _ _ _ = _ |- _ =>
        apply try_catch_inv in E as [(? & ? & ?)|(? & ? & ? & ? & ? & ? & ?)];
        try subst
    | E : jailContainerState _ _ _ = _ |- _ =>
        apply jailContainerState_inv in E as (? & ? & ? & ?); subst
    | E : zfsDatasetExists _ _ _ = _ |- _ =>
        apply zfsDatasetExists_inv in E as (? & ? & ? & ?); subst
    | E : cloneMountpoint _ _ _ = _ |- _ =>
        apply cloneMountpoint_inv in E as [(? & ? & ?)|(? & ? & ?)]; subst
    | E : unmountAllUnder _ _ _ = _ |- _ =>
        apply unmountAllUnder_inv in E as (? & ? & ?); subst
    | E : zfsDestroyClone _ _ _ _ = _ |- _ =>
        apply zfsDestroyClone_inv in E as (? & ? & ?); subst
    | E : (if ?b then _ else _) _ = _ |- _ => destruct b eqn:?; simpl in E
    end.

(** Nothing failed, or only calls of the list [allowed]. *)
Ltac only_failures :=
  repeat match goal with |- context [ran _ ?ok] => is_var ok; destruct ok end;
  intros ? ?; simpl in *; tauto.

Lemma forEach_val {A} (f : A -> M (@Jst W) unit) (P : list Event -> Prop) :
  P [] ->
  (forall a b, P a -> P b -> P (a ++ b)%list) ->
  (forall x st r st' t, f x st = (Val r, st', t) -> P t) ->
  forall l st r st' t, forEach l f st = (Val r, st', t) -> P t.
Proof.
  intros Hnil Happ Hf. induction l as [|x l IH]; intros st r st' t E; simpl in E.
  - inv_run E. exact Hnil.
  - inv_run E; [|discriminate]. apply Happ; eauto.
Qed.

Lemma no_failures_app (a b : list Event) :
  failures a = [] -> failures b = [] -> failures (a ++ b) = [].
Proof. intros Ha Hb. now rewrite failures_app, Ha, Hb. Qed.

Lemma mountNullfs_val (src dst : string) (readOnly : bool) (st : Jst) (a : unit)
    (st' : Jst) (t : list Event) :
  mountNullfs H src dst readOnly st = (Val a, st', t) -> failures t = [].
Proof. unfold mountNullfs. intros E. inv_all. reflexivity. Qed.

Lemma mountTmpfs_val (dst : string) (st : Jst) (a : unit) (st' : Jst)
    (t : list Event) :
  mountTmpfs H dst st = (Val a, st', t) -> failures t = [].
Proof. unfold mountTmpfs. intros E. inv_all. reflexivity. Qed.

Lemma mountDevfs_val (jailRoot : string) (ruleset : Z) (st : Jst) (a : unit)
    (st' : Jst) (t : list Event) :
  mountDevfs H I jailRoot ruleset st = (Val a, st', t) ->
  incl (failures t) [CallExecFile (run_cmd "mount" ["-t"; "devfs"])].
Proof. unfold mountDevfs. intros E. inv_all; only_failures. Qed.

Lemma writeResolvConf_val (jailRoot : string) (dns : list string) (st : Jst)
    (a : unit) (st' : Jst) (t : list Event) :
  writeResolvConf H I jailRoot dns st = (Val a, st', t) -> failures t = [].
Proof. unfold writeResolvConf. intros E. inv_all. reflexivity. Qed.

Lemma writeExtraHosts_val (jailRoot : string) (entries : list string) (st : Jst)
    (a : unit) (st' : Jst) (t : list Event) :
  writeExtraHosts H I jailRoot entries st = (Val a, st', t) ->
  incl (failures t)
    [CallReadFile (path_join I (path_join I jailRoot "etc") "hosts")].
Proof. unfold writeExtraHosts. intros E. inv_all; only_failures. Qed.

Lemma applyRctlRules_val (rules : list string) (st : Jst) (a : unit) (st' : Jst)
    (t : list Event) :
  applyRctlRules H rules st = (Val a, st', t) -> failures t = [].
Proof.
  unfold applyRctlRules.
  apply (forEach_val _ (fun t => failures t = []));
    [reflexivity|apply no_failures_app|].
  intros x s r s' t' E. inv_all. reflexivity.
Qed.

Lemma zfsClone_val (cfg : SandboxJailConfig) (jailName : string) (st : Jst)
    (root : string) (st' : Jst) (t : list Event) :
  zfsClone H cfg jailName st = (Val root, st', t) ->
  incl (failures t)
    [CallExecFile (run_cmd "zfs" ["list"; "-H"; "-o"; "name"; cloneDataset cfg jailName]);
     CallExecFile (run_cmd "zfs" ["list"; "-H"; "-o"; "name"; cloneParent cfg])] /\
  In (ran (run_cmd "zfs" ["get"; "-H"; "-o"; "value"; "mountpoint";
                          cloneDataset cfg jailName]) true) t.
Proof.
  unfold zfsClone. intros E. inv_all.
  all: split; [only_failures|rewrite ?in_app_iff; simpl; auto 10].
Qed.

Lemma forEach_no_failures {A} (f : A -> M (@Jst W) unit) :
  (forall x st r st' t, f x st = (Val r, st', t) -> failures t = []) ->
  forall l st r st' t, forEach l f st = (Val r, st', t) -> failures t = [].
Proof.
  intros Hf. apply (forEach_val f (fun t => failures t = []));
    [reflexivity|apply no_failures_app|exact Hf].
Qed.

Lemma provision_val (jailName jailRoot : string) (cfg : SandboxJailConfig)
    (workspaceDir workspaceAccess agentWorkspaceDir : string) (st : Jst)
    (a : unit) (st' : Jst) (t : list Event) :
  provision H I jailName jailRoot cfg workspaceDir workspaceAccess agentWorkspaceDir st
  = (Val a, st', t) ->
  incl (failures t)
    [CallExecFile (run_cmd "mount" ["-t"; "devfs"]);
     CallReadFile (path_join I (path_join I jailRoot "etc") "hosts")] /\
  In (ran (run_cmd "jail" (buildJailCreateArgs jailName jailRoot cfg)) true) t.
Proof.
  unfold provision, mountWorkspaces. intros E.
  destruct (dns cfg) as [[|d ds]|]; destruct (extraHosts cfg) as [[|h hs]|];
    destruct (buildRctlRules jailName cfg) as [|rule rules];
    destruct (setupCommand cfg) as [c|].
  all: repeat match goal with
    | E : bind _ _ _ = (Val _, _, _) |- _ => inv_run E; [|discriminate]
    | E : ret _ _ = _ |- _ => inv_run E
    | E : mountDevfs _ _ _ _ _ = (Val _, _, _) |- _ => apply mountDevfs_val in E
    | E : mountNullfs _ _ _ _ _ = (Val _, _, _) |- _ => apply mountNullfs_val in E
    | E : forEach _ (fun entry => mountTmpfs _ _) _ = (Val _, _, _) |- _ =>
        apply forEach_no_failures in E;
        [|intros; eapply mountTmpfs_val; eassumption]
    | E : forEach _ (fun m => mountNullfs _ _ _ _) _ = (Val _, _, _) |- _ =>
        apply forEach_no_failures in E;
        [|intros; eapply mountNullfs_val; eassumption]
    | E : writeResolvConf _ _ _ _ _ = (Val _, _, _) |- _ =>
        apply writeResolvConf_val in E
    | E : writeExtraHosts _ _ _ _ _ = (Val _, _, _) |- _ =>
        apply writeExtraHosts_val in E
    | E : applyRctlRules _ _ _ = (Val _, _, _) |- _ => apply applyRctlRules_val in E
    | E : run _ _ _ None _ = (Val _, _, _) |- _ =>
        apply run_strict_inv in E as [(? & _ & ?)|(? & [=] & _)]; subst
    | E : jailExec _ _ _ _ _ = (Val _, _, _) |- _ =>
        apply jailExec_inv in E;
        [destruct E as [(? & _ & ?)|(? & [=] & _)]; subst|reflexivity]
    | E : (if ?b then _ else _) _ = _ |- _ => destruct b eqn:?
    end.
  all: split;
    [ rewrite !failures_app;
      repeat match goal with Hf : failures _ = [] |- _ => rewrite Hf; clear Hf end;
      intros call Hc; rewrite ?in_app_iff in Hc; simpl in Hc;
      repeat match goal with
        | Hi : incl (failures _) _ |- _ => specialize (Hi call); simpl in Hi
        end;
      simpl; tauto
    | rewrite !in_app_iff; simpl; tauto ].
Qed.

Lemma createJail_val (jailName : string) (cfg : SandboxJailConfig)
    (workspaceDir workspaceAccess agentWorkspaceDir : string) (st : Jst)
    (a : unit) (st' : Jst) (t : list Event) :
  createJail H I jailName cfg workspaceDir workspaceAccess agentWorkspaceDir st
  = (Val a, st', t) ->
  exists jailRoot,
    In (ran (run_cmd "jail" (buildJailCreateArgs jailName jailRoot cfg)) true) t.
Proof.
  unfold createJail. intros E.
  apply bind_inv in E as [(root & s1 & t1 & tc & Ez & Ec & ->)|(e0 & _ & [=])].
  apply try_catch_inv in Ec as [(a' & Ep & _)|(e & s2 & t2 & t3 & _ & Eh & _)].
  2:{ inv_all. }
  apply provision_val in Ep as (_ & Hj).
  exists root. apply in_or_app. right. exact Hj.
Qed.

(** X10: [createJail] is all or nothing as far as its return goes.  When it
    returns normally, the only calls that may have failed are the three
    existence probes (the clone, its parent, the devfs mount) and the reading
    of [etc/hosts] under the jail root, which [writeExtraHosts] replaces by a
    default text: every directory, mount, file write, rctl rule and the
    setup command succeeded, the jail root is the mountpoint [zfsClone]
    returned, and [jail -c] ran with the arguments of [buildJailCreateArgs]
    for that root and succeeded. *)
Theorem createJail_all_or_nothing (jailName : string) (cfg : SandboxJailConfig)
    (workspaceDir workspaceAccess agentWorkspaceDir : string) (st : Jst)
    (st' : Jst) (t : list Event) :
  createJail H I jailName cfg workspaceDir workspaceAccess agentWorkspaceDir st
  = (Val tt, st', t) ->
  exists jailRoot,
    result_of (zfsClone H cfg jailName) st = Val jailRoot /\
    incl (failures t)
      [CallExecFile (run_cmd "zfs" ["list"; "-H"; "-o"; "name"; cloneDataset cfg jailName]);
       CallExecFile (run_cmd "zfs" ["list"; "-H"; "-o"; "name"; cloneParent cfg]);
       CallExecFile (run_cmd "mount" ["-t"; "devfs"]);
       CallReadFile (path_join I (path_join I jailRoot "etc") "hosts")] /\
    In (ran (run_cmd "zfs" ["get"; "-H"; "-o"; "value"; "mountpoint";
                            cloneDataset cfg jailName]) true) t /\
    In (ran (run_cmd "jail" (buildJailCreateArgs jailName jailRoot cfg)) true) t.
Proof.
  unfold createJail. intros E.
  apply bind_inv in E as [(root & s1 & t1 & tc & Ez & Ec & ->)|(e0 & _ & [=])].
  apply try_catch_inv in Ec as [(a' & Ep & _)|(e & s2 & t2 & t3 & _ & Eh & _)].
  2:{ inv_all. }
  exists root. split; [unfold result_of; now rewrite Ez|].
  apply zfsClone_val in Ez as (Hz & Hg).
  apply provision_val in Ep as (Hp & Hj).
  split; [|split].
  - rewrite failures_app. intros c Hc. apply in_app_or in Hc as [Hc|Hc].
    + apply Hz in Hc. simpl in *. tauto.
    + apply Hp in Hc. simpl in *. tauto.
  - apply in_or_app. left. exact Hg.
  - apply in_or_app. right. exact Hj.
Qed.

(** X11: when [createJail] throws, either the clone step itself failed and
    nothing else was tried (there is no teardown then), or a later step
    failed: the sandbox is then torn down by [destroyJailSandbox], run to
    its end from the state of the failure, and the exception thrown is the
    one of the failed step, whether the teardown succeeded or not. *)
Theorem createJail_rollback (jailName : string) (cfg : SandboxJailConfig)
    (workspaceDir workspaceAccess agentWorkspaceDir : string) (st : Jst)
    (e : thrown) (st' : Jst) (t : list Event) :
  createJail H I jailName cfg workspaceDir workspaceAccess agentWorkspaceDir st
  = (Throw e, st', t) ->
  zfsClone H cfg jailName st = (Throw e, st', t)
  \/ exists jailRoot s1 t1 s2 t2,
       zfsClone H cfg jailName st = (Val jailRoot, s1, t1) /\
       provision H I jailName jailRoot cfg workspaceDir workspaceAccess
         agentWorkspaceDir s1 = (Throw e, s2, t2) /\
       st' = state_after (destroyJailSandbox H jailName cfg) s2 /\
       t = (t1 ++ t2 ++ events_of (destroyJailSandbox H jailName cfg) s2)%list /\
       In (run_cmd "rctl" ["-r"; ("jail:" ++ jailName)%string])
          (commands (events_of (destroyJailSandbox H jailName cfg) s2)).
Proof.
  unfold createJail. intros E.
  apply bind_inv in E as [(root & s1 & t1 & tc & Ez & Ec & ->)|(e0 & Ez & [= <-])];
    [right|left; exact Ez].
  apply try_catch_inv in Ec
    as [(a & _ & [=])|(e0 & s2 & t2 & t3 & Ep & Eh & ->)].
  apply bind_inv in Eh as [(u & s3 & t4 & t5 & Ed & Et & ->)|(e1 & Ed & _)].
  2:{ apply try_catch_inv in Ed
        as [(a & _ & [=])|(e2 & s4 & t6 & t7 & _ & Er & _)].
      apply ret_inv in Er as ([=] & _). }
  apply throw_inv in Et as ([= <-] & -> & ->).
  exists root, s1, t1, s2, t2. split; [exact Ez|]. split; [exact Ep|].
  unfold state_after, events_of.
  assert (Hd : exists r, destroyJailSandbox H jailName cfg s2 = (r, s3, t4)).
  { apply try_catch_inv in Ed as [(a & -> & _)|(e1 & s4 & t6 & t7 & -> & Er & ->)].
    - eauto.
    - apply ret_inv in Er as (_ & -> & ->). rewrite app_nil_r. eauto. }
  destruct Hd as (r & Hd). rewrite Hd. simpl.
  split; [reflexivity|]. split; [now rewrite app_nil_r|].
  clear - Hd. unfold destroyJailSandbox, removeRctlRules in Hd.
  inv_all; rewrite ?commands_app'; simpl; rewrite ?in_app_iff; simpl; auto 10.
Qed.

(** *** [ensureJailSandbox] *)

Lemma now_inv (st : Jst) (r : res Z) (st' : Jst) (t : list Event) :
  now I st = (r, st', t) -> r = Val (dateNow I (world st)) /\ st' = st /\ t = [].
Proof. unfold now. intros E. now injection E as <- <- <-. Qed.

Lemma log_inv (level : LogLevel) (msg : string) (st : @Jst W) (r : res unit)
    (st' : @Jst W) (t : list Event) :
  log level msg st = (r, st', t) -> r = Val tt /\ t = [(CallLog level msg, true)].
Proof. unfold log. intros E. now injection E as <- <- <-. Qed.

(** X12: [ensureJailSandbox] returns normally only with a jail behind the
    name it returns.  Either [jls] reported the jail, the registry was read,
    the hash it holds for the jail is the expected one or the jail is hot,
    and no other command was run; or [jail -c] was run for that name and
    succeeded.  A jail that [jls] does not report is therefore always
    created.  The name is the prefix and slug cut to 64 characters and
    sanitised. *)
Theorem ensureJailSandbox_outcomes (sessionKey workspaceDir agentWorkspaceDir : string)
    (scope : Scope) (jailCfg : SandboxJailConfig) (workspaceAccess : string)
    (st : Jst) (name : string) (st' : Jst) (t : list Event) :
  ensureJailSandbox H I sessionKey workspaceDir agentWorkspaceDir scope jailCfg
    workspaceAccess st = (Val name, st', t) ->
  let slug :=
    match scope with
    | shared => "shared"
    | _ => slugifySessionKey I (resolveSandboxScopeKey I scope sessionKey)
    end in
  let expectedHash :=
    computeSandboxConfigHash I jailCfg workspaceAccess workspaceDir
      agentWorkspaceDir in
  let jls := run_cmd "jls" ["-j"; name; "jid"] in
  let created :=
    exists jailRoot,
      In (ran (run_cmd "jail" (buildJailCreateArgs name jailRoot jailCfg)) true) t in
  name = jailNameOf (jailPrefix jailCfg) slug /\
  (jailReported H (world st) name = false -> created) /\
  ((jailReported H (world st) name = true /\
    commands t = [jls] /\
    exists reg w2,
      readRegistry I (next H (world st) jls) = (inl reg, w2) /\
      let entry := find (fun e => String.eqb (containerName e) name) reg in
      (hashMismatch entry expectedHash = true ->
       isHot true entry (dateNow I (world st)) = true))
   \/ created).
Proof.
  intros E slug expectedHash. unfold ensureJailSandbox in E.
  fold slug in E. fold expectedHash in E.
  set (jailName := jailNameOf (jailPrefix jailCfg) slug) in *.
  destruct st as [[] w]. simpl world.
  apply bind_inv in E as [(nw & s0 & t0 & ta & En & E & ->)|(e0 & _ & [=])].
  apply now_inv in En as ([= ->] & -> & ->). simpl world in E.
  rewrite (bind_val _ _ _ _ _ _ (jailContainerState_eq jailName w)) in E.
  simpl fst in E. simpl snd in E.
  destruct (bind _ _ _) as [[r1 s1] t1] eqn:E1 in E.
  injection E as -> -> <-.
  apply bind_inv in E1 as [(hasJail & s2 & t2 & tc & Ed & E & ->)|(e0 & _ & [=])].
  apply bind_inv in E as [(u & s3 & t3 & td & Ec & E & ->)|(e0 & _ & [=])].
  apply bind_inv in E as [(u' & s4 & t4 & te & Eu & E & ->)|(e0 & _ & [=])].
  apply quiet_call_inv in Eu as ->. apply ret_inv in E as ([= ->] & _ & ->).
  intros jls created. split; [reflexivity|].
  assert (Hkept :
    hasJail = true ->
    jailReported H w jailName = true /\ commands t2 = [] /\
    exists reg w2,
      readRegistry I (next H w jls) = (inl reg, w2) /\
      let entry := find (fun e => String.eqb (containerName e) jailName) reg in
      (hashMismatch entry expectedHash = true ->
       isHot true entry (dateNow I w) = true)).
  { intros ->. destruct (jailReported H w jailName);
      [|apply ret_inv in Ed as ([=] & _)].
    split; [reflexivity|].
    apply bind_inv in Ed as [(reg & s5 & t5 & tf & Er & Ed & ->)|(e0 & _ & [=])].
    pose proof (quiet_call_inv _ _ _ _ _ Er) as ->.
    unfold quiet_call in Er. simpl world in Er. fold jls in Er.
    destruct (readRegistry I (next H w jls)) as [[reg'|e'] w2] eqn:Hreg;
      [|discriminate Er].
    injection Er as -> <-.
    cbv zeta in Ed.
    destruct (hashMismatch _ _) eqn:Hm.
    - destruct (isHot _ _ _) eqn:Hh.
      + apply bind_inv in Ed as [(u1 & s6 & t6 & tg & El & Ed & ->)|(e0 & _ & [=])].
        apply log_inv in El as (_ & ->). apply ret_inv in Ed as (_ & _ & ->).
        split; [reflexivity|]. exists reg, w2. split; [reflexivity|].
        cbv zeta. intros _. exact Hh.
      + apply bind_inv in Ed as [(u1 & s6 & t6 & tg & El & Ed & ->)|(e0 & _ & [=])].
        apply ret_inv in Ed as ([=] & _).
    - apply ret_inv in Ed as (_ & _ & ->).
      split; [reflexivity|]. exists reg, w2. split; [reflexivity|].
      cbv zeta. rewrite Hm. discriminate. }
  assert (Hcreated : hasJail = false -> created).
  { intros ->. simpl in Ec. apply createJail_val in Ec as (root & Hin).
    exists root. simpl. right. rewrite !in_app_iff. tauto. }
  destruct hasJail.
  - destruct (Hkept eq_refl) as (Hrep & Hq & Hreg).
    split; [rewrite Hrep; discriminate|]. left.
    split; [exact Hrep|]. split; [|exact Hreg].
    simpl in Ec. apply ret_inv in Ec as (_ & _ & ->).
    simpl. rewrite !commands_app', Hq. reflexivity.
  - split; [|right]; auto.
Qed.

Lemma jailContainerState_found (jailName : string) (w w1 : W) (out : ExecOutput) :
  h_execFile H w (run_cmd "jls" ["-j"; jailName; "jid"]) = (inl out, w1) ->
  truthy (trim (stdout out)) = true ->
  jailContainerState H jailName (mkSt tt w)
  = (Val (true, true), mkSt tt w1,
     [ran (run_cmd "jls" ["-j"; jailName; "jid"]) true]).
Proof.
  intros Hj Ht. unfold_ops. simpl. unfold run_cmd in Hj. rewrite Hj. simpl.
  rewrite Ht. reflexivity.
Qed.

(** X13: a jail that is there and whose registry entry carries the expected
    hash, or that was used within the hot window when the hash differs, is
    kept: [ensureJailSandbox] runs [jls] and nothing else, logs one line in
    the hot case, and returns the name.  In both cases the registry entry is
    rewritten with the expected hash and the current time, so a hot jail
    with a changed configuration is recorded as if it had the new one. *)
Theorem ensureJailSandbox_keeps (sessionKey workspaceDir agentWorkspaceDir : string)
    (scope : Scope) (jailCfg : SandboxJailConfig) (workspaceAccess : string)
    (w w1 w2 w3 : W) (out : ExecOutput) (reg : list RegistryEntry) :
  let scopeKey := resolveSandboxScopeKey I scope sessionKey in
  let slug :=
    match scope with shared => "shared" | _ => slugifySessionKey I scopeKey end in
  let jailName := jailNameOf (jailPrefix jailCfg) slug in
  let expectedHash :=
    computeSandboxConfigHash I jailCfg workspaceAccess workspaceDir
      agentWorkspaceDir in
  let entry := find (fun e => String.eqb (containerName e) jailName) reg in
  let drift := hashMismatch entry expectedHash in
  let note :=
    ("Jail config changed for " ++ jailName
       ++ " (recently used). Recreate to apply: "
       ++ formatRecreateHint I scope scopeKey)%string in
  h_execFile H w (run_cmd "jls" ["-j"; jailName; "jid"]) = (inl out, w1) ->
  truthy (trim (stdout out)) = true ->
  readRegistry I w1 = (inl reg, w2) ->
  (drift = true -> isHot true entry (dateNow I w) = true) ->
  updateRegistry I w2
    (mkRegistryEntry jailName scopeKey (dateNow I w) (Some (dateNow I w))
       ("zfs:" ++ snapshotPath jailCfg) (Some expectedHash)) = (inl tt, w3) ->
  ensureJailSandbox H I sessionKey workspaceDir agentWorkspaceDir scope jailCfg
    workspaceAccess (mkSt tt w)
  = (Val jailName, mkSt tt w3,
     ran (run_cmd "jls" ["-j"; jailName; "jid"]) true
       :: (if drift then [(CallLog Info note, true)] else [])).
Proof.
  intros scopeKey slug jailName expectedHash entry drift note Hj Ht Hr Hhot Hu.
  unfold ensureJailSandbox.
  fold scopeKey. fold slug. fold jailName. fold expectedHash.
  erewrite bind_val by reflexivity.
  erewrite bind_val by exact (jailContainerState_found jailName w w1 out Hj Ht).
  simpl fst. simpl snd. cbv iota.
  assert (Hd :
    (registry <- quiet_call (readRegistry I) ;;
     let entry := find (fun e => String.eqb (containerName e) jailName) registry in
     if hashMismatch entry expectedHash then
       if isHot true entry (dateNow I w) then
         (log Info note ;;; ret true)
       else (destroyJailSandbox H jailName jailCfg ;;; ret false)
     else ret true)%eff (mkSt tt w1)
    = (Val true, mkSt tt w2, if drift then [(CallLog Info note, true)] else [])).
  { unfold bind at 1. unfold quiet_call at 1. simpl world. rewrite Hr.
    cbv zeta. fold entry. fold drift. simpl world. destruct drift eqn:Ed.
    - rewrite (Hhot eq_refl). reflexivity.
    - reflexivity. }
  erewrite bind_val by exact Hd. simpl negb. cbv iota.
  erewrite bind_val by reflexivity.
  unfold bind, quiet_call, ret. simpl world. rewrite Hu. simpl.
  rewrite !app_nil_r. reflexivity.
Qed.

End WithHost.

Lemma destroyJailSandbox_absent_witness :
  exists t,
    destroyJailSandbox box_host "oc-abc" strict_cfg (box empty_box)
    = (Val tt, box empty_box, t) /\
    commands t
    = [run_cmd "jls" ["-j"; "oc-abc"; "jid"];
       run_cmd "rctl" ["-r"; "jail:oc-abc"];
       run_cmd "zfs" ["list"; "-H"; "-o"; "name"; "zroot/jails/sandboxes/oc-abc"];
       run_cmd "zfs" ["list"; "-H"; "-o"; "name"; "zroot/jails/sandboxes/oc-abc"]].
Proof.
  exact (destroyJailSandbox_absent box_host "oc-abc" strict_cfg empty_box
           eq_refl eq_refl eq_refl).
Defined.

Lemma destroyJailSandbox_order_witness :
  exists st' t,
    destroyJailSandbox box_host "oc-abc" strict_cfg (box live_box) = (Val tt, st', t) /\
    commands t
    = (run_cmd "jls" ["-j"; "oc-abc"; "jid"]
         :: run_cmd "jail" ["-r"; "oc-abc"]
         :: run_cmd "rctl" ["-r"; "jail:oc-abc"]
         :: run_cmd "zfs" ["list"; "-H"; "-o"; "name"; "zroot/jails/sandboxes/oc-abc"]
         :: run_cmd "zfs" ["get"; "-H"; "-o"; "value"; "mountpoint";
                           "zroot/jails/sandboxes/oc-abc"]
         :: run_cmd "mount" ["-p"]
         :: map (fun mp => run_cmd "umount" ["-f"; mp])
              ["/jails/a/workspace/tmp"; "/jails/a/workspace"; "/jails/a/dev";
               "/jails/a"]
         ++ [run_cmd "zfs" ["list"; "-H"; "-o"; "name"; "zroot/jails/sandboxes/oc-abc"];
             run_cmd "zfs" ["destroy"; "-r"; "zroot/jails/sandboxes/oc-abc"]])%list.
Proof.
  destruct (destroyJailSandbox_order box_host "oc-abc" strict_cfg live_box)
    as (r & st' & t & E & Hm).
  vm_compute in Hm. destruct Hm as (-> & Hc & _).
  exists st', t. split; [exact E|exact Hc].
Defined.

Lemma zfsClone_steps_witness :
  zfsClone box_host strict_cfg "oc-abc" (box empty_box)
  = (Val "/jails/a",
     box (set_cloned empty_box ["zroot/jails/sandboxes/oc-abc"; "zroot/jails/sandboxes"]),
     [ran (run_cmd "zfs" ["list"; "-H"; "-o"; "name"; "zroot/jails/sandboxes/oc-abc"]) false;
      ran (run_cmd "zfs" ["list"; "-H"; "-o"; "name"; "zroot/jails/sandboxes"]) false;
      ran (run_cmd "zfs" ["create"; "-p"; "zroot/jails/sandboxes"]) true;
      ran (run_cmd "zfs" ["clone"; "zroot/jails/base@clean";
                          "zroot/jails/sandboxes/oc-abc"]) true;
      ran (run_cmd "zfs" ["get"; "-H"; "-o"; "value"; "mountpoint";
                          "zroot/jails/sandboxes/oc-abc"]) true]).
Proof.
  destruct (zfsClone_steps box_host strict_cfg "oc-abc" empty_box)
    as (r & st' & t & E & Hs).
  vm_compute in Hs. destruct Hs as (-> & -> & ->). exact E.
Defined.

Lemma createJail_all_or_nothing_witness :
  let run := createJail box_host box_imports "oc-abc" strict_cfg "/ws" "rw" "/ws" in
  incl (failures (events_of run (box empty_box)))
    [CallExecFile (run_cmd "zfs" ["list"; "-H"; "-o"; "name";
                                  cloneDataset strict_cfg "oc-abc"]);
     CallExecFile (run_cmd "zfs" ["list"; "-H"; "-o"; "name"; cloneParent strict_cfg]);
     CallExecFile (run_cmd "mount" ["-t"; "devfs"]);
     CallReadFile "/jails/a/etc/hosts"].
Proof.
  intros run.
  destruct (createJail_all_or_nothing box_host box_imports "oc-abc" strict_cfg
              "/ws" "rw" "/ws" (box empty_box)
              (state_after run (box empty_box)) (events_of run (box empty_box)))
    as (root & Hroot & Hf & _).
  - vm_compute. reflexivity.
  - vm_compute in Hroot. injection Hroot as <-. exact Hf.
Defined.

Lemma createJail_rollback_witness :
  let run := createJail box_host box_imports "oc-abc" strict_cfg "/ws" "rw" "/ws" in
  result_of run (box bad_box) = Throw (thrown_of run (box bad_box)) /\
  In (run_cmd "rctl" ["-r"; "jail:oc-abc"]) (commands (events_of run (box bad_box))).
Proof.
  intros run. split; [vm_compute; reflexivity|].
  destruct (createJail_rollback box_host box_imports "oc-abc" strict_cfg
              "/ws" "rw" "/ws" (box bad_box) (thrown_of run (box bad_box))
              (state_after run (box bad_box)) (events_of run (box bad_box)))
    as [Hz|(root & s1 & t1 & s2 & t2 & _ & _ & _ & Et & Hin)].
  - vm_compute. reflexivity.
  - vm_compute in Hz. discriminate Hz.
  - rewrite Et, !commands_app', !in_app_iff. right. right. exact Hin.
Defined.

Lemma ensureJailSandbox_outcomes_witness :
  let run :=
    ensureJailSandbox box_host box_imports "abc" "/ws" "/ws" session strict_cfg "rw" in
  exists jailRoot,
    In (ran (run_cmd "jail" (buildJailCreateArgs "oc-abc" jailRoot strict_cfg)) true)
       (events_of run (box empty_box)).
Proof.
  intros run.
  refine (proj1 (proj2 (ensureJailSandbox_outcomes box_host box_imports "abc" "/ws"
                          "/ws" session strict_cfg "rw" (box empty_box) "oc-abc"
                          (state_after run (box empty_box))
                          (events_of run (box empty_box)) _)) _).
  - vm_compute. reflexivity.
  - vm_compute. reflexivity.
Defined.

Lemma ensureJailSandbox_keeps_witness :
  exists w3 note,
    ensureJailSandbox box_host box_imports "abc" "/ws" "/ws" session strict_cfg "rw"
      (box live_box)
    = (Val "oc-abc", mkSt tt w3,
       [ran (run_cmd "jls" ["-j"; "oc-abc"; "jid"]) true; (CallLog Info note, true)]) /\
    map configHash (registry w3) = [Some "/workspace:rw:/ws:/ws"].
Proof.
  do 2 eexists. split.
  - exact (ensureJailSandbox_keeps box_host box_imports "abc" "/ws" "/ws" session
             strict_cfg "rw" live_box live_box live_box _ _ _
             eq_refl eq_refl eq_refl (fun _ => eq_refl) eq_refl).
  - vm_compute. reflexivity.
Defined.

End LifecycleProps.
(* ------------------------------------------------------------------ *)
(** ** src/freebsd/zfs.ts: errors as values, the pool cache, snapshots *)

Module ZfsOpsProps.
Import Js Eff Zfs ZfsOps ZfsProps SandboxOpsProps LifecycleProps.

#[local] Arguments includes : simpl never.
#[local] Arguments trim : simpl never.
#[local] Arguments split : simpl never.
#[local] Arguments parentOf : simpl never.
#[local] Arguments sandboxDatasetName : simpl never.
#[local] Arguments workspaceDatasetName : simpl never.
#[local] Arguments baseSnapshotName : simpl never.

(** *** Computations that never throw *)

Lemma nt_ret {S A} (a : A) : never_throws (@ret S A a).
Proof. intros s. unfold ret. eauto. Qed.

Lemma nt_bind {S A B} (m : M S A) (k : A -> M S B) :
  never_throws m -> (forall a, never_throws (k a)) -> never_throws (bind m k).
Proof.
  intros Hm Hk s. destruct (Hm s) as (a & s1 & t1 & E).
  destruct (Hk a s1) as (b & s2 & t2 & E2).
  unfold bind. rewrite E, E2. eauto.
Qed.

Lemma nt_try {S A} (m : M S A) (h : thrown -> M S A) :
  (forall e, never_throws (h e)) -> never_throws (try_catch m h).
Proof.
  intros Hh s. unfold try_catch. destruct (m s) as [[[a|e] s1] t1]; [eauto|].
  destruct (Hh e s1) as (b & s2 & t2 & E2). rewrite E2. eauto.
Qed.

Lemma nt_get_vars {V W} : never_throws (@get_vars V W).
Proof. intros s. unfold get_vars. eauto. Qed.

Lemma nt_set_vars {V W} (v : V) : never_throws (@set_vars V W v).
Proof. intros s. unfold set_vars. eauto. Qed.

(** Settle [never_throws] along the structure of the code; a call that may
    throw is fine inside [try]. *)
Ltac nt :=
  repeat match goal with
    | |- never_throws (ret _) => apply nt_ret
    | |- never_throws get_vars => apply nt_get_vars
    | |- never_throws (set_vars _) => apply nt_set_vars
    | |- never_throws (bind _ _) => apply nt_bind; [|intros ?]
    | |- never_throws (try_catch _ _) => apply nt_try; intros ?
    | |- never_throws (match ?x with _ => _ end) => destruct x
    | |- never_throws (let _ := _ in _) => cbv zeta
    | H : never_throws ?m |- never_throws ?m => exact H
    | H : forall a, never_throws (?f a) |- never_throws (?f _) => apply H
    end.

(** *** Splitting and trimming *)

Lemma concat_cons (sep x : string) (l : list string) :
  String.concat sep (x :: l)
  = match l with [] => x | _ => (x ++ sep ++ String.concat sep l)%string end.
Proof. destruct l; reflexivity. Qed.

Lemma split_go_nonempty (sep : ascii) (s cur : string) : split_go sep cur s <> [].
Proof.
  revert cur. induction s as [|c r IH]; intros cur; simpl; [discriminate|].
  destruct (Ascii.eqb c sep); [discriminate|apply IH].
Qed.

Lemma split_go_concat (sep : ascii) (s cur : string) :
  String.concat (String sep "") (split_go sep cur s) = (cur ++ s)%string.
Proof.
  revert cur. induction s as [|c r IH]; intros cur; simpl.
  - now rewrite append_empty.
  - destruct (Ascii.eqb_spec c sep) as [->|Hne].
    + rewrite concat_cons.
      destruct (split_go sep "" r) as [|y l] eqn:E.
      * now apply split_go_nonempty in E.
      * rewrite <- E, IH. reflexivity.
    + rewrite IH, str_app_assoc. reflexivity.
Qed.

Lemma no_char_app (c : ascii) (a b : string) :
  no_char c (a ++ b) = no_char c a && no_char c b.
Proof.
  unfold no_char. induction a as [|d a IH]; simpl; [reflexivity|].
  now rewrite IH, andb_assoc.
Qed.

Lemma split_go_plain (sep : ascii) (a cur : string) :
  no_char sep a = true -> split_go sep cur a = [(cur ++ a)%string].
Proof.
  revert cur. induction a as [|d a IH]; intros cur Ha; simpl.
  - now rewrite append_empty.
  - unfold no_char in Ha. simpl in Ha. apply andb_true_iff in Ha as (Hd & Ha).
    apply negb_true_iff in Hd. rewrite Hd, IH by exact Ha.
    now rewrite str_app_assoc.
Qed.

Lemma split_go_sep (sep : ascii) (a rest cur : string) :
  no_char sep a = true ->
  split_go sep cur (a ++ String sep rest) = (cur ++ a)%string :: split_go sep "" rest.
Proof.
  revert cur. induction a as [|d a IH]; intros cur Ha; simpl.
  - now rewrite Ascii.eqb_refl, append_empty.
  - unfold no_char in Ha. simpl in Ha. apply andb_true_iff in Ha as (Hd & Ha).
    apply negb_true_iff in Hd. rewrite Hd, IH by exact Ha.
    now rewrite str_app_assoc.
Qed.

(** Splitting what was joined gives the parts back. *)
Lemma split_join (sep : ascii) (x : string) (l : list string) :
  forallb (no_char sep) (x :: l) = true ->
  split sep (String.concat (String sep "") (x :: l)) = x :: l.
Proof.
  unfold split. revert x. induction l as [|y l IH]; intros x Hall.
  - simpl in *. rewrite andb_true_r in Hall. now rewrite split_go_plain.
  - rewrite concat_cons. cbn [forallb] in Hall.
    apply andb_true_iff in Hall as (Hx & Hall).
    change (x ++ String sep "" ++ String.concat (String sep "") (y :: l))%string
      with (x ++ String sep (String.concat (String sep "") (y :: l)))%string.
    rewrite split_go_sep by exact Hx. rewrite IH by exact Hall. reflexivity.
Qed.

Lemma trimEnd_snoc_ws (c : ascii) (s : string) :
  is_ws c = true -> trimEnd (s ++ String c "") = trimEnd s.
Proof.
  intros Hc. induction s as [|d r IH]; simpl.
  - now rewrite Hc.
  - now rewrite IH.
Qed.

Lemma trimEnd_snoc (c : ascii) (s : string) :
  is_ws c = false -> trimEnd (s ++ String c "") = (s ++ String c "")%string.
Proof.
  intros Hc. induction s as [|d r IH].
  - simpl. now rewrite Hc.
  - simpl. rewrite IH. destruct r; reflexivity.
Qed.

Lemma word_first (s : string) :
  word s = true -> exists c r, s = String c r /\ is_ws c = false.
Proof.
  unfold word. destruct s as [|c r]; [discriminate|]. simpl.
  intros Hw. apply andb_true_iff in Hw as (Hc & _). apply negb_true_iff in Hc. eauto.
Qed.

Lemma word_last (s : string) :
  word s = true -> exists r c, s = (r ++ String c "")%string /\ is_ws c = false.
Proof.
  unfold word. induction s as [|c r IH]; [discriminate|]. simpl.
  intros Hw. apply andb_true_iff in Hw as (Hc & Hr). apply negb_true_iff in Hc.
  destruct r as [|d r].
  - exists "", c. split; [reflexivity|exact Hc].
  - destruct (IH Hr) as (r' & c' & E & Hc'). rewrite E.
    exists (String c r'), c'. split; [reflexivity|exact Hc'].
Qed.

Lemma word_plain (s : string) (c : ascii) : word s = true -> is_ws c = true ->
  no_char c s = true.
Proof.
  unfold word, no_char. intros Hw Hc. apply andb_true_iff in Hw as (_ & Hw).
  induction s as [|d r IH]; [reflexivity|]. simpl in *.
  apply andb_true_iff in Hw as (Hd & Hr). rewrite (IH Hr), andb_true_r.
  apply negb_true_iff. apply negb_true_iff in Hd.
  destruct (Ascii.eqb_spec d c) as [->|]; [congruence|reflexivity].
Qed.

(** Trimming a text that starts and ends with a word, plus a final newline. *)
Lemma trim_line (a b mid : string) :
  word a = true -> word b = true ->
  trim ((a ++ mid ++ b) ++ nl) = (a ++ mid ++ b)%string.
Proof.
  intros Ha Hb. destruct (word_first a Ha) as (c & r & -> & Hc).
  destruct (word_last b Hb) as (r' & c' & -> & Hc').
  unfold trim. cbn [append trimStart]. rewrite Hc.
  change (String c ((r ++ mid ++ r' ++ String c' "") ++ nl))
    with ((String c (r ++ mid ++ r' ++ String c' "")) ++ String "010"%char "")%string.
  rewrite trimEnd_snoc_ws by reflexivity.
  replace (String c (r ++ mid ++ r' ++ String c' ""))
    with ((String c (r ++ mid ++ r')) ++ String c' "")%string
    by (cbn [append]; now rewrite !str_app_assoc).
  now apply trimEnd_snoc.
Qed.

Lemma plain_fields (i : SnapshotInfo) :
  plain i = true ->
  word (s_name i) = true /\ one_line (s_creation i) = true /\
  one_line (s_used i) = true /\ word (s_referenced i) = true.
Proof.
  unfold plain. intros Hp.
  apply andb_true_iff in Hp as (Hp & H4). apply andb_true_iff in Hp as (Hp & H3).
  apply andb_true_iff in Hp as (H1 & H2). auto.
Qed.

(** Reading back a printed line. *)
Lemma parse_print (i : SnapshotInfo) :
  plain i = true -> parseSnapshot (printSnapshot i) = i.
Proof.
  intros Hp. apply plain_fields in Hp as (H1 & H2 & H3 & H4).
  unfold one_line in *. apply andb_true_iff in H2 as (H2 & _).
  apply andb_true_iff in H3 as (H3 & _).
  unfold parseSnapshot, printSnapshot.
  change (s_name i ++ tab ++ s_creation i ++ tab ++ s_used i ++ tab ++ s_referenced i)%string
    with (String.concat (String "009"%char "")
            [s_name i; s_creation i; s_used i; s_referenced i]).
  rewrite split_join.
  - destruct i. reflexivity.
  - cbn [forallb]. rewrite H2, H3.
    rewrite (word_plain _ "009"%char H1 eq_refl), (word_plain _ "009"%char H4 eq_refl).
    reflexivity.
Qed.

Lemma print_one_line (i : SnapshotInfo) :
  plain i = true -> no_char "010"%char (printSnapshot i) = true /\
                    truthy (printSnapshot i) = true.
Proof.
  intros Hp. apply plain_fields in Hp as (H1 & H2 & H3 & H4).
  unfold one_line in *. apply andb_true_iff in H2 as (_ & H2).
  apply andb_true_iff in H3 as (_ & H3).
  unfold printSnapshot. split.
  - rewrite !no_char_app, H2, H3.
    rewrite (word_plain _ "010"%char H1 eq_refl), (word_plain _ "010"%char H4 eq_refl).
    reflexivity.
  - destruct (word_first _ H1) as (c & r & -> & _). reflexivity.
Qed.

(** Reading back a printed listing. *)
Lemma lines_of_listing (l : list SnapshotInfo) :
  forallb plain l = true ->
  filter truthy (split "010"%char (trim (printListing l))) = map printSnapshot l.
Proof.
  intros Hall. unfold printListing, join.
  destruct l as [|i l]; [reflexivity|].
  assert (Htrim : trim (String.concat nl (map printSnapshot (i :: l)) ++ nl)
                  = String.concat nl (map printSnapshot (i :: l))).
  { cbn [forallb] in Hall. apply andb_true_iff in Hall as (Hi & Hl).
    destruct (plain_fields i Hi) as (H1 & _ & _ & H4).
    destruct (rev l) as [|j rl] eqn:Er.
    - apply (f_equal (@rev _)) in Er. rewrite rev_involutive in Er. subst l.
      simpl. unfold printSnapshot.
      replace (s_name i ++ tab ++ s_creation i ++ tab ++ s_used i ++ tab
                 ++ s_referenced i)%string
        with (s_name i ++ (tab ++ s_creation i ++ tab ++ s_used i ++ tab)
                ++ s_referenced i)%string
        by (now rewrite !str_app_assoc).
      now apply trim_line.
    - apply (f_equal (@rev _)) in Er. rewrite rev_involutive in Er. simpl in Er.
      subst l. rewrite forallb_app in Hl. apply andb_true_iff in Hl as (_ & Hj).
      simpl in Hj. rewrite andb_true_r in Hj.
      destruct (plain_fields j Hj) as (_ & _ & _ & H4j).
      assert (Hshape : exists mid,
                 String.concat nl (map printSnapshot (i :: rev rl ++ [j]))
                 = (s_name i ++ mid ++ s_referenced j)%string).
      { clear - i. revert i. induction (rev rl) as [|k m IH]; intros i.
        - simpl. unfold printSnapshot at 1 2.
          exists (tab ++ s_creation i ++ tab ++ s_used i ++ tab ++ s_referenced i ++ nl
                    ++ s_name j ++ tab ++ s_creation j ++ tab ++ s_used j ++ tab)%string.
          now rewrite !str_app_assoc.
        - destruct (IH k) as (mid & E).
          change (map printSnapshot (i :: (k :: m) ++ [j]))
            with (printSnapshot i :: map printSnapshot (k :: m ++ [j])).
          rewrite concat_cons.
          change (map printSnapshot (k :: m ++ [j]))
            with (printSnapshot k :: map printSnapshot (m ++ [j])) at 1.
          cbv iota. rewrite E. unfold printSnapshot at 1.
          exists (tab ++ s_creation i ++ tab ++ s_used i ++ tab ++ s_referenced i ++ nl
                    ++ s_name k ++ mid)%string.
          now rewrite !str_app_assoc. }
      destruct Hshape as (mid & E). rewrite E. now apply trim_line. }
  rewrite Htrim.
  change nl with (String "010"%char "").
  change (map printSnapshot (i :: l)) with (printSnapshot i :: map printSnapshot l).
  rewrite split_join.
  - clear Htrim. change (printSnapshot i :: map printSnapshot l)
      with (map printSnapshot (i :: l)).
    induction (i :: l) as [|k m IH]; [reflexivity|].
    cbn [forallb map filter] in *. apply andb_true_iff in Hall as (Hk & Hm).
    rewrite (proj2 (print_one_line k Hk)). f_equal. now apply IH.
  - change (printSnapshot i :: map printSnapshot l) with (map printSnapshot (i :: l)).
    clear Htrim. induction (i :: l) as [|k m IH]; [reflexivity|].
    cbn [forallb map] in *. apply andb_true_iff in Hall as (Hk & Hm).
    rewrite (proj1 (print_one_line k Hk)). now apply IH.
Qed.

#[local] Arguments append : simpl never.

Section WithHost.
Context {W : Type} (H : Host W).

Lemma nt_resolveZfsPool : never_throws (resolveZfsPool H).
Proof. unfold resolveZfsPool. nt. Qed.

Lemma nt_datasetExists (dataset : string) : never_throws (datasetExists H dataset).
Proof. unfold datasetExists. nt. Qed.

Lemma nt_resolveWorkspaceDatasetName (agentId : string) :
  never_throws (resolveWorkspaceDatasetName H agentId).
Proof. pose proof nt_resolveZfsPool. unfold resolveWorkspaceDatasetName. nt. Qed.

Lemma nt_resolveSandboxDatasetName (sessionKey : string) :
  never_throws (resolveSandboxDatasetName H sessionKey).
Proof. pose proof nt_resolveZfsPool. unfold resolveSandboxDatasetName. nt. Qed.

Lemma nt_cloneForSandbox (sessionKey : string) :
  never_throws (cloneForSandbox H sessionKey).
Proof.
  pose proof nt_resolveZfsPool. pose proof nt_datasetExists.
  pose proof nt_resolveSandboxDatasetName.
  unfold cloneForSandbox. nt.
Qed.

(** X14: the functions of zfs.ts that run their commands with the utf8
    encoding never throw: whatever the host answers, each returns a result,
    and a failure is a value of that result. *)
Theorem zfs_errors_are_values :
  never_throws (isZfsAvailable H) /\
  never_throws (resolveZfsPool H) /\
  (forall agentId, never_throws (ensureWorkspaceDataset H agentId)) /\
  (forall sessionKey, never_throws (ensureSandboxDataset H sessionKey)) /\
  (forall sessionKey, never_throws (destroySandboxDataset H sessionKey)) /\
  (forall agentId label, never_throws (createWorkspaceSnapshot H agentId label)) /\
  (forall agentId, never_throws (listWorkspaceSnapshots H agentId)) /\
  (forall agentId label, never_throws (rollbackWorkspace H agentId label)) /\
  (forall agentId label, never_throws (deleteSnapshot H agentId label)) /\
  never_throws (createBaseSnapshot H) /\
  (forall sessionKey, never_throws (cloneForSandbox H sessionKey)) /\
  (forall sessionKey, never_throws (promoteClone H sessionKey)) /\
  (forall agentId quota, never_throws (setWorkspaceQuota H agentId quota)) /\
  (forall dataset algorithm, never_throws (enableCompression H dataset algorithm)) /\
  (forall dataset, never_throws (getDatasetUsage H dataset)).
Proof.
  pose proof nt_resolveZfsPool. pose proof nt_datasetExists.
  pose proof nt_resolveWorkspaceDatasetName. pose proof nt_resolveSandboxDatasetName.
  pose proof nt_cloneForSandbox.
  repeat split; intros;
    unfold isZfsAvailable, ensureWorkspaceDataset, ensureSandboxDataset,
      destroySandboxDataset, createWorkspaceSnapshot, listWorkspaceSnapshots,
      rollbackWorkspace, deleteSnapshot, createBaseSnapshot, promoteClone,
      setWorkspaceQuota, enableCompression, getDatasetUsage;
    nt.
Qed.

Lemma resolveZfsPool_err (st st1 : State) (e : string) (c : option Z)
    (t1 : list Event) :
  resolveZfsPool H st = (Val (ZfsErr e c), st1, t1) ->
  vars st1 = vars st /\
  exists ok, t1 = [ran (zpool_cmd ["list"; "-H"; "-o"; "name"]) ok].
Proof.
  unfold resolveZfsPool, bind, get_vars, try_catch, zpool, execFileAsync, host_call,
    set_vars, ret.
  destruct (truthy_opt (vars st)); simpl; [discriminate|].
  destruct (h_execFile H (world st) _) as [[out|err] w]; simpl.
  - destruct (filter truthy _) as [|first rest]; simpl; [|discriminate].
    intros E. inversion E; subst. simpl. split; [reflexivity|].
    now exists true.
  - intros E. inversion E; subst. simpl. split; [reflexivity|].
    now exists false.
Qed.

(** X15: when no pool can be resolved, every operation that needs a dataset
    name returns the very error of [resolveZfsPool]: the only command run is
    [zpool list], no [zfs] command is issued, and the pool cache is left as
    it was, so that the next call asks again. *)
Theorem pool_failure_is_returned (st st1 : State) (e : string) (c : option Z)
    (t1 : list Event) :
  resolveZfsPool H st = (Val (ZfsErr e c), st1, t1) ->
  vars st1 = vars st /\
  commands t1 = [zpool_cmd ["list"; "-H"; "-o"; "name"]] /\
  (forall agentId,
      ensureWorkspaceDataset H agentId st = (Val (ZfsErr e c), st1, t1)) /\
  (forall sessionKey,
      ensureSandboxDataset H sessionKey st = (Val (ZfsErr e c), st1, t1)) /\
  (forall sessionKey,
      destroySandboxDataset H sessionKey st = (Val (ZfsErr e c), st1, t1)) /\
  (forall agentId label,
      createWorkspaceSnapshot H agentId label st = (Val (ZfsErr e c), st1, t1)) /\
  (forall agentId,
      listWorkspaceSnapshots H agentId st = (Val (ZfsErr e c), st1, t1)) /\
  (forall agentId label,
      rollbackWorkspace H agentId label st = (Val (ZfsErr e c), st1, t1)) /\
  (forall agentId label,
      deleteSnapshot H agentId label st = (Val (ZfsErr e c), st1, t1)) /\
  createBaseSnapshot H st = (Val (ZfsErr e c), st1, t1) /\
  (forall sessionKey,
      cloneForSandbox H sessionKey st = (Val (ZfsErr e c), st1, t1)) /\
  (forall sessionKey,
      promoteClone H sessionKey st = (Val (ZfsErr e c), st1, t1)) /\
  (forall agentId quota,
      setWorkspaceQuota H agentId quota st = (Val (ZfsErr e c), st1, t1)) /\
  (forall agentId label path,
      sendSnapshot H agentId label path st = (Val (ZfsErr e c), st1, t1)).
Proof.
  intros Hpool. destruct (resolveZfsPool_err _ _ _ _ _ Hpool) as (Hv & ok & Ht).
  split; [exact Hv|]. split; [subst t1; reflexivity|].
  repeat split; intros;
    unfold ensureWorkspaceDataset, ensureSandboxDataset, destroySandboxDataset,
      createWorkspaceSnapshot, listWorkspaceSnapshots, rollbackWorkspace,
      deleteSnapshot, createBaseSnapshot, cloneForSandbox, promoteClone,
      setWorkspaceQuota, sendSnapshot, resolveWorkspaceDatasetName,
      resolveSandboxDatasetName;
    unfold bind; rewrite Hpool; unfold ret; rewrite ?app_nil_r; reflexivity.
Qed.

(** X16: the pool is resolved once.  A successful [resolveZfsPool] yields a
    non-empty name and stores it; after that the same name is returned
    without any command, whatever the host would answer by then.  After
    [resetPoolCache] the next call asks [zpool list] again. *)
Theorem resolveZfsPool_once (st st1 : State) (pool : string) (t1 : list Event) :
  resolveZfsPool H st = (Val (ZfsOk pool), st1, t1) ->
  pool <> "" /\
  (forall w', resolveZfsPool H (mkSt (vars st1) w')
              = (Val (ZfsOk pool), mkSt (vars st1) w', [])) /\
  (forall w',
      commands (SandboxOps.events_of
                  (resetPoolCache ;;; resolveZfsPool H)%eff (mkSt (vars st1) w'))
      = [zpool_cmd ["list"; "-H"; "-o"; "name"]]).
Proof.
  intros Hpool. apply resolveZfsPool_ok in Hpool as (Hv & Ht & _).
  split; [intros ->; discriminate Ht|]. split.
  - intros w'. now apply resolveZfsPool_cached.
  - intros w'. unfold SandboxOps.events_of, resetPoolCache, resolveZfsPool, bind,
      set_vars, get_vars, try_catch, zpool, execFileAsync, host_call, ret.
    simpl. destruct (h_execFile H w' _) as [[out|err] w]; simpl.
    + destruct (filter truthy _) as [|first rest]; reflexivity.
    + reflexivity.
Qed.

(** X17: [ensureWorkspaceDataset] is idempotent: a dataset that [zfs list]
    finds is returned after that one lookup, and nothing is created.  A
    dataset that is not found is created with [zfs create -p] and lz4
    compression, and that is the only command that may change the pool. *)
Theorem ensureWorkspaceDataset_idempotent (agentId : string) (st st1 : State)
    (pool : string) (t0 : list Event) :
  resolveZfsPool H st = (Val (ZfsOk pool), st1, t0) ->
  let ds := workspaceDatasetName pool agentId in
  (listed H (world st1) ds = true ->
   ensureWorkspaceDataset H agentId st
   = (Val (ZfsOk ds), mkSt (vars st1) (next H (world st1) (list_cmd ds)),
      (t0 ++ [ran (list_cmd ds) true])%list)) /\
  (listed H (world st1) ds = false ->
   mutations (SandboxOps.events_of (ensureWorkspaceDataset H agentId) st)
   = [zfs_cmd ["create"; "-p"; "-o"; "compression=lz4"; ds]]).
Proof.
  intros Hpool ds.
  pose proof (resolveZfsPool_ok H _ _ _ _ Hpool) as (_ & _ & Hm).
  pose proof (resolveWorkspaceDatasetName_ok H agentId _ _ _ _ Hpool) as Hname.
  fold ds in Hname.
  pose proof (datasetExists_run H ds st1) as Hex.
  split; intros Hl; rewrite Hl in Hex.
  - unfold ensureWorkspaceDataset.
    erewrite bind_val by exact Hname. cbv iota beta.
    erewrite bind_val by exact Hex. cbv iota beta.
    unfold ret. now rewrite !app_nil_r.
  - unfold SandboxOps.events_of, ensureWorkspaceDataset.
    erewrite bind_val by exact Hname. cbv iota beta.
    erewrite bind_val by exact Hex. cbv iota beta.
    unfold try_catch, bind. unfold compression. simpl.
    rewrite zfs_run. simpl.
    destruct (fst (h_execFile H _ _)); simpl.
    + rewrite !mutations_app, Hm. reflexivity.
    + rewrite datasetExists_run. simpl.
      match goal with |- context [if ?b then _ else _] => destruct b end;
        simpl; rewrite !mutations_app, Hm; reflexivity.
Qed.

(** X18: [sendSnapshot] writes the file only after [zfs send] succeeded,
    and writes what the command printed; a failing write is returned as an
    error.  A failing send writes nothing, and it is not returned as an
    error: the rejection carries its [stderr] as a Buffer, on which the
    error handler throws a TypeError that leaves the function.  Only a
    rejection without [stderr] becomes an error value.  The send runs with
    ten times the default timeout. *)
Theorem sendSnapshot_writes_after_send (agentId label path : string)
    (st st1 : State) (pool : string) (t0 : list Event) :
  resolveZfsPool H st = (Val (ZfsOk pool), st1, t0) ->
  let snapshot := (workspaceDatasetName pool agentId ++ "@" ++ label)%string in
  timeout (send_cmd snapshot) = 300000%Z /\
  match h_execFile H (world st1) (send_cmd snapshot) with
  | (inr e, w1) =>
      sendSnapshot H agentId label path st
      = (match e_stderr e with
         | Some _ => Throw (Error "err.stderr?.trim is not a function")
         | None => Val (fail (Obj e) ("Failed to send snapshot: " ++ snapshot))
         end,
         mkSt (vars st1) w1, (t0 ++ [ran (send_cmd snapshot) false])%list)
  | (inl out, w1) =>
      match h_writeFile H w1 path (stdout out) with
      | (inl _, w2) =>
          sendSnapshot H agentId label path st
          = (Val (ZfsOk tt), mkSt (vars st1) w2,
             (t0 ++ [ran (send_cmd snapshot) true;
                     (CallWriteFile path (stdout out), true)])%list)
      | (inr e, w2) =>
          sendSnapshot H agentId label path st
          = (Val (fail (Obj e) ("Failed to send snapshot: " ++ snapshot)),
             mkSt (vars st1) w2,
             (t0 ++ [ran (send_cmd snapshot) true;
                     (CallWriteFile path (stdout out), false)])%list)
      end
  end.
Proof.
  intros Hpool snapshot. split; [reflexivity|].
  pose proof (resolveWorkspaceDatasetName_ok H agentId _ _ _ _ Hpool) as Hname.
  unfold sendSnapshot. erewrite bind_val by exact Hname. cbv iota beta zeta.
  fold snapshot.
  unfold fail_buffer, try_catch, bind, execFileAsync, host_call, ret, throw. simpl.
  destruct (h_execFile H (world st1) (send_cmd snapshot)) as [[out|e] w1]; simpl.
  - destruct (h_writeFile H w1 path (stdout out)) as [[[]|e] w2]; simpl;
      rewrite ?app_nil_r; reflexivity.
  - destruct (e_stderr e); simpl; rewrite ?app_nil_r; reflexivity.
Qed.

(** X19: with the pool resolved, each snapshot and tuning operation runs
    exactly one [zfs] command, on the workspace dataset of the agent (the
    sandbox dataset for [promoteClone]), and succeeds exactly when that
    command does: [snapshot ds@label], [rollback -r ds@label],
    [destroy ds@label] without [-r], [promote ds], [set quota=q ds]. *)
Theorem snapshot_operations_one_command (agentId label quota sessionKey : string)
    (st st1 : State) (pool : string) (t0 : list Event) :
  resolveZfsPool H st = (Val (ZfsOk pool), st1, t0) ->
  let ds := workspaceDatasetName pool agentId in
  let snapshot := (ds ++ "@" ++ label)%string in
  let one {T} (m : M State (ZfsResult T)) (c : Cmd) :=
    exists r st',
      m st = (Val r, st', (t0 ++ [ran c (answers H (world st1) c)])%list) /\
      is_ok r = answers H (world st1) c in
  one (createWorkspaceSnapshot H agentId label) (zfs_cmd ["snapshot"; snapshot]) /\
  (answers H (world st1) (zfs_cmd ["snapshot"; snapshot]) = true ->
   SandboxOps.result_of (createWorkspaceSnapshot H agentId label) st
   = Val (ZfsOk snapshot)) /\
  one (rollbackWorkspace H agentId label) (zfs_cmd ["rollback"; "-r"; snapshot]) /\
  one (deleteSnapshot H agentId label) (zfs_cmd ["destroy"; snapshot]) /\
  one (promoteClone H sessionKey)
      (zfs_cmd ["promote"; sandboxDatasetName pool sessionKey]) /\
  one (setWorkspaceQuota H agentId quota)
      (zfs_cmd ["set"; ("quota=" ++ quota)%string; ds]).
Proof.
  intros Hpool ds snapshot one.
  pose proof (resolveWorkspaceDatasetName_ok H agentId _ _ _ _ Hpool) as Hname.
  pose proof (resolveSandboxDatasetName_ok H sessionKey _ _ _ _ Hpool) as Hsb.
  subst one. cbv beta.
  repeat split;
    unfold SandboxOps.result_of, createWorkspaceSnapshot, rollbackWorkspace,
      deleteSnapshot, promoteClone, setWorkspaceQuota; intros;
    first [erewrite bind_val by exact Hname | erewrite bind_val by exact Hsb];
    cbv iota beta zeta; fold ds; fold snapshot;
    unfold try_catch, bind; rewrite zfs_run; unfold answers in *; unfold ret;
    destruct (fst (h_execFile H (world st1) _)); simpl;
    try discriminate; rewrite ?app_nil_r;
    try reflexivity; do 2 eexists; split; reflexivity.
Qed.

(** X20: [listWorkspaceSnapshots] reads back what [zfs list -H] prints.
    For snapshots whose names and sizes are words and whose other fields
    hold no tab or newline, a listing in creation order comes back as the
    same records, newest first; an empty listing is an empty list. *)
Theorem listWorkspaceSnapshots_newest_first (agentId : string) (st st1 : State)
    (pool : string) (t0 : list Event) (out : ExecOutput) (w1 : W)
    (snapshots : list SnapshotInfo) :
  resolveZfsPool H st = (Val (ZfsOk pool), st1, t0) ->
  let cmd := list_snapshots_cmd (workspaceDatasetName pool agentId) in
  h_execFile H (world st1) cmd = (inl out, w1) ->
  stdout out = printListing snapshots ->
  forallb plain snapshots = true ->
  listWorkspaceSnapshots H agentId st
  = (Val (ZfsOk (rev snapshots)), mkSt (vars st1) w1, (t0 ++ [ran cmd true])%list).
Proof.
  intros Hpool cmd Hrun Hout Hplain.
  pose proof (resolveWorkspaceDatasetName_ok H agentId _ _ _ _ Hpool) as Hname.
  unfold listWorkspaceSnapshots. erewrite bind_val by exact Hname. cbv iota beta.
  unfold try_catch, bind, execFileAsync, host_call. fold cmd. rewrite Hrun. simpl.
  rewrite Hout, lines_of_listing by exact Hplain.
  rewrite map_map. rewrite (map_ext_in _ (fun i => i)), map_id.
  - unfold ok. rewrite ?app_nil_r. reflexivity.
  - intros i Hi. apply parse_print.
    rewrite forallb_forall in Hplain. now apply Hplain.
Qed.

(** X21: [getDatasetUsage] answers with a usage only when the trimmed
    output has at least four tab-separated fields.  The four fields it
    returns hold no tab and, joined by tabs, are the start of the trimmed
    output; anything after them begins with a tab and is dropped. *)
Theorem getDatasetUsage_fields (dataset : string) (st st' : State)
    (u : DatasetUsage) (t : list Event) :
  getDatasetUsage H dataset st = (Val (ZfsOk u), st', t) ->
  exists out rest,
    h_execFile H (world st) (usage_cmd dataset) = (inl out, world st') /\
    t = [ran (usage_cmd dataset) true] /\
    trim (stdout out)
    = (u_used u ++ tab ++ u_available u ++ tab ++ u_referenced u ++ tab
         ++ u_mountpoint u ++ rest)%string /\
    (rest = "" \/ exists more, rest = (tab ++ more)%string) /\
    forallb (no_char "009"%char)
      [u_used u; u_available u; u_referenced u; u_mountpoint u] = true.
Proof.
  unfold getDatasetUsage, try_catch, bind, execFileAsync, host_call, ret.
  destruct (h_execFile H (world st) (usage_cmd dataset)) as [[out|e] w1] eqn:Hrun;
    simpl.
  2:{ unfold fail. intros E. discriminate E. }
  pose proof (split_go_concat "009"%char (trim (stdout out)) "") as Hjoin.
  change ("" ++ trim (stdout out))%string with (trim (stdout out)) in Hjoin.
  assert (Hparts : forall x, In x (split "009"%char (trim (stdout out))) ->
                             no_char "009"%char x = true).
  { unfold split. generalize (eq_refl : no_char "009"%char "" = true).
    generalize "" at 1 2. generalize (trim (stdout out)).
    induction s as [|c r IH]; intros cur Hcur x Hin; simpl in Hin.
    - destruct Hin as [<-|[]]. exact Hcur.
    - destruct (Ascii.eqb c "009") eqn:Ec.
      + destruct Hin as [<-|Hin]; [exact Hcur|]. eapply IH; [|exact Hin]. reflexivity.
      + eapply IH; [|exact Hin]. rewrite no_char_app, Hcur. unfold no_char. simpl.
        now rewrite Ec. }
  fold (split "009"%char (trim (stdout out))) in Hjoin.
  destruct (split "009"%char (trim (stdout out))) as [|a [|b [|c [|d extra]]]];
    simpl; try discriminate.
  intros E. injection E as <- <- <-. exists out.
  exists (match extra with [] => "" | _ => tab ++ String.concat tab extra end)%string.
  split; [reflexivity|]. split; [reflexivity|]. split; [|split].
  - rewrite <- Hjoin. cbn [String.concat field nth u_used u_available u_referenced
                             u_mountpoint].
    destruct extra; [now rewrite append_empty|reflexivity].
  - destruct extra; eauto.
  - cbn [forallb field nth u_used u_available u_referenced u_mountpoint].
    rewrite !Hparts by (simpl; auto). reflexivity.
Qed.

(** X22: [isZfsAvailable] asks [zpool list] once, with a timeout of five
    seconds, and answers [true] exactly when the command succeeded and
    printed something other than white space.  It neither reads nor writes
    the pool cache. *)
Theorem isZfsAvailable_probe (st : State) :
  exists b ok st',
    isZfsAvailable H st = (Val b, st', [ran probe_cmd ok]) /\
    vars st' = vars st /\
    timeout probe_cmd = 5000%Z /\
    (b = true <->
     exists out w', h_execFile H (world st) probe_cmd = (inl out, w') /\
                    trim (stdout out) <> "").
Proof.
  unfold isZfsAvailable, try_catch, bind, execFileAsync, host_call, ret.
  destruct (h_execFile H (world st) probe_cmd) as [[out|e] w1] eqn:Hrun; simpl.
  - do 3 eexists. split; [reflexivity|]. repeat split.
    + intros Hb. exists out, w1. split; [reflexivity|].
      intros E. rewrite E in Hb. discriminate Hb.
    + intros (out' & w' & [= <- <-] & Hne).
      destruct (trim (stdout out)); [contradiction|reflexivity].
  - do 3 eexists. split; [reflexivity|]. repeat split.
    + discriminate.
    + intros (out' & w' & [=] & _).
Qed.

End WithHost.

Lemma pool_failure_is_returned_witness :
  SandboxOps.events_of (sendSnapshot dead_host "main" "daily" "/tmp/out") unresolved
  = [ran (zpool_cmd ["list"; "-H"; "-o"; "name"]) false].
Proof.
  pose proof (pool_failure_is_returned dead_host unresolved unresolved "no such pool"
                (Some 1%Z) [ran (zpool_cmd ["list"; "-H"; "-o"; "name"]) false]
                eq_refl) as Hp.
  unfold SandboxOps.events_of.
  now rewrite (proj2 (proj2 (proj2 (proj2 (proj2 (proj2 (proj2 (proj2 (proj2
                (proj2 (proj2 (proj2 (proj2 Hp))))))))))))).
Defined.

Lemma resolveZfsPool_once_witness :
  resolveZfsPool pool_host (mkSt (Some "zroot") (mkPool [] [] []))
  = (Val (ZfsOk "zroot"), mkSt (Some "zroot") (mkPool [] [] []), []).
Proof.
  exact (proj1 (proj2 (resolveZfsPool_once pool_host empty_pool
                         (mkSt (Some "zroot") (world empty_pool)) "zroot"
                         [ran (zpool_cmd ["list"; "-H"; "-o"; "name"]) true] eq_refl))
               (mkPool [] [] [])).
Defined.

Lemma ensureWorkspaceDataset_idempotent_witness :
  mutations (SandboxOps.events_of (ensureWorkspaceDataset pool_host "main") empty_pool)
  = [zfs_cmd ["create"; "-p"; "-o"; "compression=lz4"; "zroot/freeclaw/workspaces/main"]].
Proof.
  exact (proj2 (ensureWorkspaceDataset_idempotent pool_host "main" empty_pool
                  (mkSt (Some "zroot") (world empty_pool)) "zroot"
                  [ran (zpool_cmd ["list"; "-H"; "-o"; "name"]) true] eq_refl)
               eq_refl).
Defined.

Lemma sendSnapshot_writes_after_send_witness :
  sendSnapshot pool_host "main" "daily" "/tmp/out" empty_pool
  = (Throw (Error "err.stderr?.trim is not a function"),
     mkSt (Some "zroot") (world empty_pool),
     [ran (zpool_cmd ["list"; "-H"; "-o"; "name"]) true;
      ran (send_cmd "zroot/freeclaw/workspaces/main@daily") false]).
Proof.
  exact (proj2 (sendSnapshot_writes_after_send pool_host "main" "daily" "/tmp/out"
                  empty_pool (mkSt (Some "zroot") (world empty_pool)) "zroot"
                  [ran (zpool_cmd ["list"; "-H"; "-o"; "name"]) true] eq_refl)).
Defined.

Lemma snapshot_operations_one_command_witness :
  SandboxOps.result_of (createWorkspaceSnapshot pool_host "main" "daily") empty_pool
  = Val (ZfsOk "zroot/freeclaw/workspaces/main@daily").
Proof.
  exact (proj1 (proj2 (snapshot_operations_one_command pool_host "main" "daily" "5G"
                         "abc" empty_pool (mkSt (Some "zroot") (world empty_pool))
                         "zroot" [ran (zpool_cmd ["list"; "-H"; "-o"; "name"]) true]
                         eq_refl))
               eq_refl).
Defined.

Lemma listWorkspaceSnapshots_newest_first_witness :
  SandboxOps.result_of
    (listWorkspaceSnapshots (printing_host (printListing two_snapshots)) "main")
    unresolved
  = Val (ZfsOk (rev two_snapshots)).
Proof.
  unfold SandboxOps.result_of.
  now rewrite (listWorkspaceSnapshots_newest_first
                 (printing_host (printListing two_snapshots)) "main" unresolved
                 (mkSt (Some "zroot") tt) "zroot"
                 [ran (zpool_cmd ["list"; "-H"; "-o"; "name"]) true]
                 (mkOutput (printListing two_snapshots) "") tt two_snapshots
                 eq_refl eq_refl eq_refl eq_refl).
Defined.

Lemma getDatasetUsage_fields_witness :
  exists rest,
    trim ("1.2M" ++ tab ++ "80G" ++ tab ++ "1.1M" ++ tab ++ "/ws/main" ++ tab ++ "x" ++ nl)
    = ("1.2M" ++ tab ++ "80G" ++ tab ++ "1.1M" ++ tab ++ "/ws/main" ++ rest)%string.
Proof.
  destruct (getDatasetUsage_fields
              (printing_host ("1.2M" ++ tab ++ "80G" ++ tab ++ "1.1M" ++ tab
                                ++ "/ws/main" ++ tab ++ "x" ++ nl))
              "zroot/freeclaw/workspaces/main" unresolved unresolved
              (mkDatasetUsage "1.2M" "80G" "1.1M" "/ws/main")
              [ran (usage_cmd "zroot/freeclaw/workspaces/main") true] eq_refl)
    as (out & rest & Hrun & _ & Htrim & _).
  exists rest. injection Hrun as <-. exact Htrim.
Defined.

End ZfsOpsProps.
(* ------------------------------------------------------------------ *)
(** ** src/freebsd/jail.ts: the stanza, its lookup, the next address *)

Module JailOpsProps.
Import Js Eff Jail SandboxOps JailOps SandboxOpsProps LifecycleProps.

(** X23: the stanza of [generateJailConf] opens with the jail name and a
    brace and closes with a brace.  It has 21 lines, three more for the
    network block when [ip4Addr] is a non-empty string, and three more when
    there is at least one mount: however many mounts there are, a single
    [mount.fstab] line points to [etc/fstab.freeclaw] under the jail root.
    The loopback alias of [exec.prestart] uses [ip4Addr], or 127.0.1.1 when
    it is missing, also when the network block is left out. *)
Theorem generateJailConf_structure (cfg : JailConfig) :
  let lines := generateJailConf_lines cfg in
  List.length lines
  = (21 + (if truthy_opt (ip4Addr cfg) then 3 else 0)
        + (match mounts cfg with Some (_ :: _) => 3 | _ => 0 end))%nat /\
  hd_error lines = Some (name cfg ++ " {") /\
  last lines "" = "}" /\
  (forall m ms,
      mounts cfg = Some (m :: ms) ->
      nth_error lines (List.length lines - 2)
      = Some ("    mount.fstab = " ++ dq ++ rootDir cfg ++ "/etc/fstab.freeclaw"
                ++ dq ++ ";")) /\
  In ("    exec.prestart = " ++ dq ++ "ifconfig lo1 alias "
        ++ nullish (ip4Addr cfg) "127.0.1.1"
        ++ " netmask 255.255.255.255 || true" ++ dq ++ ";") lines.
Proof.
  unfold generateJailConf_lines, push.
  destruct (truthy_opt (ip4Addr cfg)), (mounts cfg) as [[|m ms]|];
    cbv zeta; repeat split; try reflexivity;
    try (intros ? ? [=]); try reflexivity;
    rewrite ?in_app_iff; simpl; tauto.
Qed.

(** *** Escaping and the lookup of a stanza *)

Lemma special_backslash (c : ascii) : special c = false -> Ascii.eqb c "\" = false.
Proof.
  intros Hs. destruct (Ascii.eqb_spec c "\"%char) as [->|]; [|reflexivity].
  discriminate Hs.
Qed.

(** What [escapeRegex] returns is a pattern for the text itself. *)
Lemma literal_escapeRegex (s : string) : literal (escapeRegex s) = Some s.
Proof.
  induction s as [|c r IH]; [reflexivity|]. cbn [escapeRegex].
  destruct (special c) eqn:Hs.
  - cbn [literal]. rewrite Ascii.eqb_refl, Hs, IH. reflexivity.
  - cbn [literal]. rewrite (special_backslash c Hs), Hs, IH. reflexivity.
Qed.

Lemma drop_app (a b : string) : drop (String.length a) (a ++ b) = b.
Proof. induction a as [|c a IH]; [destruct b; reflexivity|exact IH]. Qed.

Lemma stanza_search_here (name s : string) :
  stanza_at name s = true -> stanza_search name s true = true.
Proof. intros Hs. destruct s; simpl; rewrite Hs; reflexivity. Qed.

Lemma stanza_search_after (name before s : string) (lineStart : bool) :
  stanza_at name s = true ->
  stanza_search name (before ++ nl ++ s) lineStart = true.
Proof.
  intros Hs. revert lineStart. induction before as [|c r IH]; intros lineStart.
  - change (stanza_search name ("" ++ nl ++ s) lineStart)
      with ((lineStart && stanza_at name (String "010"%char s))
            || stanza_search name s true).
    rewrite (stanza_search_here _ _ Hs). apply orb_true_r.
  - cbn [append stanza_search]. rewrite IH. apply orb_true_r.
Qed.

Lemma generateJailConf_head (cfg : JailConfig) :
  exists rest, generateJailConf cfg = (name cfg ++ " {" ++ rest)%string.
Proof.
  unfold generateJailConf, join, generateJailConf_lines, push.
  destruct (truthy_opt (ip4Addr cfg)), (mounts cfg) as [[|m ms]|];
    cbn [app String.concat]; eexists; rewrite str_app_assoc; reflexivity.
Qed.

Lemma stanza_at_generated (cfg : JailConfig) (after : string) :
  stanza_at (name cfg) (generateJailConf cfg ++ after) = true.
Proof.
  destruct (generateJailConf_head cfg) as (rest & ->).
  unfold stanza_at. rewrite !str_app_assoc, prefix_app, drop_app. reflexivity.
Qed.

Section WithHost.
Context {W : Type} (H : Host W) (readFile : W -> string -> (string + ErrObj) * W).

(** X24: [jailExistsInConf] finds what [generateJailConf] writes.  For a
    file that holds the stanza of a configuration at its start or right
    after a newline, the lookup of that jail name answers [true], whatever
    characters the name is made of; a file that cannot be read answers
    [false].  The function never throws. *)
Theorem jailExistsInConf_finds_generated (cfg : JailConfig) (confPath : option string)
    (w w' : W) :
  (forall before after,
      before = "" \/ (exists b, before = (b ++ nl)%string) ->
      readFile w (nullish confPath "/etc/jail.conf")
      = (inl (before ++ generateJailConf cfg ++ after)%string, w') ->
      jailExistsInConf readFile (name cfg) confPath (mkSt tt w)
      = (Val true, mkSt tt w', [])) /\
  (forall e,
      readFile w (nullish confPath "/etc/jail.conf") = (inr e, w') ->
      jailExistsInConf readFile (name cfg) confPath (mkSt tt w)
      = (Val false, mkSt tt w', [])).
Proof.
  split.
  - intros before after Hb Hr.
    unfold jailExistsInConf, try_catch, bind, quiet_call, ret. simpl. rewrite Hr.
    unfold stanza_test. rewrite literal_escapeRegex.
    pose proof (stanza_at_generated cfg after) as Hs.
    destruct Hb as [->|(b & ->)].
    + cbn [append]. now rewrite stanza_search_here.
    + rewrite str_app_assoc. now rewrite stanza_search_after.
  - intros e Hr.
    unfold jailExistsInConf, try_catch, bind, quiet_call, ret. simpl. rewrite Hr.
    reflexivity.
Qed.

(** *** The next address *)

Lemma existsb_In (i : Z) (l : list Z) : existsb (Z.eqb i) l = true <-> In i l.
Proof.
  rewrite existsb_exists. split.
  - intros (x & Hin & E). apply Z.eqb_eq in E. now subst.
  - intros Hin. exists i. split; [exact Hin|apply Z.eqb_refl].
Qed.

Lemma pick_seq (prefix : string) (used : list Z) (n a : nat) :
  (exists i,
      (a <= i < a + n)%nat /\
      pick prefix used (map Z.of_nat (seq a n))
      = (prefix ++ "." ++ of_Z (Z.of_nat i))%string /\
      ~ In (Z.of_nat i) used /\
      forall j, (a <= j < i)%nat -> In (Z.of_nat j) used)
  \/ (pick prefix used (map Z.of_nat (seq a n)) = (prefix ++ ".1")%string /\
      forall j, (a <= j < a + n)%nat -> In (Z.of_nat j) used).
Proof.
  revert a. induction n as [|n IH]; intros a.
  - right. split; [reflexivity|]. intros j Hj. lia.
  - cbn [seq map pick].
    destruct (existsb (Z.eqb (Z.of_nat a)) used) eqn:Eu; cbn [negb].
    + apply existsb_In in Eu.
      destruct (IH (Datatypes.S a)) as [(i & Hi & Hp & Hfree & Hlow)|(Hp & Hall)].
      * left. exists i. split; [lia|]. split; [exact Hp|]. split; [exact Hfree|].
        intros j Hj. destruct (Nat.eq_dec j a) as [->|]; [exact Eu|].
        apply Hlow. lia.
      * right. split; [exact Hp|]. intros j Hj.
        destruct (Nat.eq_dec j a) as [->|]; [exact Eu|]. apply Hall. lia.
    + left. exists a. split; [lia|]. split; [reflexivity|]. split.
      * intros Hin. apply existsb_In in Hin. congruence.
      * intros j Hj. lia.
Qed.

Lemma listJails_run (st : Jst) :
  exists jails ok,
    listJails H st
    = (Val jails, mkSt tt (next H (world st) jls_cmd), [ran jls_cmd ok]).
Proof.
  unfold listJails, try_catch, bind, execFileAsync, host_call, ret, next.
  destruct st as [[] w]. simpl.
  destruct (h_execFile H w jls_cmd) as [[out|e] w']; simpl;
    do 2 eexists; unfold ran; reflexivity.
Qed.

Lemma usedOctets_run (prefix : string) (jails : list JailInfo) (used : list Z)
    (st : Jst) :
  exists used' st' t,
    usedOctets H prefix jails used st = (Val used', st', t) /\
    commands t = map ifconfig_cmd jails.
Proof.
  revert used st. induction jails as [|j jails IH]; intros used st.
  - simpl. unfold ret. do 3 eexists. split; reflexivity.
  - cbn [usedOctets].
    assert (Hstep : exists u s1 ok,
      try_catch
        (out <- execFileAsync H (ifconfig_cmd j) ;;
         match match_octet (escapeRegex prefix) (stdout out) with
         | Some n => ret (n :: used)
         | None => ret used
         end)%eff
        (fun _ => ret used) st
      = (Val u, s1, [ran (ifconfig_cmd j) ok])).
    { unfold try_catch, bind, execFileAsync, host_call, ret.
      destruct (h_execFile H (world st) (ifconfig_cmd j)) as [[out|e] w']; simpl.
      - destruct (match_octet _ _); simpl; do 3 eexists; unfold ran; reflexivity.
      - do 3 eexists; unfold ran; reflexivity. }
    destruct Hstep as (u & s1 & ok & Estep).
    destruct (IH u s1) as (used' & st' & t & E & Hc).
    erewrite bind_val by exact Estep. rewrite E.
    do 3 eexists. split; [reflexivity|]. simpl. now rewrite Hc.
Qed.

(** X25: [nextJailIp] asks [jls] for the running jails and each of them for
    its lo1 address, ignoring failures, and never throws.  Its answer is
    the prefix with the lowest last octet from 1 to 254 that no jail
    reported.  When all 254 are taken it answers with octet 1 all the
    same, an address that is in use. *)
Theorem nextJailIp_lowest_free (prefix : option string) (st st1 st2 : Jst)
    (jails : list JailInfo) (used : list Z) (t1 t2 : list Event) :
  let p := nullish prefix DEFAULT_JAIL_IP_PREFIX in
  listJails H st = (Val jails, st1, t1) ->
  usedOctets H p jails [] st1 = (Val used, st2, t2) ->
  commands (t1 ++ t2) = jls_cmd :: map ifconfig_cmd jails /\
  exists i,
    nextJailIp H prefix st = (Val (p ++ "." ++ of_Z i)%string, st2, (t1 ++ t2)%list) /\
    (1 <= i <= 254)%Z /\
    (forall j, (1 <= j < i)%Z -> In j used) /\
    (In i used -> i = 1%Z /\ forall j, (1 <= j <= 254)%Z -> In j used).
Proof.
  intros p Hl Hu. split.
  - destruct (listJails_run st) as (jails' & ok & El). rewrite El in Hl.
    injection Hl as <- <- <-.
    destruct (usedOctets_run p jails' [] (mkSt tt (next H (world st) jls_cmd)))
      as (used' & st' & t & E & Hc).
    rewrite E in Hu. injection Hu as <- <- <-. simpl. now rewrite Hc.
  - unfold nextJailIp. fold p.
    erewrite bind_val by exact Hl. erewrite bind_val by exact Hu.
    unfold ret. rewrite app_nil_r. unfold candidates.
    destruct (pick_seq p used 254 1) as [(i & Hi & Hp & Hfree & Hlow)|(Hp & Hall)].
    + exists (Z.of_nat i). split; [now rewrite Hp|]. split; [lia|]. split.
      * intros j Hj. replace j with (Z.of_nat (Z.to_nat j)) by lia.
        apply Hlow. lia.
      * intros Hin. contradiction.
    + exists 1%Z. split; [now rewrite Hp|]. split; [lia|]. split.
      * intros j Hj. lia.
      * intros _. split; [reflexivity|]. intros j Hj.
        replace j with (Z.of_nat (Z.to_nat j)) by lia. apply Hall. lia.
Qed.

End WithHost.

Lemma jailExistsInConf_finds_generated_witness :
  jailExistsInConf conf_file "freeclaw0" None (mkSt tt tt) = (Val true, mkSt tt tt, []).
Proof.
  exact (proj1 (jailExistsInConf_finds_generated conf_file two_mounts None tt tt)
               ("web {" ++ nl ++ "}" ++ nl)%string nl
               (or_intror (ex_intro _ ("web {" ++ nl ++ "}")%string eq_refl)) eq_refl).
Defined.

Lemma nextJailIp_lowest_free_witness :
  SandboxOps.result_of (nextJailIp two_jails None) (mkSt tt tt) = Val "127.0.1.3".
Proof.
  destruct (nextJailIp_lowest_free two_jails None (mkSt tt tt)
              (SandboxOps.state_after (listJails two_jails) (mkSt tt tt))
              (SandboxOps.state_after (nextJailIp two_jails None) (mkSt tt tt))
              [mkJailInfo (Some 1%Z) "web" "/jails/web" "web.local";
               mkJailInfo (Some 2%Z) "db" "/jails/db" "db.local"]
              [2%Z; 1%Z]
              (SandboxOps.events_of (listJails two_jails) (mkSt tt tt))
              [ran (ifconfig_cmd (mkJailInfo (Some 1%Z) "web" "/jails/web" "web.local")) true;
               ran (ifconfig_cmd (mkJailInfo (Some 2%Z) "db" "/jails/db" "db.local")) true]
              eq_refl eq_refl)
    as (_ & i & E & _).
  vm_compute. reflexivity.
Defined.

End JailOpsProps.
(* ------------------------------------------------------------------ *)
(** ** Capsicum: the availability cache, the helper, the child *)

Module CapsicumOpsProps.
Import Js Eff Capsicum CapsicumOps CapsicumProps.

#[local] Arguments trim : simpl never.
#[local] Arguments show : simpl never.
#[local] Arguments String.eqb : simpl never.
#[local] Arguments append : simpl never.

Ltac cap_unfold :=
  unfold Capsicum.isCapsicumAvailable, Capsicum.generateCapHelper, Capsicum.cc_cmd,
    set_capsicumAvailable, set_capHelperReady, logWarn, logInfo, log,
    execSync, existsSync, mkdirSync, writeFile, chmod, unlink, execFileAsync,
    host_call, try_catch, bind, ret, get_vars, set_vars, sysctl, ran.

Ltac cap_run :=
  repeat first
    [ cap_step
    | match goal with
      | |- context [String.eqb ?a ?b] => destruct (String.eqb a b) eqn:?; simpl in *
      | |- context [truthy ?a] => destruct (truthy a) eqn:?; simpl in *
      end ].


Section WithHost.
Context {W : Type} (H : Host W) (K : Constants).

(** X26: [isCapsicumAvailable] never throws and answers from its cache
    once it has answered: the answer is stored, and any later call returns
    it without a call to the host or a log line.  On a platform that is not
    FreeBSD the first answer is [false] and [sysctl] is not run; an answer
    [true] that is not from the cache comes from a successful [sysctl]. *)
Theorem isCapsicumAvailable_cached (st : CapState) :
  exists b st1 t1,
    isCapsicumAvailable H K st = (Val b, st1, t1) /\
    capsicumAvailable (vars st1) = Some b /\
    capHelperReady (vars st1) = capHelperReady (vars st) /\
    (forall w',
        isCapsicumAvailable H K (mkSt (vars st1) w')
        = (Val b, mkSt (vars st1) w', [])) /\
    (capsicumAvailable (vars st) = None -> IS_FREEBSD K = false ->
     b = false /\ t1 = []) /\
    (capsicumAvailable (vars st) = None -> b = true ->
     In (CallExecSync sysctl 3000, true) t1).
Proof.
  destruct st as [[avail ready] w]. cap_unfold. simpl.
  destruct K as [isFreebsd binDir capExecBin capExecSrc source]. simpl.
  destruct avail as [[|]|], isFreebsd; simpl.
  all: cap_run.
  all: do 3 eexists; (split; [reflexivity|]); simpl.
  all: repeat split; intros; try reflexivity; try discriminate; auto.
Qed.


Section Restrict.
Context (path_join : string -> string -> string) (tmp : string).


End Restrict.

End WithHost.

Lemma settle_acc (sandboxed : bool) (before after : list ChildEvent)
    (so se : list string) :
  forallb is_data before = true ->
  (forall code,
      settle sandboxed (before ++ CloseEvent code :: after) so se
      = Some (mkCapsicumExecResult
                (String.concat "" (so ++ stdout_of before))
                (String.concat "" (se ++ stderr_of before)) code sandboxed)) /\
  (forall message,
      settle sandboxed (before ++ ErrorEvent message :: after) so se
      = Some (mkCapsicumExecResult
                (String.concat "" (so ++ stdout_of before))
                (String.concat "" (se ++ stderr_of before) ++ nl
                   ++ "[capsicum] spawn error: " ++ message)
                (Some 126%Z) sandboxed)) /\
  settle sandboxed before so se = None.
Proof.
  revert so se. induction before as [|e before IH]; intros so se Hdata.
  - simpl. rewrite !app_nil_r. repeat split; reflexivity.
  - destruct e as [c|c|m|c]; try discriminate Hdata; simpl in Hdata.
    + specialize (IH (so ++ [c])%list se Hdata).
      unfold stdout_of, stderr_of in *. cbn [app settle flat_map].
      rewrite <- !app_assoc in IH. exact IH.
    + specialize (IH so (se ++ [c])%list Hdata).
      unfold stdout_of, stderr_of in *. cbn [app settle flat_map].
      rewrite <- !app_assoc in IH. exact IH.
Qed.

(** X28: the result of [capsicumExec] is fixed by the first [close] or
    [error] event of the child.  It carries the output received until then,
    in order; a [close] hands back the exit code as it is, a spawn [error]
    gives exit code 126 and a note on stderr.  Whatever the child emits
    afterwards is ignored, and a child that emits neither never yields a
    result. *)
Theorem capsicumExec_first_event (sandboxed : bool) (before after : list ChildEvent) :
  let out := String.concat "" (stdout_of before) in
  let err := String.concat "" (stderr_of before) in
  forallb is_data before = true ->
  (forall code,
      settle sandboxed (before ++ CloseEvent code :: after) [] []
      = Some (mkCapsicumExecResult out err code sandboxed)) /\
  (forall message,
      settle sandboxed (before ++ ErrorEvent message :: after) [] []
      = Some (mkCapsicumExecResult out
                (err ++ nl ++ "[capsicum] spawn error: " ++ message)
                (Some 126%Z) sandboxed)) /\
  settle sandboxed before [] [] = None.
Proof.
  intros out err Hdata.
  destruct (settle_acc sandboxed before after [] [] Hdata) as (Hclose & Herror & Hnone).
  split; [|split].
  - intros code. rewrite Hclose. reflexivity.
  - intros message. rewrite Herror. reflexivity.
  - exact Hnone.
Qed.

Lemma capsicumExec_first_event_witness :
  settle true [StdoutData "a"; StderrData "w"; StdoutData "b"; CloseEvent (Some 3%Z);
               StdoutData "late"; ErrorEvent "gone"] [] []
  = Some (mkCapsicumExecResult "ab" "w" (Some 3%Z) true).
Proof.
  exact (proj1 (capsicumExec_first_event true
                  [StdoutData "a"; StderrData "w"; StdoutData "b"]
                  [StdoutData "late"; ErrorEvent "gone"] eq_refl) (Some 3%Z)).
Defined.


End CapsicumOpsProps.
